(** * The MEGNet trainer of matgl ([matgl/trainer/megnet.py])

    A shallow embedding of the training-loop driver: the two epoch step
    functions, the streaming JSON log writer and the epoch loop of
    [MEGNetTrainer.train] with its checkpoint policy.

    Python floats are IEEE binary64 numbers and are modelled by Rocq's
    primitive floats; Python integers are [Z]; text is a list of characters.
    The deep-learning framework (tensors, autograd, optimizers) is external
    to the module and enters through the interface [Torch]. *)

From Stdlib Require Import ZArith List Bool Ascii String Lia Floats Uint63.
From Stdlib Require Import Decimal DecimalFacts DecimalN DecimalPos.
Import ListNotations.

Set Implicit Arguments.
Set Warnings "-register-all".

(** ** Exceptions and results *)

Inductive exn : Type :=
| ZeroDivisionError
| FileNotFoundError
| FileExistsError
| IsADirectoryError
| NotADirectoryError
| PermissionError
| ValueError.

Inductive result (A : Type) : Type :=
| Ok (a : A)
| Raise (e : exn).

Arguments Ok {A} a.
Arguments Raise {A} e.

(** ** Text *)

Definition text := list ascii.

Definition nl : ascii := "010"%char.

Definition dquote : ascii := "034"%char.

Definition bslash : ascii := "092"%char.

Definition txt (s : string) : text := list_ascii_of_string s.

(** ** Python floats *)

(** [x < y] on floats: false as soon as one side is NaN. *)
Definition float_lt (x y : float) : bool := PrimFloat.ltb x y.

Definition float_le (x y : float) : bool := PrimFloat.leb x y.

Definition float_is_nan (x : float) : bool :=
  match Prim2SF x with S754_nan => true | _ => false end.

(** [float(n)] for a length [n]: CPython bounds [len] by [sys.maxsize],
    which is [2^63 - 1], so the conversion is the one of a 63-bit integer. *)
Definition float_of_len (n : nat) : float :=
  PrimFloat.of_uint63 (Uint63.of_Z (Z.of_nat n)).

(** [x / n] for a float [x] and an integer length [n]. *)
Definition py_truediv (x : float) (n : nat) : result float :=
  match n with
  | O => Raise ZeroDivisionError
  | S _ => Ok (PrimFloat.div x (float_of_len n))
  end.

(** [range(n)] *)
Definition py_range (n : Z) : list Z :=
  map Z.of_nat (seq 0 (Z.to_nat n)).

(** ** The file system below the current working directory *)

Inductive node : Type :=
| File (data : text)
| Dir (entries : list (string * node)).

Definition path := list string.

Fixpoint assoc_get (A : Type) (k : string) (l : list (string * A)) : option A :=
  match l with
  | [] => None
  | (k', v) :: l' => if String.eqb k k' then Some v else assoc_get k l'
  end.

Fixpoint assoc_del (A : Type) (k : string) (l : list (string * A)) : list (string * A) :=
  match l with
  | [] => []
  | (k', v) :: l' => if String.eqb k k' then assoc_del k l' else (k', v) :: assoc_del k l'
  end.

Fixpoint assoc_set (A : Type) (k : string) (v : A) (l : list (string * A)) : list (string * A) :=
  match l with
  | [] => [(k, v)]
  | (k', v') :: l' => if String.eqb k k' then (k, v) :: l' else (k', v') :: assoc_set k v l'
  end.

Fixpoint fs_lookup (p : path) (n : node) {struct p} : option node :=
  match p with
  | [] => Some n
  | name :: rest =>
      match n with
      | Dir es =>
          match assoc_get name es with
          | Some c => fs_lookup rest c
          | None => None
          end
      | File _ => None
      end
  end.

(** Change what the last component of [p] names in its parent directory:
    [f] receives the current entry and answers with the new one, with
    [None] for no entry, or raises. *)
Fixpoint fs_alter (p : path) (f : option node -> result (option node)) (n : node)
  {struct p} : result node :=
  match p with
  | [] =>
      match f (Some n) with
      | Ok (Some n') => Ok n'
      | Ok None => Raise PermissionError
      | Raise e => Raise e
      end
  | name :: rest =>
      match n with
      | File _ => Raise NotADirectoryError
      | Dir es =>
          match rest with
          | [] =>
              match f (assoc_get name es) with
              | Ok (Some c) => Ok (Dir (assoc_set name c es))
              | Ok None => Ok (Dir (assoc_del name es))
              | Raise e => Raise e
              end
          | _ :: _ =>
              match assoc_get name es with
              | None => Raise FileNotFoundError
              | Some c =>
                  match fs_alter rest f c with
                  | Ok c' => Ok (Dir (assoc_set name c' es))
                  | Raise e => Raise e
                  end
              end
          end
      end
  end.

(** [os.path.exists] *)
Definition fs_exists (p : path) (n : node) : bool :=
  match fs_lookup p n with Some _ => true | None => false end.

(** [shutil.rmtree]: removes a directory with all it contains. *)
Definition fs_rmtree (p : path) : node -> result node :=
  fs_alter p (fun o =>
    match o with
    | Some (Dir _) => Ok None
    | Some (File _) => Raise NotADirectoryError
    | None => Raise FileNotFoundError
    end).

(** [os.mkdir] *)
Definition fs_mkdir (p : path) : node -> result node :=
  fs_alter p (fun o =>
    match o with
    | Some _ => Raise FileExistsError
    | None => Ok (Some (Dir []))
    end).

(** Opening for writing creates the file or truncates it. *)
Definition fs_create (p : path) : node -> result node :=
  fs_alter p (fun o =>
    match o with
    | Some (Dir _) => Raise IsADirectoryError
    | _ => Ok (Some (File []))
    end).

(** The data of a regular file. *)
Definition fs_read (p : path) (n : node) : result text :=
  match fs_lookup p n with
  | Some (File d) => Ok d
  | Some (Dir _) => Raise IsADirectoryError
  | None => Raise FileNotFoundError
  end.

(** Replace the data of a regular file. *)
Definition fs_store (p : path) (d : text) : node -> result node :=
  fs_alter p (fun o =>
    match o with
    | Some (File _) => Ok (Some (File d))
    | Some (Dir _) => Raise IsADirectoryError
    | None => Raise FileNotFoundError
    end).

(** Writing [s] at offset [pos] of [d]: overwrites what is there and extends
    the file, filling a gap before [pos] with zero bytes. *)
Definition write_at (pos : nat) (s d : text) : text :=
  firstn pos d ++ repeat Ascii.zero (pos - List.length d) ++ s ++ skipn (pos + List.length s) d.

(** ** The external interfaces *)

(** What [torch.save] is given by the trainer. *)
Inductive saved (blob : Type) : Type :=
| Checkpoint (epoch : Z) (model optimizer_state_dict scheduler_state_dict : blob) (loss : float)
| BestModel (model : blob).

(** The deep-learning framework.  [weights] stands for all a module holds
    besides its mode flag: parameters, buffers and the gradients accumulated
    on the parameters.  The forward pass is given the mode flag and whether
    gradients are tracked, and may update buffers. *)
Class Torch : Type := {
  tensor : Type;
  graph : Type;
  weights : Type;
  optim : Type;
  sched : Type;
  blob : Type;
  ndata : graph -> string -> tensor;
  edata : graph -> string -> tensor;
  to_float : tensor -> tensor;
  to_long : tensor -> tensor;
  forward : bool -> bool -> weights -> graph -> tensor -> tensor -> tensor -> tensor * weights;
  squeeze : tensor -> tensor;
  zeros1 : tensor;
  tadd : tensor -> tensor -> tensor;
  tsub : tensor -> tensor -> tensor;
  tmul : tensor -> tensor -> tensor;
  tdiv : tensor -> tensor -> tensor;
  detach : tensor -> tensor;
  cpu : tensor -> tensor;
  item : tensor -> float;
  zero_grad : optim -> weights -> weights;
  backward : tensor -> weights -> weights;
  optim_step : optim -> weights -> optim * weights;
  sched_step : sched -> optim -> sched * optim;
  as_dict : bool -> weights -> blob;
  optim_state_dict : optim -> blob;
  sched_state_dict : sched -> blob;
  pickle : saved blob -> text
}.

(** The Python runtime: the readings of [timeit.default_timer], numbered by
    call, and the formatting of floats ([repr] and ["%6.5f"]). *)
Class Runtime : Type := {
  clock : nat -> float;
  float_repr : float -> text;
  format_6_5f : float -> string
}.

(** A record of the JSON log, the [log_dict] of the trainer. *)
Record log_dict : Type := {
  Epoch : Z;
  train_loss : float;
  val_loss : float;
  train_time : float;
  val_time : float
}.

(** What the logger is told; the formatting of the line is left out. *)
Inductive log_msg : Type :=
| TrainingStarted
| EpochSummary (epoch : Z) (train_loss val_loss train_time val_time : float)
| TrainingFinished.

(** What [tqdm] is told of the loop it wraps: it is made over an iterable of
    a length, an item of it is done, the iterable is exhausted.  The bar it
    draws of this on [sys.stderr], and at which of these moments it redraws
    it, are the library's. *)
Inductive progress : Type :=
| BarOpened (total : nat)
| BarAdvanced
| BarClosed.

Section Program.

Context {T : Torch}.

(** An [nn.Module]: the train/eval flag and the rest. *)
Record Module : Type := {
  training : bool;
  state : weights
}.

(** The calls to the logger, to [torch.save] and to [write], in the order
    they are made. *)
Inductive event : Type :=
| LoggerInfo (msg : log_msg)
| TorchSave (obj : saved blob) (f : path)
| FileWrite (f : path) (s : text).

(** The mutable world: the three objects the trainer holds, the file system,
    the number of clock readings taken so far, the trace of calls, and what
    [tqdm] was told, which it shows as progress bars on [sys.stderr]. *)
Record World : Type := {
  model : Module;
  optimizer : optim;
  scheduler : sched;
  fs : node;
  timer_reads : nat;
  trace : list event;
  bars : list progress
}.

Definition set_model (m : Module) (w : World) : World :=
  {| model := m; optimizer := optimizer w; scheduler := scheduler w;
     fs := fs w; timer_reads := timer_reads w; trace := trace w;
     bars := bars w |}.

Definition set_optimizer (o : optim) (w : World) : World :=
  {| model := model w; optimizer := o; scheduler := scheduler w;
     fs := fs w; timer_reads := timer_reads w; trace := trace w;
     bars := bars w |}.

Definition set_scheduler (s : sched) (w : World) : World :=
  {| model := model w; optimizer := optimizer w; scheduler := s;
     fs := fs w; timer_reads := timer_reads w; trace := trace w;
     bars := bars w |}.

Definition set_fs (n : node) (w : World) : World :=
  {| model := model w; optimizer := optimizer w; scheduler := scheduler w;
     fs := n; timer_reads := timer_reads w; trace := trace w;
     bars := bars w |}.

Definition set_timer_reads (k : nat) (w : World) : World :=
  {| model := model w; optimizer := optimizer w; scheduler := scheduler w;
     fs := fs w; timer_reads := k; trace := trace w;
     bars := bars w |}.

Definition set_trace (t : list event) (w : World) : World :=
  {| model := model w; optimizer := optimizer w; scheduler := scheduler w;
     fs := fs w; timer_reads := timer_reads w; trace := t;
     bars := bars w |}.

Definition set_bars (p : list progress) (w : World) : World :=
  {| model := model w; optimizer := optimizer w; scheduler := scheduler w;
     fs := fs w; timer_reads := timer_reads w; trace := trace w;
     bars := p |}.

(** *** Computations: state that survives an exception *)

Definition M (A : Type) : Type := World -> World * result A.

Definition ret (A : Type) (a : A) : M A := fun w => (w, Ok a).

Definition bind (A B : Type) (m : M A) (k : A -> M B) : M B :=
  fun w =>
    match m w with
    | (w', Ok a) => k a w'
    | (w', Raise e) => (w', Raise e)
    end.

Definition raise (A : Type) (e : exn) : M A := fun w => (w, Raise e).

Definition get : M World := fun w => (w, Ok w).

Definition modify (f : World -> World) : M unit := fun w => (f w, Ok tt).

Definition lift (A : Type) (r : result A) : M A := fun w => (w, r).

End Program.

Arguments raise {T A} e.

Notation "x <- c1 ;; c2" := (bind c1 (fun x => c2))
  (at level 61, c1 at next level, right associativity).
Notation "' p <- c1 ;; c2" := (bind c1 (fun x => let p := x in c2))
  (at level 61, p pattern, c1 at next level, right associativity).
Notation "c1 ;; c2" := (bind c1 (fun _ => c2))
  (at level 61, right associativity).

Section Effects.

Context {T : Torch} {R : Runtime}.

(** A [for] loop that carries its variables along. *)
Fixpoint for_each (A B : Type) (l : list A) (body : B -> A -> M B) (acc : B) : M B :=
  match l with
  | [] => ret acc
  | a :: l' => acc' <- body acc a ;; for_each l' body acc'
  end.

Definition emit (e : event) : M unit :=
  modify (fun w => set_trace (trace w ++ [e]) w).

(** Run a file-system operation on the world. *)
Definition on_fs (op : node -> result node) : M unit :=
  fun w =>
    match op (fs w) with
    | Ok n => (set_fs n w, Ok tt)
    | Raise e => (w, Raise e)
    end.

Definition default_timer : M float :=
  fun w => (set_timer_reads (S (timer_reads w)) w, Ok (clock (timer_reads w))).

Definition logger_info (msg : log_msg) : M unit := emit (LoggerInfo msg).

(** A call that drives the progress bar of [tqdm]. *)
Definition tqdm_tell (p : progress) : M unit :=
  modify (fun w => set_bars (bars w ++ [p]) w).

(** [torch.save(obj, f)]: creates or truncates the file and writes the
    pickled object. *)
Definition torch_save (obj : saved blob) (f : path) : M unit :=
  on_fs (fs_alter f (fun o =>
    match o with
    | Some (Dir _) => Raise IsADirectoryError
    | _ => Ok (Some (File (pickle obj)))
    end)) ;;
  emit (TorchSave obj f).

(** *** Text files *)

Inductive open_mode : Type := ModeRPlus | ModeW.

(** An open text file: where it is, how it was opened, the position of the
    next write, what was written and not yet flushed, and whether it was
    closed. *)
Record pyfile : Type := {
  f_path : path;
  f_mode : open_mode;
  f_pos : nat;
  f_pending : text;
  f_closed : bool
}.

Definition py_open (filename : path) (mode : open_mode) : M pyfile :=
  match mode with
  | ModeRPlus =>
      w <- get ;;
      _ <- lift (fs_read filename (fs w)) ;;
      ret {| f_path := filename; f_mode := ModeRPlus; f_pos := 0;
             f_pending := []; f_closed := false |}
  | ModeW =>
      on_fs (fs_create filename) ;;
      ret {| f_path := filename; f_mode := ModeW; f_pos := 0;
             f_pending := []; f_closed := false |}
  end.

Definition file_flush (f : pyfile) : M pyfile :=
  if f_closed f then raise ValueError else
  match f_pending f with
  | [] => ret f
  | s =>
      w <- get ;;
      d <- lift (fs_read (f_path f) (fs w)) ;;
      on_fs (fs_store (f_path f) (write_at (f_pos f) s d)) ;;
      ret {| f_path := f_path f; f_mode := f_mode f; f_pos := f_pos f + List.length s;
             f_pending := []; f_closed := false |}
  end.

(** [f.seek(0, os.SEEK_END)], which answers the new position. *)
Definition file_seek_end (f : pyfile) : M (pyfile * Z) :=
  f <- file_flush f ;;
  w <- get ;;
  d <- lift (fs_read (f_path f) (fs w)) ;;
  ret ({| f_path := f_path f; f_mode := f_mode f; f_pos := List.length d;
          f_pending := []; f_closed := false |}, Z.of_nat (List.length d)).

(** [f.seek(n)] *)
Definition file_seek (f : pyfile) (n : Z) : M (pyfile * Z) :=
  f <- file_flush f ;;
  if (n <? 0)%Z then raise ValueError else
  ret ({| f_path := f_path f; f_mode := f_mode f; f_pos := Z.to_nat n;
          f_pending := []; f_closed := false |}, n).

Definition file_write (f : pyfile) (s : text) : M pyfile :=
  if f_closed f then raise ValueError else
  emit (FileWrite (f_path f) s) ;;
  ret {| f_path := f_path f; f_mode := f_mode f; f_pos := f_pos f;
         f_pending := f_pending f ++ s; f_closed := false |}.

Definition file_close (f : pyfile) : M pyfile :=
  if f_closed f then ret f else
  f <- file_flush f ;;
  ret {| f_path := f_path f; f_mode := f_mode f; f_pos := f_pos f;
         f_pending := f_pending f; f_closed := true |}.

(** ** StreamingJSONWriter *)

(** The encoder stands for [json.dumps(obj, cls=encoder)]. *)
Record StreamingJSONWriter (Obj : Type) : Type := {
  file : pyfile;
  delimeter : text;
  encoder : Obj -> text
}.

Definition close_str : text := [nl; "]"%char; nl].

Definition StreamingJSONWriter_init (Obj : Type) (filename : path) (enc : Obj -> text)
  : M (StreamingJSONWriter Obj) :=
  w <- get ;;
  if fs_exists filename (fs w) then
    f <- py_open filename ModeRPlus ;;
    ret {| file := f; delimeter := txt ","; encoder := enc |}
  else
    f <- py_open filename ModeW ;;
    ret {| file := f; delimeter := txt "["; encoder := enc |}.

Definition dump (Obj : Type) (self : StreamingJSONWriter Obj) (obj : Obj)
  : M (StreamingJSONWriter Obj) :=
  let data := encoder self obj in
  '(f, e) <- file_seek_end (file self) ;;
  '(f, _) <- file_seek f (Z.max (e - Z.of_nat (List.length close_str)) 0) ;;
  f <- file_write f (delimeter self ++ [nl] ++ txt "    " ++ data ++ close_str) ;;
  f <- file_flush f ;;
  ret {| file := f; delimeter := txt ","; encoder := encoder self |}.

Definition close (Obj : Type) (self : StreamingJSONWriter Obj)
  : M (StreamingJSONWriter Obj) :=
  f <- file_close (file self) ;;
  ret {| file := f; delimeter := delimeter self; encoder := encoder self |}.

End Effects.

(** ** JSON text of Python values ([json.dumps] with its defaults) *)

(** The values a record is made of: [None], [bool], [int], [float], [str]
    over the code points below 256, [list], and [dict] with [str] keys, as
    the list of its items in the order of insertion.  These are the values
    that are read back as they were written; a tuple is written as the list
    of its items and a key that is a number as its text, and they are left
    out. *)
Inductive json : Type :=
| JNull
| JBool (b : bool)
| JInt (z : Z)
| JFloat (x : float)
| JStr (s : string)
| JList (l : list json)
| JDict (l : list (string * json)).

Definition digit_char (d : nat) : ascii := ascii_of_nat (48 + d).

Fixpoint uint_chars (d : uint) : text :=
  match d with
  | Nil => []
  | D0 d' => digit_char 0 :: uint_chars d'
  | D1 d' => digit_char 1 :: uint_chars d'
  | D2 d' => digit_char 2 :: uint_chars d'
  | D3 d' => digit_char 3 :: uint_chars d'
  | D4 d' => digit_char 4 :: uint_chars d'
  | D5 d' => digit_char 5 :: uint_chars d'
  | D6 d' => digit_char 6 :: uint_chars d'
  | D7 d' => digit_char 7 :: uint_chars d'
  | D8 d' => digit_char 8 :: uint_chars d'
  | D9 d' => digit_char 9 :: uint_chars d'
  end.

(** [str(n)] for a natural number. *)
Definition dumps_N (n : N) : text := uint_chars (N.to_uint n).

(** [int.__repr__] *)
Definition dumps_int (z : Z) : text :=
  match z with
  | Z0 => dumps_N 0
  | Zpos p => dumps_N (Npos p)
  | Zneg p => "-"%char :: dumps_N (Npos p)
  end.

Definition hex_char (n : N) : ascii :=
  if (n <? 10)%N then ascii_of_N (48 + n) else ascii_of_N (87 + n).

(** One character of a string, as [ensure_ascii] writes it: the backslash
    and the quote are escaped, the printable ASCII characters stand for
    themselves, and the others use the short escapes or [\u00xx]. *)
Definition escape_char (c : ascii) : text :=
  let n := N_of_ascii c in
  if (n =? 34)%N then [bslash; dquote]
  else if (n =? 92)%N then [bslash; bslash]
  else if ((32 <=? n) && (n <=? 126))%N then [c]
  else if (n =? 8)%N then [bslash; "b"%char]
  else if (n =? 12)%N then [bslash; "f"%char]
  else if (n =? 10)%N then [bslash; "n"%char]
  else if (n =? 13)%N then [bslash; "r"%char]
  else if (n =? 9)%N then [bslash; "t"%char]
  else [bslash; "u"%char; "0"%char; "0"%char; hex_char (n / 16); hex_char (n mod 16)].

Definition dumps_str (s : string) : text :=
  dquote :: flat_map escape_char (list_ascii_of_string s) ++ [dquote].

(** [sep.join(items)] *)
Fixpoint join_with (sep : text) (items : list text) : text :=
  match items with
  | [] => []
  | [x] => x
  | x :: rest => x ++ sep ++ join_with sep rest
  end.

(** The items of a list or of a dict, with the default separator. *)
Definition join_items (items : list text) : text := join_with (txt ", ") items.

(** [json.dumps] of a float: [repr], but for the values JSON has no
    number for. *)
Definition dumps_float {R : Runtime} (x : float) : text :=
  if float_is_nan x then txt "NaN"
  else if PrimFloat.eqb x infinity then txt "Infinity"
  else if PrimFloat.eqb x neg_infinity then txt "-Infinity"
  else float_repr x.

Fixpoint json_dumps {R : Runtime} (v : json) : text :=
  match v with
  | JNull => txt "null"
  | JBool true => txt "true"
  | JBool false => txt "false"
  | JInt z => dumps_int z
  | JFloat x => dumps_float x
  | JStr s => dumps_str s
  | JList l => txt "[" ++ join_items (map json_dumps l) ++ txt "]"
  | JDict l =>
      txt "{" ++
      join_items (map (fun kv => dumps_str (fst kv) ++ txt ": " ++ json_dumps (snd kv)) l) ++
      txt "}"
  end.

(** The [log_dict] of the trainer as the value it is: a dict of an integer
    and four floats. *)
Definition json_of_log_dict (d : log_dict) : json :=
  JDict [("Epoch"%string, JInt (Epoch d));
         ("train_loss"%string, JFloat (train_loss d));
         ("val_loss"%string, JFloat (val_loss d));
         ("train_time"%string, JFloat (train_time d));
         ("val_time"%string, JFloat (val_time d))].

(** [json.dumps(log_dict)] *)
Definition dumps_log_dict {R : Runtime} (d : log_dict) : text :=
  txt "{" ++
  dumps_str "Epoch" ++ txt ": " ++ dumps_int (Epoch d) ++ txt ", " ++
  dumps_str "train_loss" ++ txt ": " ++ dumps_float (train_loss d) ++ txt ", " ++
  dumps_str "val_loss" ++ txt ": " ++ dumps_float (val_loss d) ++ txt ", " ++
  dumps_str "train_time" ++ txt ": " ++ dumps_float (train_time d) ++ txt ", " ++
  dumps_str "val_time" ++ txt ": " ++ dumps_float (val_time d) ++
  txt "}".

(** ["%05d" % n] *)
Definition format_05d (n : Z) : string :=
  let digits := dumps_N (Z.abs_N n) in
  let sign := if (n <? 0)%Z then ["-"%char] else [] in
  string_of_list_ascii
    (sign ++ repeat "0"%char (5 - List.length sign - List.length digits) ++ digits).

(** ** The epoch step functions *)

Section Steps.

Context {T : Torch} {R : Runtime}.

(** A batch [(g, labels, attrs)]. *)
Definition batch : Type := (graph * tensor * tensor)%type.

(** A dataloader: the batches one pass yields, and what [len] answers. *)
Record DataLoader : Type := {
  batches : list batch;
  dl_len : nat
}.

(** [model.train()] *)
Definition model_train : M unit :=
  modify (fun w => set_model {| training := true; state := state (model w) |} w).

(** [model(g, edge_feat, node_feat, attrs)]; [grad] tells whether the call
    is made with gradient tracking, that is outside [torch.no_grad()]. *)
Definition model_call (grad : bool) (g : graph) (edge_feat node_feat attrs : tensor)
  : M tensor :=
  fun w =>
    let m := model w in
    let '(pred, st) := forward (training m) grad (state m) g edge_feat node_feat attrs in
    (set_model {| training := training m; state := st |} w, Ok pred).

(** [optimizer.zero_grad()] *)
Definition optimizer_zero_grad : M unit :=
  modify (fun w =>
    let m := model w in
    set_model {| training := training m; state := zero_grad (optimizer w) (state m) |} w).

(** [loss.backward()] *)
Definition loss_backward (loss : tensor) : M unit :=
  modify (fun w =>
    let m := model w in
    set_model {| training := training m; state := backward loss (state m) |} w).

(** [optimizer.step()] *)
Definition optimizer_step : M unit :=
  modify (fun w =>
    let m := model w in
    let '(o, st) := optim_step (optimizer w) (state m) in
    set_optimizer o (set_model {| training := training m; state := st |} w)).

(** [scheduler.step()] *)
Definition scheduler_step : M unit :=
  modify (fun w =>
    let '(s, o) := sched_step (scheduler w) (optimizer w) in
    set_scheduler s (set_optimizer o w)).

(** The body of the loop of [train_one_step]; answers the loss of the batch. *)
Definition train_batch (loss_function : tensor -> tensor -> tensor)
  (data_std data_mean : tensor) (b : batch) : M tensor :=
  let '(g, labels, attrs) := b in
  optimizer_zero_grad ;;
  let node_feat := ndata g "node_type" in
  let edge_feat := edata g "edge_attr" in
  pred <- model_call true g (to_float edge_feat) (to_long node_feat) attrs ;;
  let pred := squeeze pred in
  let loss := loss_function pred (tdiv (tsub labels data_mean) data_std) in
  loss_backward loss ;;
  optimizer_step ;;
  ret loss.

(** The loop runs over [tqdm(dataloader)]: the bar is made, over the length
    of the dataloader, when the loop is entered; an item is done when the
    loop asks for the next one, the body having run; and the bar is closed
    when the dataloader has no more. *)
Definition train_one_step (loss_function : tensor -> tensor -> tensor)
  (data_std data_mean : tensor) (dataloader : DataLoader) : M (float * float) :=
  model_train ;;
  let avg_loss := zeros1 in
  start <- default_timer ;;
  tqdm_tell (BarOpened (dl_len dataloader)) ;;
  avg_loss <- for_each (batches dataloader)
                (fun avg_loss b =>
                   loss <- train_batch loss_function data_std data_mean b ;;
                   let avg_loss := tadd avg_loss (detach loss) in
                   tqdm_tell BarAdvanced ;;
                   ret avg_loss)
                avg_loss ;;
  tqdm_tell BarClosed ;;
  stop <- default_timer ;;
  avg_loss <- lift (py_truediv (item (cpu avg_loss)) (dl_len dataloader)) ;;
  let epoch_time := PrimFloat.sub stop start in
  ret (avg_loss, epoch_time).

(** The body of the loop of [validate_one_step]; answers the loss of the
    batch. *)
Definition validate_batch (loss_function : tensor -> tensor -> tensor)
  (data_std data_mean : tensor) (b : batch) : M tensor :=
  let '(g, labels, attrs) := b in
  let node_feat := ndata g "node_type" in
  let edge_feat := edata g "edge_attr" in
  pred <- model_call false g (to_float edge_feat) (to_long node_feat) attrs ;;
  let pred := squeeze pred in
  let loss := loss_function (tadd data_mean (tmul pred data_std)) labels in
  ret loss.

Definition validate_one_step (loss_function : tensor -> tensor -> tensor)
  (data_std data_mean : tensor) (dataloader : DataLoader) : M (float * float) :=
  let avg_loss := zeros1 in
  start <- default_timer ;;
  avg_loss <- for_each (batches dataloader)
                (fun avg_loss b =>
                   loss <- validate_batch loss_function data_std data_mean b ;;
                   ret (tadd avg_loss loss))
                avg_loss ;;
  stop <- default_timer ;;
  avg_loss <- lift (py_truediv (item (cpu avg_loss)) (dl_len dataloader)) ;;
  let epoch_time := PrimFloat.sub stop start in
  ret (avg_loss, epoch_time).

(** ** MEGNetTrainer.train *)

Definition outpath : path := ["BestModel"%string].

Definition checkpath : path := ["CheckPoints"%string].

(** The name of the checkpoint file of an epoch. *)
Definition checkpoint_name (epoch : Z) (val_loss : float) : string :=
  (format_05d (epoch + 1) ++ "-" ++ format_6_5f val_loss ++ ".pt")%string.

(** Lines 149 to 158: the two directories are emptied, or made. *)
Definition reset_dirs : M unit :=
  w <- get ;;
  (if fs_exists outpath (fs w) then on_fs (fs_rmtree outpath) else ret tt) ;;
  on_fs (fs_mkdir outpath) ;;
  w <- get ;;
  (if fs_exists checkpath (fs w) then on_fs (fs_rmtree checkpath) else ret tt) ;;
  on_fs (fs_mkdir checkpath).

(** The variables the epoch loop carries: the log writer and the best
    validation loss so far. *)
Definition loop_vars : Type := (StreamingJSONWriter log_dict * float)%type.

(** The body of the epoch loop. *)
Definition train_epoch (train_loss_func val_loss_func : tensor -> tensor -> tensor)
  (data_std data_mean : tensor) (train_loader val_loader : DataLoader)
  (vars : loop_vars) (epoch : Z) : M loop_vars :=
  let '(jsonlog, best_val_loss) := vars in
  '(train_loss, train_time) <-
    train_one_step train_loss_func data_std data_mean train_loader ;;
  '(val_loss, val_time) <-
    validate_one_step val_loss_func data_std data_mean val_loader ;;
  scheduler_step ;;
  logger_info (EpochSummary (epoch + 1) train_loss val_loss train_time val_time) ;;
  if float_lt val_loss best_val_loss then
    w <- get ;;
    torch_save
      (Checkpoint (epoch + 1)
         (as_dict (training (model w)) (state (model w)))
         (optim_state_dict (optimizer w))
         (sched_state_dict (scheduler w))
         val_loss)
      (checkpath ++ [checkpoint_name epoch val_loss]) ;;
    let log_dict :=
      {| Epoch := epoch + 1; train_loss := train_loss; val_loss := val_loss;
         train_time := train_time; val_time := val_time |} in
    jsonlog <- dump jsonlog log_dict ;;
    let best_val_loss := val_loss in
    w <- get ;;
    torch_save (BestModel (as_dict (training (model w)) (state (model w))))
      (outpath ++ ["best-model.pt"%string]) ;;
    ret (jsonlog, best_val_loss)
  else
    ret (jsonlog, best_val_loss).

(** The epoch loop over a list of epochs. *)
Definition train_epochs (train_loss_func val_loss_func : tensor -> tensor -> tensor)
  (data_std data_mean : tensor) (train_loader val_loader : DataLoader)
  (epochs : list Z) (vars : loop_vars) : M loop_vars :=
  for_each epochs
    (train_epoch train_loss_func val_loss_func data_std data_mean train_loader val_loader)
    vars.

(** The start value of [best_val_loss]. *)
Definition initial_best_val_loss : float := 1000%float.

(** Lines 159 to 203: the log is opened, the epochs run, the log is
    closed. *)
Definition train_session (num_epochs : Z)
  (train_loss_func val_loss_func : tensor -> tensor -> tensor)
  (data_std data_mean : tensor) (train_loader val_loader : DataLoader)
  (logger_name : path) : M unit :=
  jsonlog <- StreamingJSONWriter_init logger_name dumps_log_dict ;;
  logger_info TrainingStarted ;;
  let best_val_loss := initial_best_val_loss in
  '(jsonlog, best_val_loss) <-
    train_epochs train_loss_func val_loss_func data_std data_mean
      train_loader val_loader (py_range num_epochs) (jsonlog, best_val_loss) ;;
  close jsonlog ;;
  logger_info TrainingFinished.

Definition train (num_epochs : Z)
  (train_loss_func val_loss_func : tensor -> tensor -> tensor)
  (data_std data_mean : tensor) (train_loader val_loader : DataLoader)
  (logger_name : path) : M unit :=
  reset_dirs ;;
  train_session num_epochs train_loss_func val_loss_func data_std data_mean
    train_loader val_loader logger_name.

End Steps.

(** ** Reading JSON text back ([json.loads]) *)

Definition is_ws (c : ascii) : bool :=
  let n := N_of_ascii c in
  ((n =? 32) || (n =? 9) || (n =? 10) || (n =? 13))%N.

Fixpoint skip_ws (s : text) : text :=
  match s with
  | [] => []
  | c :: r => if is_ws c then skip_ws r else s
  end.

Definition char_digit (c : ascii) : option (uint -> uint) :=
  match N_of_ascii c with
  | 48%N => Some D0
  | 49%N => Some D1
  | 50%N => Some D2
  | 51%N => Some D3
  | 52%N => Some D4
  | 53%N => Some D5
  | 54%N => Some D6
  | 55%N => Some D7
  | 56%N => Some D8
  | 57%N => Some D9
  | _ => None
  end.

(** The longest run of digits at the head of [s]. *)
Fixpoint scan_digits (s : text) : uint * text :=
  match s with
  | [] => (Nil, [])
  | c :: r =>
      match char_digit c with
      | Some D => let '(d, r') := scan_digits r in (D d, r')
      | None => (Nil, s)
      end
  end.

(** A number is read as the scanner of [json] reads it, by its pattern
    [NUMBER_RE]: an integer part, then a fraction if there is one, then an
    exponent if there is one, each as long as it can be. *)

(** A single zero, or a run of digits that does not start with zero. *)
Definition scan_unsigned (s : text) : option (uint * text) :=
  match s with
  | [] => None
  | c :: r =>
      if Ascii.eqb c "0" then Some (D0 Nil, r)
      else
        match char_digit c with
        | None => None
        | Some _ => Some (scan_digits s)
        end
  end.

(** The integer part: whether there is a minus sign, and the digits. *)
Definition scan_integer (s : text) : option (bool * uint * text) :=
  match s with
  | [] => None
  | c :: r =>
      if Ascii.eqb c "-" then
        match scan_unsigned r with
        | Some (d, r') => Some (true, d, r')
        | None => None
        end
      else
        match scan_unsigned s with
        | Some (d, r') => Some (false, d, r')
        | None => None
        end
  end.

(** The fraction: a point and a digit at least, or nothing. *)
Definition scan_fraction (s : text) : option uint * text :=
  match s with
  | [] => (None, s)
  | c :: r =>
      if Ascii.eqb c "." then
        match scan_digits r with
        | (Nil, _) => (None, s)
        | (d, r') => (Some d, r')
        end
      else (None, s)
  end.

Definition scan_sign (s : text) : bool * text :=
  match s with
  | [] => (false, s)
  | c :: r =>
      if Ascii.eqb c "-" then (true, r)
      else if Ascii.eqb c "+" then (false, r)
      else (false, s)
  end.

(** The exponent: [e] or [E], a sign maybe, and a digit at least, or
    nothing. *)
Definition scan_exponent (s : text) : option (bool * uint) * text :=
  match s with
  | [] => (None, s)
  | c :: r =>
      if Ascii.eqb c "e" || Ascii.eqb c "E" then
        let '(neg, r1) := scan_sign r in
        match scan_digits r1 with
        | (Nil, _) => (None, s)
        | (d, r') => (Some (neg, d), r')
        end
      else (None, s)
  end.

(** The float nearest to [m * 10 ^ e], with the sign [neg]: the rounding is
    to the nearest float, to the even one of two that are as near; what is
    too large is an infinity, what is too small a zero. *)
Definition float_of_decimal (neg : bool) (m : N) (e : Z) : float :=
  match m with
  | N0 => if neg then PrimFloat.neg_zero else PrimFloat.zero
  | Npos p =>
      SF2Prim
        (match e with
         | Zneg k =>
             let '(mz, ez, lz) :=
               SFdiv_core_binary prec emax (Zpos p) 0 (Zpos (Pos.pow 10 k)) 0 in
             binary_round_aux prec emax neg mz ez lz
         | _ => binary_round prec emax neg (Pos.mul p (Z.to_pos (10 ^ e))) 0
         end)
  end.

(** [float(s)] for the text [s] of a number with a fraction or an
    exponent, given by its parts. *)
Definition float_of_literal (neg : bool) (int_part : uint) (frac : option uint)
  (exp : option (bool * uint)) : float :=
  let f := match frac with Some d => d | None => Nil end in
  let x :=
    match exp with
    | Some (true, d) => Z.opp (Z.of_N (N.of_uint d))
    | Some (false, d) => Z.of_N (N.of_uint d)
    | None => 0%Z
    end in
  float_of_decimal neg (N.of_uint (Decimal.app int_part f))
    (x - Z.of_nat (nb_digits f)).

(** A number: an [int] when it has neither fraction nor exponent, a [float]
    when it has one. *)
Definition parse_number (s : text) : option (json * text) :=
  match scan_integer s with
  | None => None
  | Some (neg, d, r) =>
      let '(frac, r1) := scan_fraction r in
      let '(exp, r2) := scan_exponent r1 in
      match frac, exp with
      | None, None =>
          let n := Z.of_N (N.of_uint d) in
          Some (JInt (if neg then Z.opp n else n), r2)
      | _, _ => Some (JFloat (float_of_literal neg d frac exp), r2)
      end
  end.

Definition hex_val (c : ascii) : option N :=
  let n := N_of_ascii c in
  if ((48 <=? n) && (n <=? 57))%N then Some (n - 48)%N
  else if ((97 <=? n) && (n <=? 102))%N then Some (n - 87)%N
  else if ((65 <=? n) && (n <=? 70))%N then Some (n - 55)%N
  else None.

Definition unescape (c : ascii) : option ascii :=
  let n := N_of_ascii c in
  if (n =? 34)%N then Some dquote
  else if (n =? 92)%N then Some bslash
  else if (n =? 47)%N then Some "/"%char
  else if (n =? 98)%N then Some "008"%char
  else if (n =? 102)%N then Some "012"%char
  else if (n =? 110)%N then Some "010"%char
  else if (n =? 114)%N then Some "013"%char
  else if (n =? 116)%N then Some "009"%char
  else None.

(** The characters of a string up to its closing quote.  A [\u] escape
    above 255 names a character these strings do not have. *)
Fixpoint parse_chars (s : text) : option (text * text) :=
  match s with
  | [] => None
  | c :: r =>
      if Ascii.eqb c dquote then Some ([], r)
      else if Ascii.eqb c bslash then
        match r with
        | [] => None
        | e :: r1 =>
            if Ascii.eqb e "u" then
              match r1 with
              | h1 :: h2 :: h3 :: h4 :: r2 =>
                  match hex_val h1, hex_val h2, hex_val h3, hex_val h4 with
                  | Some a, Some b, Some c3, Some d =>
                      let n := (((a * 16 + b) * 16 + c3) * 16 + d)%N in
                      if (n <? 256)%N then
                        match parse_chars r2 with
                        | Some (cs, r') => Some (ascii_of_N n :: cs, r')
                        | None => None
                        end
                      else None
                  | _, _, _, _ => None
                  end
              | _ => None
              end
            else
              match unescape e with
              | Some c' =>
                  match parse_chars r1 with
                  | Some (cs, r') => Some (c' :: cs, r')
                  | None => None
                  end
              | None => None
              end
        end
      else if (N_of_ascii c <? 32)%N then None
      else
        match parse_chars r with
        | Some (cs, r') => Some (c :: cs, r')
        | None => None
        end
  end.

Fixpoint strip_prefix (p s : text) : option text :=
  match p, s with
  | [], _ => Some s
  | a :: p', b :: s' => if Ascii.eqb a b then strip_prefix p' s' else None
  | _ :: _, [] => None
  end.

(** The three names [json] has for the floats that are no numbers. *)
Definition parse_constant (s : text) : option (json * text) :=
  match strip_prefix (txt "NaN") s with
  | Some r => Some (JFloat nan, r)
  | None =>
      match strip_prefix (txt "Infinity") s with
      | Some r => Some (JFloat infinity, r)
      | None =>
          match strip_prefix (txt "-Infinity") s with
          | Some r => Some (JFloat neg_infinity, r)
          | None => None
          end
      end
  end.

(** One value at the head of [s], [s] having no white space in front.  The
    fuel bounds the nesting and the number of elements; the length of the
    text is enough. *)
Fixpoint parse_value (fuel : nat) (s : text) {struct fuel} : option (json * text) :=
  match fuel with
  | O => None
  | S fuel =>
      match s with
      | [] => None
      | c :: r =>
          if Ascii.eqb c dquote then
            match parse_chars r with
            | Some (cs, r') => Some (JStr (string_of_list_ascii cs), r')
            | None => None
            end
          else if Ascii.eqb c "[" then
            match skip_ws r with
            | c' :: r' =>
                if Ascii.eqb c' "]" then Some (JList [], r')
                else
                  match parse_elements fuel (c' :: r') with
                  | Some (vs, r'') => Some (JList vs, r'')
                  | None => None
                  end
            | [] => None
            end
          else if Ascii.eqb c "{" then
            match skip_ws r with
            | c' :: r' =>
                if Ascii.eqb c' "}" then Some (JDict [], r')
                else
                  match parse_members fuel (c' :: r') with
                  | Some (kvs, r'') => Some (JDict kvs, r'')
                  | None => None
                  end
            | [] => None
            end
          else if Ascii.eqb c "n" then
            match strip_prefix (txt "null") s with
            | Some r' => Some (JNull, r')
            | None => None
            end
          else if Ascii.eqb c "t" then
            match strip_prefix (txt "true") s with
            | Some r' => Some (JBool true, r')
            | None => None
            end
          else if Ascii.eqb c "f" then
            match strip_prefix (txt "false") s with
            | Some r' => Some (JBool false, r')
            | None => None
            end
          else
            match parse_number s with
            | Some x => Some x
            | None => parse_constant s
            end
      end
  end

with parse_elements (fuel : nat) (s : text) {struct fuel} : option (list json * text) :=
  match fuel with
  | O => None
  | S fuel =>
      match parse_value fuel s with
      | None => None
      | Some (v, r) =>
          match skip_ws r with
          | c :: r' =>
              if Ascii.eqb c "]" then Some ([v], r')
              else if Ascii.eqb c "," then
                match parse_elements fuel (skip_ws r') with
                | Some (vs, r'') => Some (v :: vs, r'')
                | None => None
                end
              else None
          | [] => None
          end
      end
  end

with parse_members (fuel : nat) (s : text) {struct fuel}
  : option (list (string * json) * text) :=
  match fuel with
  | O => None
  | S fuel =>
      match s with
      | [] => None
      | q :: r0 =>
          if Ascii.eqb q dquote then
            match parse_chars r0 with
            | None => None
            | Some (k, r1) =>
                match skip_ws r1 with
                | c1 :: r2 =>
                    if Ascii.eqb c1 ":" then
                      match parse_value fuel (skip_ws r2) with
                      | None => None
                      | Some (v, r3) =>
                          match skip_ws r3 with
                          | c :: r' =>
                              if Ascii.eqb c "}" then
                                Some ([(string_of_list_ascii k, v)], r')
                              else if Ascii.eqb c "," then
                                match parse_members fuel (skip_ws r') with
                                | Some (kvs, r'') =>
                                    Some ((string_of_list_ascii k, v) :: kvs, r'')
                                | None => None
                                end
                              else None
                          | [] => None
                          end
                      end
                    else None
                | [] => None
                end
            end
          else None
      end
  end.

(** A whole document: one value, white space around it, nothing else. *)
Definition json_loads (s : text) : option json :=
  let s := skip_ws s in
  match parse_value (S (List.length s)) s with
  | Some (v, r) =>
      match skip_ws r with
      | [] => Some v
      | _ :: _ => None
      end
  | None => None
  end.

(** ** Observations of a run and the notions of the specification *)

(** The text of a log holding the records [ds], already serialised, one on
    a line: what a reader of the file expects for a non-empty log. *)
Definition log_lines (ds : list text) : text :=
  join_with (txt "," ++ [nl] ++ txt "    ") ds.

Definition log_text (ds : list text) : text :=
  txt "[" ++ [nl] ++ txt "    " ++ log_lines ds ++ close_str.

(** What one call of [dump] hands to [write]. *)
Definition dump_text (delim data : text) : text :=
  delim ++ [nl] ++ txt "    " ++ data ++ close_str.

Section Sessions.

Context {T : Torch}.

(** A sequence of [dump] calls on one writer. *)
Definition dump_all (Obj : Type) (self : StreamingJSONWriter Obj) (objs : list Obj)
  : M (StreamingJSONWriter Obj) :=
  for_each objs (fun self obj => dump self obj) self.

(** A session that is still open: the writer is made and the records are
    appended. *)
Definition open_session (Obj : Type) (filename : path) (enc : Obj -> text)
  (objs : list Obj) : M (StreamingJSONWriter Obj) :=
  self <- StreamingJSONWriter_init filename enc ;;
  dump_all self objs.

(** A whole session, from the making of the writer to [close]. *)
Definition session (Obj : Type) (filename : path) (enc : Obj -> text)
  (objs : list Obj) : M unit :=
  self <- open_session filename enc objs ;;
  close self ;;
  ret tt.


(** The rows the logger was told, one for each epoch that was evaluated. *)
Fixpoint epoch_rows (t : list event) : list log_dict :=
  match t with
  | [] => []
  | LoggerInfo (EpochSummary e tl vl ttime vtime) :: t' =>
      {| Epoch := e; train_loss := tl; val_loss := vl;
         train_time := ttime; val_time := vtime |} :: epoch_rows t'
  | _ :: t' => epoch_rows t'
  end.

(** The checkpoints that were saved: epoch, loss and file. *)
Fixpoint saved_checkpoints (t : list event) : list (Z * float * path) :=
  match t with
  | [] => []
  | TorchSave (Checkpoint e _ _ _ l) f :: t' => (e, l, f) :: saved_checkpoints t'
  | _ :: t' => saved_checkpoints t'
  end.

(** The texts that were written to files. *)
Fixpoint file_writes (t : list event) : list (path * text) :=
  match t with
  | [] => []
  | FileWrite f s :: t' => (f, s) :: file_writes t'
  | _ :: t' => file_writes t'
  end.

End Sessions.

(** A validation loss [v] improves on the losses [prior] of the epochs
    before it when it is below the start value 1000.0 and below each of
    them that is a number. *)
Definition improves (prior : list float) (v : float) : bool :=
  float_lt v initial_best_val_loss &&
  forallb (fun p => float_lt v p || float_is_nan p) prior.

(** The rows of the epochs that improve, [prior] being the losses of the
    epochs before the first row. *)
Fixpoint improving (prior : list float) (rows : list log_dict) : list log_dict :=
  match rows with
  | [] => []
  | r :: rows' =>
      (if improves prior (val_loss r) then [r] else []) ++
      improving (prior ++ [val_loss r]) rows'
  end.

(** The wording of the specification: strictly below every loss before
    it. *)
Definition below_all_prior (prior : list float) (v : float) : bool :=
  forallb (fun p => float_lt v p) prior.

(** ** A framework of scalars, to run the definitions *)

(** Tensors are floats, the model has one weight and its gradient, and a
    batch is identified with its input.  The loss functions are chosen by
    the caller. *)
Definition scalar_torch : Torch := {|
  tensor := float;
  graph := float;
  weights := float * float;
  optim := float;
  sched := nat;
  blob := float;
  ndata := fun g _ => g;
  edata := fun g _ => g;
  to_float := fun x => x;
  to_long := fun x => x;
  forward := fun _ _ wt _ _ _ attrs => (PrimFloat.mul (fst wt) attrs, wt);
  squeeze := fun x => x;
  zeros1 := 0%float;
  tadd := PrimFloat.add;
  tsub := PrimFloat.sub;
  tmul := PrimFloat.mul;
  tdiv := PrimFloat.div;
  detach := fun x => x;
  cpu := fun x => x;
  item := fun x => x;
  zero_grad := fun _ wt => (fst wt, 0%float);
  backward := fun loss wt => (fst wt, PrimFloat.add (snd wt) loss);
  optim_step := fun lr wt => (lr, (PrimFloat.sub (fst wt) (PrimFloat.mul lr (snd wt)), snd wt));
  sched_step := fun s o => (S s, o);
  as_dict := fun _ wt => fst wt;
  optim_state_dict := fun o => o;
  sched_state_dict := fun s => float_of_len s;
  pickle := fun _ => txt "pt"
|}.

(** A runtime whose clock ticks once a reading and whose float formats are
    place holders. *)
Definition ticking_runtime : Runtime := {|
  clock := float_of_len;
  float_repr := fun _ => txt "0.0";
  format_6_5f := fun _ => "0.00000"%string
|}.

Fixpoint drop_zeros (t : text) : text :=
  match t with
  | [] => []
  | c :: r => if Ascii.eqb c "0" then drop_zeros r else t
  end.

(** The decimal expansion of a float, in full: what [repr] writes for the
    floats of few digits, [0.5] or [1.625] or [3.0], and a longer text that
    names the same float for the others. *)
Definition decimal_of_float (x : float) : text :=
  match Prim2SF x with
  | S754_nan => txt "nan"
  | S754_infinity s => if s then txt "-inf" else txt "inf"
  | S754_zero s => if s then txt "-0.0" else txt "0.0"
  | S754_finite s m e =>
      (if s then txt "-" else []) ++
      match e with
      | Zneg k =>
          let digits := dumps_N (Npos (m * 5 ^ k)) in
          let k := Pos.to_nat k in
          let padded := repeat "0"%char (S k - List.length digits) ++ digits in
          let n := List.length padded - k in
          let frac := List.rev (drop_zeros (List.rev (skipn n padded))) in
          firstn n padded ++ txt "." ++
          match frac with [] => txt "0" | _ :: _ => frac end
      | _ => dumps_N (Z.to_N (Zpos m * 2 ^ e)) ++ txt ".0"
      end
  end.

(** A runtime whose clock ticks once a reading and whose [repr] is the
    decimal expansion. *)
Definition decimal_runtime : Runtime := {|
  clock := float_of_len;
  float_repr := decimal_of_float;
  format_6_5f := fun _ => "0.00000"%string
|}.

(** The absolute error. *)
Definition l1_loss (x y : float) : float := PrimFloat.abs (PrimFloat.sub x y).

(** A world of scalars that starts from the weight [p] and the learning
    rate [lr]. *)
Definition scalar_world_at (p lr : float) (n : node) : @World scalar_torch :=
  @Build_World scalar_torch (@Build_Module scalar_torch false (p, 0%float)) lr O n O [] [].

(** A dataloader of scalars: a batch for each pair of an input and a
    label. *)
Definition scalar_loader (l : list (float * float)) : @DataLoader scalar_torch :=
  @Build_DataLoader scalar_torch
    (map (fun xy => (fst xy, snd xy, fst xy)) l) (List.length l).

(** The world the examples start from: weight 1, learning rate 0.5. *)
Definition scalar_world (n : node) : @World scalar_torch :=
  scalar_world_at 1 0.5 n.

(** ** The losses of a pass *)

Section Passes.

Context {T : Torch} {R : Runtime}.

(** The losses met by a pass over [bs] that starts in [w], [step] being
    the body of the loop. *)
Fixpoint losses_of (step : batch -> M tensor) (bs : list batch) (w : World)
  : list tensor :=
  match bs with
  | [] => []
  | b :: bs' =>
      match step b w with
      | (w', Ok l) => l :: losses_of step bs' w'
      | (_, Raise _) => []
      end
  end.

(** The losses of the batches in a call of [train_one_step], as they are
    added up. *)
Definition train_batch_losses (loss_function : tensor -> tensor -> tensor)
  (data_std data_mean : tensor) (dataloader : DataLoader) (w : World) : list tensor :=
  map detach
    (losses_of (train_batch loss_function data_std data_mean) (batches dataloader)
       (fst ((model_train ;; default_timer) w))).

(** The losses of the batches in a call of [validate_one_step]. *)
Definition validate_batch_losses (loss_function : tensor -> tensor -> tensor)
  (data_std data_mean : tensor) (dataloader : DataLoader) (w : World) : list tensor :=
  losses_of (validate_batch loss_function data_std data_mean) (batches dataloader)
    (fst (default_timer w)).

(** The sum of the losses, taken from zero in the order of the batches and
    in the arithmetic of the tensors, over the number of batches. *)
Definition mean_loss (losses : list tensor) (K : nat) : float :=
  PrimFloat.div (item (cpu (fold_left tadd losses zeros1))) (float_of_len K).

(** The words of the specification for the two scales: the label brought
    to the scale of the predictions, and the prediction brought back to the
    scale of the labels. *)
Definition normalized_target (labels data_mean data_std : tensor) : tensor :=
  tdiv (tsub labels data_mean) data_std.

Definition denormalized_prediction (pred data_mean data_std : tensor) : tensor :=
  tadd data_mean (tmul pred data_std).

(** The losses of a pass of training as the specification words them, from
    the weights and the optimizer the pass starts with: for each batch the
    gradients are cleared, the model is called in training mode, the
    squeezed prediction is compared with the normalised label, and the loss
    is propagated back before the optimizer steps. *)
Fixpoint spec_training_losses (loss_function : tensor -> tensor -> tensor)
  (data_std data_mean : tensor) (bs : list batch) (wt : weights) (o : optim)
  : list tensor :=
  match bs with
  | [] => []
  | (g, labels, attrs) :: bs' =>
      let called :=
        forward true true (zero_grad o wt) g
          (to_float (edata g "edge_attr")) (to_long (ndata g "node_type")) attrs in
      let loss :=
        loss_function (squeeze (fst called))
          (normalized_target labels data_mean data_std) in
      let stepped := optim_step o (backward loss (snd called)) in
      loss :: spec_training_losses loss_function data_std data_mean bs'
                (snd stepped) (fst stepped)
  end.

(** The losses of a pass of validation as the specification words them,
    from the mode flag and the weights the pass starts with: for each batch
    the model is called without gradients, and the prediction brought back
    to the scale of the labels is compared with the label. *)
Fixpoint spec_validation_losses (loss_function : tensor -> tensor -> tensor)
  (data_std data_mean : tensor) (bs : list batch) (mode : bool) (wt : weights)
  : list tensor :=
  match bs with
  | [] => []
  | (g, labels, attrs) :: bs' =>
      let called :=
        forward mode false wt g
          (to_float (edata g "edge_attr")) (to_long (ndata g "node_type")) attrs in
      loss_function (denormalized_prediction (squeeze (fst called)) data_mean data_std)
        labels
      :: spec_validation_losses loss_function data_std data_mean bs' mode (snd called)
  end.

(** What the steps leave alone. *)
Definition same_outside (w w' : World) : Prop :=
  fs w' = fs w /\ timer_reads w' = timer_reads w /\ trace w' = trace w /\
  scheduler w' = scheduler w /\ training (model w') = training (model w).

(** Two worlds that differ in what [tqdm] was told at most. *)
Definition same_but_bars (w w' : World) : Prop :=
  model w' = model w /\ optimizer w' = optimizer w /\ scheduler w' = scheduler w /\
  fs w' = fs w /\ timer_reads w' = timer_reads w /\ trace w' = trace w.

End Passes.

(** ** Notions the proofs use *)

(** The rest of the text after a run of digits must not go on with a
    digit. *)
Definition no_digit_head (s : text) : Prop :=
  match s with
  | [] => True
  | c :: _ => char_digit c = None
  end.

(** A character a number could go on with. *)
Definition number_char (c : ascii) : bool :=
  match char_digit c with
  | Some _ => true
  | None =>
      Ascii.eqb c "." || Ascii.eqb c "e" || Ascii.eqb c "E" ||
      Ascii.eqb c "+" || Ascii.eqb c "-"
  end.

(** The rest of the text after a number must not go on with such a
    character. *)
Definition number_end (s : text) : Prop :=
  match s with
  | [] => True
  | c :: _ => number_char c = false
  end.

(** The first character of a number or of a name of a float. *)
Definition scalar_head (c : ascii) : bool :=
  negb (Ascii.eqb c dquote) && negb (Ascii.eqb c "[") && negb (Ascii.eqb c "{") &&
  negb (Ascii.eqb c "n") && negb (Ascii.eqb c "t") && negb (Ascii.eqb c "f").

(** The floats a value holds. *)
Fixpoint floats_of (v : json) : list float :=
  match v with
  | JFloat x => [x]
  | JList l => flat_map floats_of l
  | JDict l => flat_map (fun kv => floats_of (snd kv)) l
  | _ => []
  end.

(** What is asked of [repr] for a float [x] that is a number: its text is
    the text of a number with a fraction or an exponent, and [float] reads
    [x] back from it. *)
Definition float_reads_back {R : Runtime} (x : float) : Prop :=
  float_is_nan x = false -> PrimFloat.eqb x infinity = false ->
  PrimFloat.eqb x neg_infinity = false ->
  parse_number (float_repr x) = Some (JFloat x, []).

(** The first character of a value is no white space and closes nothing. *)
Definition value_head (c : ascii) : bool :=
  negb (is_ws c) && negb (Ascii.eqb c "]") && negb (Ascii.eqb c "}").

(** What the round trip of a value says; the fuel is enough when it covers
    the length of the text. *)
Definition reads_back {R : Runtime} (v : json) : Prop :=
  forall fuel rest,
    List.length (json_dumps v) <= fuel -> number_end rest ->
    parse_value fuel (json_dumps v ++ rest) = Some (v, rest).


Section ProofNotions.

Context {T : Torch}.

(** A computation that leaves a part of the world as it is. *)
Definition keeps (A B : Type) (proj : World -> B) (m : M A) : Prop :=
  forall w, proj (fst (m w)) = proj w.

(** A writer in use on [filename]. *)
Definition writer_on (Obj : Type) (filename : path) (enc : Obj -> text)
  (self : StreamingJSONWriter Obj) : Prop :=
  f_path (file self) = filename /\ f_closed (file self) = false /\
  f_pending (file self) = [] /\ encoder self = enc.

(** The path of a log: either nothing is there, in a directory that is, or
    the text of a log with records is. *)
Definition log_on_disk (filename : path) (ds : list text) (n : node) : Prop :=
  (ds = [] /\ exists dir name es,
      filename = dir ++ [name] /\ fs_lookup dir n = Some (Dir es) /\
      assoc_get name es = None) \/
  (ds <> [] /\ fs_read filename n = Ok (log_text ds)).


End ProofNotions.

Section Observations.

Context {T : Torch} {R : Runtime}.

(** What the trace shows of the checkpoint of a row: its epoch, its loss
    and the file it goes to. *)
Definition checkpoint_of (r : log_dict) : Z * float * path :=
  (Epoch r, val_loss r, checkpath ++ [checkpoint_name (Epoch r - 1) (val_loss r)]).

(** A write to the log that carries the row [r]: some separator, then the
    record on its line and the closing sequence. *)
Definition is_log_write (logger_name : path) (fw : path * text) (r : log_dict) : Prop :=
  fst fw = logger_name /\ exists delim, snd fw = dump_text delim (dumps_log_dict r).

(** The best validation loss and the losses of the epochs so far agree:
    the best is a number, and to be below it is to improve on them. *)
Definition best_tracks (prior : list float) (best : float) : Prop :=
  float_is_nan best = false /\
  forall x, float_lt x best = improves prior x.

End Observations.

(** ** What a run tells and what it saves *)

(** The line of an epoch, as the logger is given it. *)
Definition summary_of (r : log_dict) : log_msg :=
  EpochSummary (Epoch r) (train_loss r) (val_loss r) (train_time r) (val_time r).

Section RunObservations.

Context {T : Torch}.

(** What the logger was told, in order. *)
Fixpoint logger_msgs (t : list event) : list log_msg :=
  match t with
  | [] => []
  | LoggerInfo msg :: t' => msg :: logger_msgs t'
  | _ :: t' => logger_msgs t'
  end.

(** What the checkpoints hold: the dicts of the model, of the optimizer and
    of the scheduler. *)
Fixpoint checkpoint_states (t : list event) : list (blob * blob * blob) :=
  match t with
  | [] => []
  | TorchSave (Checkpoint _ m o s _) _ :: t' => (m, o, s) :: checkpoint_states t'
  | _ :: t' => checkpoint_states t'
  end.

(** The model dicts saved as the best model, with the file of each. *)
Fixpoint best_models (t : list event) : list (blob * path) :=
  match t with
  | [] => []
  | TorchSave (BestModel m) f :: t' => (m, f) :: best_models t'
  | _ :: t' => best_models t'
  end.

(** All that was saved, with the file of each. *)
Fixpoint saves (t : list event) : list (path * saved blob) :=
  match t with
  | [] => []
  | TorchSave obj f :: t' => (f, obj) :: saves t'
  | _ :: t' => saves t'
  end.

(** What was saved last to the file [f], if anything was. *)
Definition last_saved (f : path) (t : list event) : option (saved blob) :=
  match List.find (fun s => if list_eq_dec string_dec (fst s) f then true else false)
          (List.rev (saves t)) with
  | Some s => Some (snd s)
  | None => None
  end.

(** A directory that holds what was saved to it in the events [t], and
    nothing else: each file the last object saved under its name. *)
Definition holds_saves (dir : path) (t : list event) (n : node) : Prop :=
  forall name,
    fs_lookup (dir ++ [name]) n
    = match last_saved (dir ++ [name]) t with
      | Some obj => Some (File (pickle obj))
      | None => None
      end.

(** The three objects of the trainer. *)
Definition trainer_objects (w : World) : Module * optim * sched :=
  (model w, optimizer w, scheduler w).

End RunObservations.

(** The text of a log file that holds the records [recs]: nothing when
    there is none. *)
Definition log_file_text (recs : list text) : text :=
  match recs with
  | [] => []
  | _ :: _ => log_text recs
  end.

(** The text of a log file whose first record went in after [head]
    instead of the opening bracket. *)
Definition log_file_text_from (head : text) (recs : list text) : text :=
  match recs with
  | [] => []
  | _ :: _ => head ++ [nl] ++ txt "    " ++ log_lines recs ++ close_str
  end.

(** ** The state of a run, for the proofs *)

(** The file of a log and the separator of a writer on it, when the first
    separator is [head]: [log_state] is the case of the opening bracket. *)
Definition log_state_from (head : text) (ds : list text) (c delim : text) : Prop :=
  (ds = [] /\ c = [] /\ delim = head) \/
  (ds <> [] /\ c = head ++ [nl] ++ txt "    " ++ log_lines ds ++ close_str /\
   delim = txt ",").

(** The path of a log before a run: either as [log_on_disk] has it, and the
    first separator will be the bracket, or an empty file, and it will be a
    comma. *)
Definition log_on_disk_from (head : text) (filename : path) (ds : list text) (n : node)
  : Prop :=
  (head = txt "[" /\ log_on_disk filename ds n) \/
  (head = txt "," /\ ds = [] /\ fs_read filename n = Ok []).

Section RunState.

Context {T : Torch} {R : Runtime}.

(** The entry [dname] of the working directory is a directory that holds
    what was saved to it in the events [t], each file the last object saved
    under its name, and nothing else. *)
Definition dir_holds (dname : string) (t : list event) (es : list (string * node))
  : Prop :=
  exists c,
    assoc_get dname es = Some (Dir c) /\
    forall name,
      assoc_get name c
      = match last_saved [dname; name] t with
        | Some obj => Some (File (pickle obj))
        | None => None
        end.

(** The state of a run of [train] after the events [evs], [t0] being the
    trace it started from: the two directories hold what was saved, and the
    log holds the records [ds], the first after [head], and is open in the
    writer. *)
Definition run_state (head : text) (logger_name : path) (t0 evs : list event)
  (ds : list text) (jsonlog : StreamingJSONWriter log_dict) (w : World) : Prop :=
  trace w = t0 ++ evs /\
  (exists es, fs w = Dir es /\
              dir_holds "BestModel" evs es /\ dir_holds "CheckPoints" evs es) /\
  writer_on logger_name dumps_log_dict jsonlog /\
  exists c, fs_read logger_name (fs w) = Ok c /\
            log_state_from head ds c (delimeter jsonlog).

End RunState.

(** * Properties *)

(** ** The step functions *)

Section StepFacts.

Context {T : Torch} {R : Runtime}.

Lemma same_outside_refl w : same_outside w w.
Proof. repeat split. Qed.

Lemma same_outside_trans w1 w2 w3 :
  same_outside w1 w2 -> same_outside w2 w3 -> same_outside w1 w3.
Proof.
  unfold same_outside. intuition congruence.
Qed.


Lemma validate_batch_total lf std mean b w :
  exists w' l, validate_batch lf std mean b w = (w', Ok l) /\ same_outside w w'
    /\ optimizer w' = optimizer w.
Proof.
  destruct b as [[g labels] attrs].
  unfold validate_batch, model_call, bind, ret. simpl.
  destruct (forward _ _ _ _ _ _ _) as [pred st] eqn:F. simpl.
  eexists _, _. split; [reflexivity|]. repeat split.
Qed.

Lemma validate_batch_total' lf std mean b w :
  exists w' l, validate_batch lf std mean b w = (w', Ok l) /\ same_outside w w'.
Proof.
  destruct (validate_batch_total lf std mean b w) as (w' & l & E & S1 & _); eauto.
Qed.

(** A loop that adds up what a body that cannot fail answers. *)
Lemma for_each_sum (step : batch -> M tensor) (f : tensor -> tensor -> tensor)
  (P : World -> World -> Prop) :
  (forall w, P w w) ->
  (forall w1 w2 w3, P w1 w2 -> P w2 w3 -> P w1 w3) ->
  (forall b w, exists w' l, step b w = (w', Ok l) /\ P w w') ->
  forall bs acc w,
    exists w',
      for_each bs (fun acc b => l <- step b ;; ret (f acc l)) acc w
      = (w', Ok (fold_left f (losses_of step bs w) acc)) /\ P w w'.
Proof.
  intros Prefl Ptrans Hstep bs.
  induction bs as [|b bs IH]; intros acc w; simpl.
  - exists w. split; [reflexivity | apply Prefl].
  - destruct (Hstep b w) as (w1 & l & E & HP).
    unfold bind at 1. unfold bind at 1. rewrite E. unfold ret at 1.
    destruct (IH (f acc l) w1) as (w2 & E2 & HP2).
    exists w2. split; [exact E2 | eauto].
Qed.


Lemma fold_left_map_detach (ls : list tensor) acc :
  fold_left (fun a l => tadd a (detach l)) ls acc = fold_left tadd (map detach ls) acc.
Proof.
  revert acc. induction ls as [|l ls IH]; intros acc; simpl; [reflexivity | apply IH].
Qed.

(** The body of the training loop does not look at what [tqdm] was told,
    and does not tell it anything. *)
Lemma train_batch_bars lf std mean b (w w0 : World) :
  same_but_bars w0 w ->
  exists w' w0' l,
    train_batch lf std mean b w = (w', Ok l) /\
    train_batch lf std mean b w0 = (w0', Ok l) /\
    same_but_bars w0' w' /\ same_outside w w' /\ bars w' = bars w.
Proof.
  intros (Hm & Ho & Hs & Hf & Ht & Hr).
  destruct b as [[g labels] attrs].
  destruct w as [m o s f t tr p], w0 as [m0 o0 s0 f0 t0 tr0 p0].
  cbn [model optimizer scheduler fs timer_reads trace] in Hm, Ho, Hs, Hf, Ht, Hr.
  subst m0 o0 s0 f0 t0 tr0.
  unfold train_batch, optimizer_zero_grad, model_call, loss_backward,
    optimizer_step, bind, ret, modify.
  cbn [model state training optimizer set_model set_optimizer].
  destruct (forward _ _ _ _ _ _ _) as [pred st] eqn:F.
  cbn [model state training optimizer set_model set_optimizer].
  destruct (optim_step _ _) as [o' st'] eqn:O.
  eexists _, _, _. split; [reflexivity|]. split; [reflexivity|].
  repeat split.
Qed.

(** The loop of [train_one_step]: it adds up the losses of the batches, tells
    [tqdm] of each batch that is done, and with no batch does nothing. *)
Lemma train_loop lf std mean bs :
  forall acc (w w0 : World),
    same_but_bars w0 w ->
    exists w',
      for_each bs
        (fun avg_loss b =>
           loss <- train_batch lf std mean b ;;
           tqdm_tell BarAdvanced ;;
           ret (tadd avg_loss (detach loss)))
        acc w
      = (w', Ok (fold_left (fun a l => tadd a (detach l))
                   (losses_of (train_batch lf std mean) bs w0) acc)) /\
      same_outside w w' /\
      bars w' = bars w ++ repeat BarAdvanced (List.length bs) /\
      (bs = [] -> w' = w).
Proof.
  induction bs as [|b bs IH]; intros acc w w0 Hw.
  - exists w. cbn. rewrite List.app_nil_r. repeat split.
  - destruct (train_batch_bars lf std mean b Hw)
      as (w1 & w01 & l & E & E0 & Hw1 & HS1 & HB1).
    cbn [for_each losses_of]. rewrite E0.
    unfold bind at 1. unfold bind at 1. rewrite E.
    unfold bind at 1. unfold tqdm_tell at 1, modify at 1. unfold ret at 1.
    destruct (IH (tadd acc (detach l)) (set_bars (bars w1 ++ [BarAdvanced]) w1) w01)
      as (w2 & E2 & HS2 & HB2 & _).
    { destruct Hw1 as (Hm & Ho & Hs & Hf & Ht & Hr). repeat split; cbn; assumption. }
    exists w2. split; [exact E2|]. split; [|split; [|discriminate]].
    + eapply same_outside_trans; [exact HS1|].
      destruct HS2 as (A1 & A2 & A3 & A4 & A5). repeat split; assumption.
    + rewrite HB2. cbn [bars set_bars List.length repeat]. rewrite HB1.
      rewrite <- List.app_assoc. reflexivity.
Qed.

(** What a call of [train_one_step] does: how it ends, what it answers, and
    what it does to the world. *)
Lemma train_one_step_run lf std mean (dl : DataLoader) (w : World) :
  exists w',
    train_one_step lf std mean dl w
    = (w',
       match py_truediv
               (item (cpu (fold_left tadd (train_batch_losses lf std mean dl w) zeros1)))
               (dl_len dl) with
       | Ok avg =>
           Ok (avg, PrimFloat.sub (clock (S (timer_reads w))) (clock (timer_reads w)))
       | Raise e => Raise e
       end) /\
    fs w' = fs w /\ trace w' = trace w /\ scheduler w' = scheduler w /\
    timer_reads w' = S (S (timer_reads w)) /\
    training (model w') = true /\
    bars w'
    = bars w ++ BarOpened (dl_len dl) :: repeat BarAdvanced (List.length (batches dl))
             ++ [BarClosed] /\
    (batches dl = [] ->
     state (model w') = state (model w) /\ optimizer w' = optimizer w).
Proof.
  unfold train_one_step, train_batch_losses.
  unfold bind at 1. unfold model_train at 1, modify at 1.
  unfold bind at 1. unfold default_timer at 1.
  unfold bind at 1. unfold tqdm_tell at 1, modify at 1.
  unfold bind at 1.
  match goal with |- context [for_each _ _ _ ?w0] => set (ws := w0) end.
  destruct (train_loop lf std mean (batches dl) zeros1 (w := ws)
              (w0 := fst ((model_train ;; default_timer) w)))
    as (w' & E & (Hfs & Htm & Htr & Hsc & Hmode) & Hbars & Hnil).
  { subst ws. repeat split. }
  rewrite E.
  unfold bind at 1. unfold tqdm_tell at 1, modify at 1.
  unfold bind at 1. unfold default_timer at 1.
  unfold bind at 1, lift at 1.
  rewrite fold_left_map_detach.
  subst ws. cbn [fs timer_reads trace scheduler model training bars
                 set_model set_timer_reads set_bars] in Hfs, Htm, Htr, Hsc, Hmode, Hbars.
  eexists. split.
  - destruct (py_truediv _ (dl_len dl)) as [avg|e]; unfold ret;
      cbn [timer_reads set_bars set_timer_reads]; rewrite ?Htm; reflexivity.
  - cbn [fs timer_reads trace scheduler model training bars
         set_model set_timer_reads set_bars].
    repeat split; try assumption; try congruence.
    + rewrite Hbars, <- !List.app_assoc. reflexivity.
    + match goal with Hb : batches dl = [] |- _ => rewrite (Hnil Hb) end. reflexivity.
    + match goal with Hb : batches dl = [] |- _ => rewrite (Hnil Hb) end. reflexivity.
Qed.

(** What a call of [validate_one_step] answers. *)
Lemma validate_one_step_run lf std mean (dl : DataLoader) (w : World) :
  exists w' t,
    validate_one_step lf std mean dl w
    = (w',
       match py_truediv
               (item (cpu (fold_left tadd (validate_batch_losses lf std mean dl w) zeros1)))
               (dl_len dl) with
       | Ok avg => Ok (avg, t)
       | Raise e => Raise e
       end).
Proof.
  unfold validate_one_step, validate_batch_losses.
  unfold bind at 1. unfold default_timer at 1.
  unfold bind at 1.
  match goal with |- context [for_each _ _ _ ?w0] => set (ws := w0) end.
  destruct (for_each_sum (validate_batch lf std mean) tadd
              same_outside same_outside_refl same_outside_trans
              (validate_batch_total' lf std mean)
              (batches dl) zeros1 ws)
    as (w' & E & _).
  rewrite E.
  unfold bind at 1. unfold default_timer at 1.
  unfold bind at 1, lift at 1.
  subst ws. unfold default_timer. cbn [fst].
  do 2 eexists.
  destruct (py_truediv _ (dl_len dl)) as [avg|e]; unfold ret; reflexivity.
Qed.

(** Over a dataloader whose length is not zero both step functions answer
    the sum of the losses of the batches over the length. *)
Lemma step_losses_of lf std mean (dl : DataLoader) (w : World) :
  dl_len dl <> 0 ->
  (exists w1 t1,
      train_one_step lf std mean dl w
      = (w1, Ok (mean_loss (train_batch_losses lf std mean dl w) (dl_len dl), t1))) /\
  (exists w2 t2,
      validate_one_step lf std mean dl w
      = (w2, Ok (mean_loss (validate_batch_losses lf std mean dl w) (dl_len dl), t2))).
Proof.
  intros Hlen.
  destruct (dl_len dl) as [|k] eqn:HK; [congruence|].
  split.
  - destruct (train_one_step_run lf std mean dl w) as (w1 & E & _).
    rewrite HK in E. cbn [py_truediv] in E. eauto.
  - destruct (validate_one_step_run lf std mean dl w) as (w2 & t2 & E).
    rewrite HK in E. cbn [py_truediv] in E. eauto.
Qed.

(** C6: over a non-empty dataloader whose length is its number of batches,
    both step functions answer the sum of the losses of the batches over
    their number: the sum is the one the tensors make, from zero and in the
    order of the batches, and the quotient is the one of the floats. *)
Theorem step_average_loss lf std mean (dl : DataLoader) (w : World) :
  batches dl <> [] ->
  dl_len dl = List.length (batches dl) ->
  (exists w1 t1,
      train_one_step lf std mean dl w
      = (w1, Ok (mean_loss (train_batch_losses lf std mean dl w)
                   (List.length (batches dl)), t1))) /\
  (exists w2 t2,
      validate_one_step lf std mean dl w
      = (w2, Ok (mean_loss (validate_batch_losses lf std mean dl w)
                   (List.length (batches dl)), t2))).
Proof.
  intros Hne Hlen.
  assert (HK : dl_len dl <> 0).
  { rewrite Hlen. destruct (batches dl); [congruence | discriminate]. }
  rewrite <- Hlen. exact (step_losses_of lf std mean dl w HK).
Qed.

(** What a call of [train_one_step] does to the world and how it ends. *)
Lemma train_one_step_spec lf std mean (dl : DataLoader) (w : World) :
  exists w' r,
    train_one_step lf std mean dl w = (w', r) /\
    fs w' = fs w /\ trace w' = trace w /\ scheduler w' = scheduler w /\
    timer_reads w' = S (S (timer_reads w)) /\
    training (model w') = true /\
    (dl_len dl = 0 -> r = Raise ZeroDivisionError) /\
    (dl_len dl <> 0 -> exists x, r = Ok x).
Proof.
  destruct (train_one_step_run lf std mean dl w)
    as (w' & E & Hfs & Htr & Hsc & Htm & Hmode & _).
  eexists _, _. split; [exact E|].
  repeat split; try assumption.
  - intros H0. rewrite H0. reflexivity.
  - intros Hn. destruct (dl_len dl) as [|k]; [congruence|]. cbn [py_truediv]. eauto.
Qed.

(** What a call of [validate_one_step] does to the world and how it ends. *)
Lemma validate_one_step_spec lf std mean (dl : DataLoader) (w : World) :
  exists w' r,
    validate_one_step lf std mean dl w = (w', r) /\
    fs w' = fs w /\ trace w' = trace w /\ scheduler w' = scheduler w /\
    optimizer w' = optimizer w /\
    timer_reads w' = S (S (timer_reads w)) /\
    training (model w') = training (model w) /\
    (dl_len dl = 0 -> r = Raise ZeroDivisionError) /\
    (dl_len dl <> 0 -> exists x, r = Ok x).
Proof.
  unfold validate_one_step.
  unfold bind at 1. unfold default_timer at 1.
  unfold bind at 1.
  match goal with |- context [for_each _ _ _ ?w0] => set (ws := w0) end.
  destruct (for_each_sum (validate_batch lf std mean) tadd
              (fun w w' => same_outside w w' /\ optimizer w' = optimizer w))
    with (bs := batches dl) (acc := zeros1) (w := ws)
    as (w' & E & (Hfs & Htm & Htr & Hsc & Hmode) & Hopt).
  { intros; split; [apply same_outside_refl | reflexivity]. }
  { intros w1 w2 w3 [S1 O1] [S2 O2]. split;
      [eapply same_outside_trans; eauto | congruence]. }
  { intros b w0.
    destruct (validate_batch_total lf std mean b w0) as (w1 & l & E1 & S1 & O1); eauto. }
  rewrite E.
  unfold bind at 1. unfold default_timer at 1.
  unfold bind at 1, lift at 1.
  subst ws. simpl in Hfs, Htm, Htr, Hsc, Hmode, Hopt.
  destruct (dl_len dl) as [|k]; simpl py_truediv; unfold ret;
    do 2 eexists; (split; [reflexivity|]); simpl;
    (repeat split; try assumption; try congruence; try (intros; eauto; fail)).
Qed.

(** A dataloader of length zero ends the first epoch of the loop in a
    division by zero, be it the one of training or of validation. *)
Lemma epoch_loop_division_by_zero lf std mean (dl : DataLoader) :
  dl_len dl = 0 ->
  forall (w : World) vlf other epoch epochs vars,
    snd (train_epochs lf vlf std mean dl other (epoch :: epochs) vars w)
    = Raise ZeroDivisionError /\
    snd (train_epochs vlf lf std mean other dl (epoch :: epochs) vars w)
    = Raise ZeroDivisionError.
Proof.
  intros H0 w vlf other epoch epochs [jsonlog best]. split.
  - destruct (train_one_step_spec lf std mean dl w)
      as (w1 & r1 & E1 & _ & _ & _ & _ & _ & Z1 & _).
    unfold train_epochs. simpl.
    unfold bind at 1. unfold train_epoch. unfold bind at 1.
    rewrite E1, (Z1 H0). reflexivity.
  - unfold train_epochs. simpl.
    unfold bind at 1. unfold train_epoch. unfold bind at 1.
    destruct (train_one_step_spec vlf std mean other w)
      as (w3 & r3 & E3 & _ & _ & _ & _ & _ & Z3 & N3).
    rewrite E3.
    destruct (Nat.eq_dec (dl_len other) 0) as [Hz | Hnz].
    + rewrite (Z3 Hz). reflexivity.
    + destruct (N3 Hnz) as [[tl tt] ->].
      unfold bind at 1.
      destruct (validate_one_step_spec lf std mean dl w3)
        as (w4 & r4 & E4 & _ & _ & _ & _ & _ & _ & Z4 & _).
      rewrite E4, (Z4 H0). reflexivity.
Qed.

Lemma py_range_pos n : (0 < n)%Z -> exists rest, py_range n = 0%Z :: rest.
Proof.
  intros H. unfold py_range.
  destruct (Z.to_nat n) as [|k] eqn:E; [lia|]. simpl. eauto.
Qed.

(** A session that runs an epoch at least does not end well when the loop
    of its epochs raises in the first of them. *)
Lemma train_raises_with_loop num_epochs tlf vlf std mean tl vl logger_name (w : World) :
  (0 < num_epochs)%Z ->
  (forall w0 epoch epochs vars,
      exists e, snd (train_epochs tlf vlf std mean tl vl (epoch :: epochs) vars w0)
                = Raise e) ->
  exists e, snd (train num_epochs tlf vlf std mean tl vl logger_name w) = Raise e.
Proof.
  intros Hn Hloop. destruct (py_range_pos Hn) as [rest Hr].
  unfold train, train_session. rewrite Hr.
  unfold bind at 1. destruct (reset_dirs w) as [w1 [[]|e]]; [|simpl; eauto].
  unfold bind at 1.
  destruct (StreamingJSONWriter_init logger_name dumps_log_dict w1)
    as [w2 [jsonlog|e]]; [|simpl; eauto].
  unfold bind at 1. unfold logger_info at 1, emit at 1, modify at 1.
  unfold bind at 1.
  match goal with |- context [train_epochs _ _ _ _ _ _ _ ?v ?w0] =>
    destruct (Hloop w0 0%Z rest v) as [e He];
    destruct (train_epochs tlf vlf std mean tl vl (0%Z :: rest) v w0) as [w3 r3]
  end.
  simpl in He. subst r3. simpl. eauto.
Qed.

(** C7: a dataloader of length zero makes both step functions end in a
    division by zero, whatever the world; nothing catches it: the epoch
    loop of the trainer ends with it in its first epoch, and a call of
    [train] for an epoch or more does not end well. *)
Theorem empty_dataloader_division_by_zero lf std mean (dl : DataLoader) (w : World) :
  dl_len dl = 0 ->
  snd (train_one_step lf std mean dl w) = Raise ZeroDivisionError /\
  snd (validate_one_step lf std mean dl w) = Raise ZeroDivisionError /\
  (forall vlf other epoch epochs vars,
      snd (train_epochs lf vlf std mean dl other (epoch :: epochs) vars w)
      = Raise ZeroDivisionError /\
      snd (train_epochs vlf lf std mean other dl (epoch :: epochs) vars w)
      = Raise ZeroDivisionError) /\
  (forall num_epochs vlf other logger_name,
      (0 < num_epochs)%Z ->
      (exists e, snd (train num_epochs lf vlf std mean dl other logger_name w)
                 = Raise e) /\
      (exists e, snd (train num_epochs vlf lf std mean other dl logger_name w)
                 = Raise e)).
Proof.
  intros H0.
  destruct (train_one_step_spec lf std mean dl w)
    as (w1 & r1 & E1 & _ & _ & _ & _ & _ & Z1 & _).
  destruct (validate_one_step_spec lf std mean dl w)
    as (w2 & r2 & E2 & _ & _ & _ & _ & _ & _ & Z2 & _).
  rewrite E1, E2. simpl.
  split; [auto|]. split; [auto|].
  split; [intros; apply (@epoch_loop_division_by_zero lf std mean dl H0)|].
  intros num_epochs vlf other logger_name Hn. split.
  - apply train_raises_with_loop; [exact Hn|].
    intros w0 epoch epochs vars. exists ZeroDivisionError.
    apply (@epoch_loop_division_by_zero lf std mean dl H0).
  - apply train_raises_with_loop; [exact Hn|].
    intros w0 epoch epochs vars. exists ZeroDivisionError.
    apply (@epoch_loop_division_by_zero lf std mean dl H0).
Qed.

(** The validation loop keeps the mode flag, whatever batches it is given. *)
Lemma validate_loop_keeps_mode lf std mean bs acc (w : World) :
  training (model (fst (for_each bs
     (fun avg_loss b =>
        loss <- validate_batch lf std mean b ;; ret (tadd avg_loss loss))
     acc w))) = training (model w).
Proof.
  destruct (for_each_sum (validate_batch lf std mean) tadd
              same_outside same_outside_refl same_outside_trans
              (validate_batch_total' lf std mean) bs acc w)
    as (w' & E & _ & _ & _ & _ & Hmode).
  rewrite E. exact Hmode.
Qed.

End StepFacts.

(** *** Computations that leave a part of the world alone *)

Section KeepFacts.

Context {T : Torch}.

Lemma keeps_ret A B (proj : World -> B) (a : A) : keeps proj (ret a).
Proof. intro w. reflexivity. Qed.

Lemma keeps_raise A B (proj : World -> B) e : keeps proj (@raise _ A e).
Proof. intro w. reflexivity. Qed.

Lemma keeps_get B (proj : World -> B) : keeps proj get.
Proof. intro w. reflexivity. Qed.

Lemma keeps_lift A B (proj : World -> B) (r : result A) : keeps proj (lift r).
Proof. intro w. reflexivity. Qed.

Lemma keeps_bind A A' B (proj : World -> B) (m : M A) (k : A -> M A') :
  keeps proj m -> (forall a, keeps proj (k a)) -> keeps proj (bind m k).
Proof.
  intros Hm Hk w. unfold bind. specialize (Hm w).
  destruct (m w) as [w' [a|e]]; simpl in *.
  - rewrite Hk. exact Hm.
  - exact Hm.
Qed.

Lemma keeps_modify B (proj : World -> B) f :
  (forall w, proj (f w) = proj w) -> keeps proj (modify f).
Proof. intros H w. apply H. Qed.

Lemma keeps_on_fs B (proj : World -> B) op :
  (forall n w, proj (set_fs n w) = proj w) -> keeps proj (on_fs op).
Proof.
  intros H w. unfold on_fs. destruct (op (fs w)); simpl; auto.
Qed.

Lemma keeps_if A B (proj : World -> B) (c : bool) (m1 m2 : M A) :
  keeps proj m1 -> keeps proj m2 -> keeps proj (if c then m1 else m2).
Proof. destruct c; auto. Qed.

Lemma keeps_for_each A C B (proj : World -> B) (l : list A) (body : C -> A -> M C) :
  (forall c a, keeps proj (body c a)) -> forall acc, keeps proj (for_each l body acc).
Proof.
  intros Hb. induction l as [|a l IH]; intros acc; simpl.
  - apply keeps_ret.
  - apply keeps_bind; auto.
Qed.

End KeepFacts.

Ltac keeps_tac :=
  repeat first
    [ apply keeps_ret | apply keeps_raise | apply keeps_get | apply keeps_lift
    | apply keeps_bind; [|intros]
    | apply keeps_if
    | apply keeps_for_each; intros
    | apply keeps_modify; intros; reflexivity
    | apply keeps_on_fs; intros; reflexivity
    | match goal with |- keeps _ (let '(_, _) := ?x in _) => destruct x end
    | match goal with |- keeps _ (match ?x with _ => _ end) => destruct x end ].

Section ModeFacts.

Context {T : Torch} {R : Runtime}.

Lemma keeps_model_torch_save obj f : keeps model (torch_save obj f).
Proof. unfold torch_save, emit. keeps_tac. Qed.

Lemma keeps_model_file_flush f : keeps model (file_flush f).
Proof. unfold file_flush. keeps_tac. Qed.

Lemma keeps_model_dump Obj (self : StreamingJSONWriter Obj) obj :
  keeps model (dump self obj).
Proof.
  unfold dump, file_seek_end, file_seek, file_write, emit.
  keeps_tac; try apply keeps_model_file_flush.
Qed.

(** C10: [validate_one_step] leaves the mode flag of the model as it found
    it, however it ends, and so does every pass of its loop; the flag is set
    by [train_one_step], so that in an epoch of the trainer the validation
    runs, and ends, with the model in training mode. *)
Theorem validate_keeps_training_mode lf std mean (dl : DataLoader) (w : World) :
  training (model (fst (validate_one_step lf std mean dl w))) = training (model w) /\
  (forall bs acc,
      training (model (fst (for_each bs
         (fun avg_loss b =>
            loss <- validate_batch lf std mean b ;; ret (tadd avg_loss loss))
         acc w))) = training (model w)) /\
  training (model (fst (train_one_step lf std mean dl w))) = true /\
  (forall vlf vdl,
      training (model (fst ((train_one_step lf std mean dl ;;
                             validate_one_step vlf std mean vdl) w))) = true) /\
  (forall vlf vdl vars epoch,
      training (model (fst (train_epoch lf vlf std mean dl vdl vars epoch w))) = true).
Proof.
  destruct (validate_one_step_spec lf std mean dl w)
    as (w2 & r2 & E2 & _ & _ & _ & _ & _ & M2 & _).
  destruct (train_one_step_spec lf std mean dl w)
    as (w1 & r1 & E1 & F1 & Tr1 & _ & _ & M1 & _).
  split; [rewrite E2; exact M2|].
  split; [intros; apply validate_loop_keeps_mode|].
  split; [rewrite E1; exact M1|].
  split.
  - intros vlf vdl. unfold bind. rewrite E1.
    destruct r1 as [x|e]; [|exact M1].
    destruct (validate_one_step_spec vlf std mean vdl w1)
      as (w3 & r3 & E3 & _ & _ & _ & _ & _ & M3 & _).
    rewrite E3. simpl. congruence.
  - intros vlf vdl [jsonlog best] epoch.
    unfold train_epoch. unfold bind at 1. rewrite E1.
    destruct r1 as [[tl tt]|e]; [|exact M1].
    unfold bind at 1.
    destruct (validate_one_step_spec vlf std mean vdl w1)
      as (w3 & r3 & E3 & _ & _ & _ & _ & _ & M3 & _).
    rewrite E3. destruct r3 as [[vl vt]|e]; [|simpl; congruence].
    assert (M3' : training (model w3) = true) by congruence.
    rewrite <- M3'.
    match goal with |- training (model (fst (?m w3))) = _ =>
      assert (K : keeps (fun w => training (model w)) m) end.
    { unfold scheduler_step, logger_info, emit.
      keeps_tac; try (intro w0; f_equal;
        first [ apply keeps_model_torch_save | apply keeps_model_dump ]).
      intro w0. unfold modify. simpl.
      destruct (sched_step (scheduler w0) (optimizer w0)); reflexivity. }
    apply K.
Qed.

End ModeFacts.

Lemma empty_dataloader_division_by_zero_witness :
  let dl := @Build_DataLoader scalar_torch [] 0 in
  let w := scalar_world (Dir []) in
  dl_len dl = 0 /\
  snd (@train_one_step scalar_torch ticking_runtime l1_loss 2%float 0%float dl w)
  = Raise ZeroDivisionError.
Proof.
  split; [reflexivity|].
  apply (@empty_dataloader_division_by_zero scalar_torch ticking_runtime
           l1_loss 2%float 0%float (@Build_DataLoader scalar_torch [] 0)
           (scalar_world (Dir []))).
  reflexivity.
Defined.

Section LossScales.

Context {T : Torch} {R : Runtime}.

(** The losses the loop of [train_one_step] meets are those the
    specification words, whatever the world the loop starts in, the model
    being in training mode. *)
Lemma train_losses_as_specified lf std mean bs :
  forall w : World,
    training (model w) = true ->
    losses_of (train_batch lf std mean) bs w
    = spec_training_losses lf std mean bs (state (model w)) (optimizer w).
Proof.
  induction bs as [|[[g labels] attrs] bs IH]; intros w Hm; [reflexivity|].
  cbn [losses_of spec_training_losses].
  unfold train_batch, optimizer_zero_grad, model_call, loss_backward,
    optimizer_step, bind, ret, modify.
  cbn [model state training optimizer set_model set_optimizer].
  rewrite Hm.
  destruct (forward true true _ _ _ _ _) as [pred st] eqn:F.
  cbn [model state training optimizer set_model set_optimizer fst snd].
  destruct (optim_step _ _) as [o st'] eqn:O.
  cbn [fst snd]. unfold normalized_target. f_equal.
  rewrite IH by reflexivity. reflexivity.
Qed.

(** And so are the losses the loop of [validate_one_step] meets. *)
Lemma validate_losses_as_specified lf std mean bs :
  forall w : World,
    losses_of (validate_batch lf std mean) bs w
    = spec_validation_losses lf std mean bs (training (model w)) (state (model w)).
Proof.
  induction bs as [|[[g labels] attrs] bs IH]; intros w; [reflexivity|].
  cbn [losses_of spec_validation_losses].
  unfold validate_batch, model_call, bind, ret.
  destruct (forward _ false _ _ _ _ _) as [pred st] eqn:F.
  cbn [fst snd]. unfold denormalized_prediction. f_equal.
  rewrite IH. reflexivity.
Qed.

End LossScales.

(** C3: over a dataloader whose length is not zero, [train_one_step]
    answers the average of the losses that compare, batch after batch, the
    squeezed prediction with the normalised label [(labels - mean) / std],
    and [validate_one_step] the average of the losses that compare the
    prediction brought back to the scale of the labels,
    [mean + pred * std], with the label itself; and there are a prediction
    and a label, both 1, with [std] other than one, on which the two step
    functions answer different losses. *)
Theorem step_losses_normalisation_asymmetry :
  (forall (T : Torch) (R : Runtime) (lf : tensor -> tensor -> tensor) (std mean : tensor)
          (dl : DataLoader) (w : World),
      dl_len dl <> 0 ->
      (exists w1 t1,
          train_one_step lf std mean dl w
          = (w1, Ok (mean_loss
                       (map detach
                          (spec_training_losses lf std mean (batches dl)
                             (state (model w)) (optimizer w)))
                       (dl_len dl), t1))) /\
      (exists w2 t2,
          validate_one_step lf std mean dl w
          = (w2, Ok (mean_loss
                       (spec_validation_losses lf std mean (batches dl)
                          (training (model w)) (state (model w)))
                       (dl_len dl), t2)))) /\
  (let w := scalar_world (Dir []) in
   let std := 2%float in
   let mean := 0%float in
   let dl := scalar_loader [(1, 1)]%float in
   PrimFloat.eqb std 1 = false /\
   @spec_training_losses scalar_torch l1_loss std mean (batches dl)
     (state (model w)) (optimizer w)
   = [l1_loss 1%float (@normalized_target scalar_torch 1%float mean std)] /\
   @spec_validation_losses scalar_torch l1_loss std mean (batches dl)
     (training (model w)) (state (model w))
   = [l1_loss (@denormalized_prediction scalar_torch 1%float mean std) 1%float] /\
   (exists w1 t1,
       @train_one_step scalar_torch ticking_runtime l1_loss std mean dl w
       = (w1, Ok (0.5%float, t1))) /\
   (exists w2 t2,
       @validate_one_step scalar_torch ticking_runtime l1_loss std mean dl w
       = (w2, Ok (1%float, t2))) /\
   PrimFloat.eqb 0.5 1 = false).
Proof.
  split.
  - intros T R lf std mean dl w Hlen.
    destruct (step_losses_of lf std mean dl w Hlen) as [Ht Hv].
    unfold train_batch_losses in Ht. unfold validate_batch_losses in Hv.
    rewrite train_losses_as_specified in Ht by reflexivity.
    rewrite validate_losses_as_specified in Hv.
    split; [exact Ht | exact Hv].
  - vm_compute. repeat split; try reflexivity; do 2 eexists; reflexivity.
Qed.

Lemma step_losses_normalisation_asymmetry_witness :
  let dl := scalar_loader [(1, 1); (3, 2)]%float in
  let w := scalar_world (Dir []) in
  dl_len dl <> 0 /\
  (exists w1 t1,
      @train_one_step scalar_torch ticking_runtime l1_loss 2%float 0%float dl w
      = (w1, Ok (mean_loss
                   (map detach
                      (@spec_training_losses scalar_torch l1_loss 2%float 0%float
                         (batches dl) (state (model w)) (optimizer w)))
                   (dl_len dl), t1))) /\
  @spec_training_losses scalar_torch l1_loss 2%float 0%float
    (batches dl) (state (model w)) (optimizer w) = [0.5; 1.25]%float /\
  @spec_validation_losses scalar_torch l1_loss 2%float 0%float
    (batches dl) (training (model w)) (state (model w)) = [1; 4]%float.
Proof.
  intros dl w.
  assert (H : dl_len dl <> 0) by discriminate.
  split; [exact H|]. split.
  - exact (proj1 (proj1 step_losses_normalisation_asymmetry scalar_torch ticking_runtime
                    l1_loss 2%float 0%float dl w H)).
  - split; vm_compute; reflexivity.
Defined.

(** ** The file system *)

Lemma assoc_get_set_eq A k (v : A) l : assoc_get k (assoc_set k v l) = Some v.
Proof.
  induction l as [|[k' v'] l IH]; simpl.
  - now rewrite String.eqb_refl.
  - destruct (String.eqb k k') eqn:E; simpl.
    + now rewrite String.eqb_refl.
    + now rewrite E.
Qed.

Lemma assoc_get_set_neq A k k' (v : A) l :
  k <> k' -> assoc_get k' (assoc_set k v l) = assoc_get k' l.
Proof.
  intros N. induction l as [|[k0 v0] l IH]; simpl.
  - destruct (String.eqb_spec k' k); [congruence | reflexivity].
  - destruct (String.eqb_spec k k0); simpl.
    + subst k0. destruct (String.eqb_spec k' k); [congruence | reflexivity].
    + destruct (String.eqb_spec k' k0); [reflexivity | exact IH].
Qed.

Lemma assoc_get_del_eq A k (l : list (string * A)) : assoc_get k (assoc_del k l) = None.
Proof.
  induction l as [|[k' v'] l IH]; simpl; [reflexivity|].
  destruct (String.eqb k k') eqn:E; simpl; [exact IH | now rewrite E].
Qed.

Lemma assoc_get_del_neq A k k' (l : list (string * A)) :
  k <> k' -> assoc_get k' (assoc_del k l) = assoc_get k' l.
Proof.
  intros N. induction l as [|[k0 v0] l IH]; simpl; [reflexivity|].
  destruct (String.eqb_spec k k0); simpl.
  - subst k0. destruct (String.eqb_spec k' k); [congruence | exact IH].
  - destruct (String.eqb_spec k' k0); [reflexivity | exact IH].
Qed.

(** Changing an entry that is there. *)
Lemma fs_alter_existing p f n x y :
  fs_lookup p n = Some x -> f (Some x) = Ok (Some y) ->
  exists n', fs_alter p f n = Ok n' /\ fs_lookup p n' = Some y.
Proof.
  revert n. induction p as [|name rest IH]; intros n L F; simpl in *.
  - inversion L; subst x. rewrite F. eauto.
  - destruct n as [d|es]; [discriminate|].
    destruct (assoc_get name es) as [c|] eqn:G; [|discriminate].
    destruct rest as [|name' rest'].
    + simpl in L. inversion L; subst x. rewrite F.
      eexists; split; [reflexivity|]. simpl. now rewrite assoc_get_set_eq.
    + destruct (IH c L F) as (c' & E & L').
      rewrite E. eexists; split; [reflexivity|].
      cbn [fs_lookup]. rewrite assoc_get_set_eq. exact L'.
Qed.

(** Making an entry in a directory that is there. *)
Lemma fs_alter_new dir name f n es y :
  fs_lookup dir n = Some (Dir es) -> f (assoc_get name es) = Ok (Some y) ->
  exists n', fs_alter (dir ++ [name]) f n = Ok n' /\
             fs_lookup (dir ++ [name]) n' = Some y.
Proof.
  revert n. induction dir as [|d rest IH]; intros n L F; simpl in *.
  - inversion L; subst n. rewrite F.
    eexists; split; [reflexivity|]. simpl. now rewrite assoc_get_set_eq.
  - destruct n as [d0|es0]; [discriminate|].
    destruct (assoc_get d es0) as [c|] eqn:G; [|discriminate].
    destruct (IH c L F) as (c' & E & L').
    destruct (rest ++ [name]) as [|x xs] eqn:Ers.
    { destruct rest; discriminate. }
    rewrite E. eexists; split; [reflexivity|].
    cbn [fs_lookup]. rewrite assoc_get_set_eq. exact L'.
Qed.

Lemma fs_lookup_single name es : fs_lookup [name] (Dir es) = assoc_get name es.
Proof. simpl. destruct (assoc_get name es); reflexivity. Qed.

Lemma fs_store_read p d d' n :
  fs_lookup p n = Some (File d) ->
  exists n', fs_store p d' n = Ok n' /\ fs_read p n' = Ok d'.
Proof.
  intros L.
  destruct (@fs_alter_existing p
              (fun o => match o with
                        | Some (File _) => Ok (Some (File d'))
                        | Some (Dir _) => Raise IsADirectoryError
                        | None => Raise FileNotFoundError
                        end) n (File d) (File d') L eq_refl) as (n' & E & L').
  exists n'. split; [exact E|]. unfold fs_read. now rewrite L'.
Qed.

Lemma fs_read_lookup p n d : fs_read p n = Ok d <-> fs_lookup p n = Some (File d).
Proof.
  unfold fs_read. destruct (fs_lookup p n) as [[d0|es]|]; split; intros H;
    inversion H; reflexivity.
Qed.

Section TrainerSetup.

Context {T : Torch} {R : Runtime}.

Lemma bind_ok A B (m : M A) (k : A -> M B) w w' a :
  m w = (w', Ok a) -> bind m k w = k a w'.
Proof. intros E. unfold bind. now rewrite E. Qed.

(** One directory of the two: removed if it is there, then made. *)
Lemma reset_one_dir name es (w : World) :
  fs w = Dir es ->
  (assoc_get name es = None \/ exists c, assoc_get name es = Some (Dir c)) ->
  exists es',
    ((w0 <- get ;;
      (if fs_exists [name] (fs w0) then on_fs (fs_rmtree [name]) else ret tt) ;;
      on_fs (fs_mkdir [name])) w) = (set_fs (Dir es') w, Ok tt) /\
    assoc_get name es' = Some (Dir []) /\
    (forall other, other <> name -> assoc_get other es' = assoc_get other es).
Proof.
  intros Hfs Hname.
  unfold bind at 1. unfold get at 1.
  unfold fs_exists. rewrite Hfs, fs_lookup_single.
  destruct Hname as [Hn | [c Hc]].
  - rewrite Hn. unfold bind, ret, on_fs, fs_mkdir. rewrite Hfs. simpl.
    rewrite Hn. eexists; split; [reflexivity|]. split.
    + apply assoc_get_set_eq.
    + intros other Ho. apply assoc_get_set_neq. congruence.
  - rewrite Hc. unfold bind, on_fs, fs_rmtree, fs_mkdir. rewrite Hfs. simpl.
    rewrite Hc. simpl. rewrite assoc_get_del_eq.
    eexists; split; [reflexivity|]. split.
    + apply assoc_get_set_eq.
    + intros other Ho. rewrite assoc_get_set_neq by congruence.
      apply assoc_get_del_neq. congruence.
Qed.

(** C8: when [BestModel] and [CheckPoints] are, each, absent from the
    working directory or a directory of it, [train] begins by leaving both
    as empty directories, whatever they held, touches nothing else in the
    working directory, and goes on from there to open the log and run the
    epochs. *)
Theorem train_resets_directories es (w : World) :
  fs w = Dir es ->
  (fs_lookup outpath (fs w) = None \/ exists c, fs_lookup outpath (fs w) = Some (Dir c)) ->
  (fs_lookup checkpath (fs w) = None \/
   exists c, fs_lookup checkpath (fs w) = Some (Dir c)) ->
  exists w',
    reset_dirs w = (w', Ok tt) /\
    fs_lookup outpath (fs w') = Some (Dir []) /\
    fs_lookup checkpath (fs w') = Some (Dir []) /\
    (forall name rest,
        name <> "BestModel"%string -> name <> "CheckPoints"%string ->
        fs_lookup (name :: rest) (fs w') = fs_lookup (name :: rest) (fs w)) /\
    (forall num_epochs tlf vlf std mean tl vl logger_name,
        train num_epochs tlf vlf std mean tl vl logger_name w
        = train_session num_epochs tlf vlf std mean tl vl logger_name w').
Proof.
  intros Hfs Hout Hcheck.
  unfold outpath, checkpath in *. rewrite Hfs in Hout, Hcheck.
  rewrite !fs_lookup_single in Hout, Hcheck.
  destruct (reset_one_dir "BestModel" w Hfs Hout) as (es1 & E1 & G1 & F1).
  assert (Hcheck1 : assoc_get "CheckPoints" es1 = None \/
                    exists c, assoc_get "CheckPoints" es1 = Some (Dir c)).
  { rewrite F1 by discriminate. exact Hcheck. }
  destruct (reset_one_dir "CheckPoints" (set_fs (Dir es1) w) eq_refl Hcheck1)
    as (es2 & E2 & G2 & F2).
  assert (E : reset_dirs w = (set_fs (Dir es2) (set_fs (Dir es1) w), Ok tt)).
  { unfold reset_dirs, outpath, checkpath.
    match type of E1 with ?m1 w = _ =>
      match type of E2 with ?m2 _ = _ =>
        transitivity (bind m1 (fun _ => m2) w);
          [ unfold bind, get;
            destruct ((if fs_exists ["BestModel"%string] (fs w)
                       then on_fs (fs_rmtree ["BestModel"%string]) else ret tt) w)
              as [wa [[]|e]]; [|reflexivity];
            destruct (on_fs (fs_mkdir ["BestModel"%string]) wa) as [wb [[]|e]];
            reflexivity
          | rewrite (bind_ok m1 (fun _ => m2) w E1); exact E2 ]
      end
    end. }
  exists (set_fs (Dir es2) (set_fs (Dir es1) w)). split; [exact E|].
  simpl fs. rewrite !fs_lookup_single.
  split; [rewrite F2 by discriminate; exact G1|].
  split; [exact G2|].
  split.
  - intros name rest N1 N2. rewrite Hfs. cbn [fs_lookup].
    rewrite F2, F1 by congruence. reflexivity.
  - intros. unfold train. unfold bind at 1. rewrite E. reflexivity.
Qed.

End TrainerSetup.

Lemma train_resets_directories_witness :
  let es := [("BestModel"%string, Dir [("best-model.pt"%string, File (txt "old"))]);
             ("notes.txt"%string, File (txt "keep"))] in
  let w := scalar_world (Dir es) in
  exists w',
    @reset_dirs scalar_torch w = (w', Ok tt) /\
    fs_lookup outpath (fs w') = Some (Dir []) /\
    fs_lookup checkpath (fs w') = Some (Dir []).
Proof.
  intros es w.
  destruct (@train_resets_directories scalar_torch ticking_runtime es w eq_refl)
    as (w' & E & O & C & _).
  - right. eexists. reflexivity.
  - left. reflexivity.
  - exists w'. auto.
Defined.

(** ** The writer *)

Section WriterFacts.

Context {T : Torch}.

(** What the making of a writer does, on a file and on a fresh path. *)
Lemma init_on_path (Obj : Type) (filename : path) (enc : Obj -> text)
  (w : World) :
  (forall d,
      fs_lookup filename (fs w) = Some (File d) ->
      StreamingJSONWriter_init filename enc w
      = (w, Ok {| file := {| f_path := filename; f_mode := ModeRPlus; f_pos := 0;
                             f_pending := []; f_closed := false |};
                  delimeter := txt ","; encoder := enc |})) /\
  (forall dir name es,
      filename = dir ++ [name] ->
      fs_lookup dir (fs w) = Some (Dir es) ->
      assoc_get name es = None ->
      fs_exists filename (fs w) = false /\
      exists n',
        StreamingJSONWriter_init filename enc w
        = (set_fs n' w,
           Ok {| file := {| f_path := filename; f_mode := ModeW; f_pos := 0;
                            f_pending := []; f_closed := false |};
                 delimeter := txt "["; encoder := enc |}) /\
        fs_lookup filename n' = Some (File [])).
Proof.
  split.
  - intros d L. unfold StreamingJSONWriter_init, fs_exists, bind, get.
    rewrite L. unfold py_open, bind, get, lift, fs_read, ret. rewrite L.
    reflexivity.
  - intros dir name es -> L G.
    assert (Hnone : fs_lookup (dir ++ [name]) (fs w) = None).
    { clear - L G. revert L. generalize (fs w). induction dir as [|d rest IH];
        intros n L; simpl in *.
      - inversion L; subst n. now rewrite G.
      - destruct n as [d0|es0]; [discriminate|].
        destruct (assoc_get d es0); [auto | reflexivity]. }
    split; [unfold fs_exists; now rewrite Hnone|].
    destruct (@fs_alter_new dir name
                (fun o => match o with
                          | Some (Dir _) => Raise IsADirectoryError
                          | _ => Ok (Some (File []))
                          end) (fs w) es (File []) L) as (n' & E & L').
    { now rewrite G. }
    exists n'. split; [|exact L'].
    unfold StreamingJSONWriter_init, fs_exists, bind, get. rewrite Hnone.
    unfold py_open, bind, on_fs, fs_create. rewrite E. reflexivity.
Qed.

Lemma file_flush_clean (f : pyfile) (w : World) :
  f_closed f = false -> f_pending f = [] -> file_flush f w = (w, Ok f).
Proof.
  intros C P. unfold file_flush. rewrite C, P. reflexivity.
Qed.

Lemma write_at_tail pos (s d : text) :
  pos <= List.length d -> List.length d <= pos + List.length s ->
  write_at pos s d = firstn pos d ++ s.
Proof.
  intros H1 H2. unfold write_at.
  replace (pos - List.length d) with 0 by lia. simpl.
  rewrite skipn_all2 by lia. now rewrite List.app_nil_r.
Qed.

Lemma dump_text_length delim data :
  List.length (dump_text delim data) = List.length delim + 5 + List.length data + 3.
Proof.
  unfold dump_text, close_str, txt. rewrite !length_app. simpl. lia.
Qed.

(** What [dump] does on an open writer with nothing pending. *)
Lemma dump_on_clean_file (Obj : Type) (self : StreamingJSONWriter Obj) (obj : Obj)
  (w : World) (d : text) :
  f_closed (file self) = false ->
  f_pending (file self) = [] ->
  fs_lookup (f_path (file self)) (fs w) = Some (File d) ->
  let data := encoder self obj in
  let pos := Z.to_nat (Z.max (Z.of_nat (List.length d) - 3) 0) in
  let s := delimeter self ++ [nl] ++ txt "    " ++ data ++ [nl; "]"%char; nl] in
  exists n',
    fs_store (f_path (file self)) (write_at pos s d) (fs w) = Ok n' /\
    fs_read (f_path (file self)) n' = Ok (firstn pos d ++ s) /\
    dump self obj w
    = (set_fs n' (set_trace (trace w ++ [FileWrite (f_path (file self)) s]) w),
       Ok {| file := {| f_path := f_path (file self); f_mode := f_mode (file self);
                        f_pos := pos + List.length s;
                        f_pending := []; f_closed := false |};
             delimeter := txt ","; encoder := encoder self |}).
Proof.
  intros C P L data pos s.
  assert (Hpos : pos = List.length d - 3) by (subst pos; lia).
  assert (Hs : s = dump_text (delimeter self) data) by reflexivity.
  assert (Hw : write_at pos s d = firstn pos d ++ s).
  { apply write_at_tail; [lia|]. rewrite Hs, dump_text_length. lia. }
  destruct (@fs_store_read _ d (write_at pos s d) (fs w) L) as (n' & E & Rd).
  exists n'. split; [exact E|]. split; [now rewrite <- Hw|].
  unfold dump. unfold bind at 1. unfold file_seek_end.
  unfold bind at 1. rewrite (file_flush_clean _ w C P).
  unfold bind at 1, get at 1. unfold bind at 1, lift at 1, fs_read at 1.
  rewrite L. unfold ret at 1.
  unfold bind at 1. unfold file_seek.
  unfold bind at 1. rewrite file_flush_clean by reflexivity.
  change (Z.of_nat (List.length close_str)) with 3%Z.
  destruct (Z.ltb_spec (Z.max (Z.of_nat (List.length d) - 3) 0) 0) as [Hlt|_]; [lia|].
  unfold ret at 1.
  unfold bind at 1. unfold file_write. cbn [f_closed f_path f_pending f_pos f_mode].
  unfold bind at 1. unfold emit at 1, modify at 1. unfold ret at 1.
  unfold bind at 1. unfold file_flush. cbn [f_closed f_path f_pending f_pos f_mode].
  fold data. fold pos. rewrite List.app_nil_l.
  change (delimeter self ++ [nl] ++ txt "    " ++ data ++ close_str) with s.
  assert (Hne : s <> []).
  { intro H. apply (f_equal (@List.length ascii)) in H.
    rewrite Hs, dump_text_length in H. simpl in H. lia. }
  destruct s as [|c s'] eqn:Es; [congruence|]. rewrite <- Es in *.
  unfold bind at 1, get at 1. unfold bind at 1, lift at 1, fs_read at 1.
  cbn [fs set_trace]. rewrite L.
  unfold bind at 1, on_fs at 1. cbn [fs set_trace]. rewrite E.
  unfold ret. reflexivity.
Qed.

(** C5: on a path that names a regular file the writer opens it for reading
    and writing, leaves it as it is, and starts with the separator [,];
    on a path that names nothing, in a directory that is there, it creates
    the file, empty, and starts with the separator [[]. *)
Theorem writer_init_separator (Obj : Type) (filename : path) (enc : Obj -> text)
  (w : World) :
  (forall d,
      fs_lookup filename (fs w) = Some (File d) ->
      StreamingJSONWriter_init filename enc w
      = (w, Ok {| file := {| f_path := filename; f_mode := ModeRPlus; f_pos := 0;
                             f_pending := []; f_closed := false |};
                  delimeter := txt ","; encoder := enc |})) /\
  (forall dir name es,
      filename = dir ++ [name] ->
      fs_lookup dir (fs w) = Some (Dir es) ->
      assoc_get name es = None ->
      fs_exists filename (fs w) = false /\
      exists n',
        StreamingJSONWriter_init filename enc w
        = (set_fs n' w,
           Ok {| file := {| f_path := filename; f_mode := ModeW; f_pos := 0;
                            f_pending := []; f_closed := false |};
                 delimeter := txt "["; encoder := enc |}) /\
        fs_lookup filename n' = Some (File [])).
Proof.
  exact (init_on_path filename enc w).
Qed.

(** C4: on an open writer with nothing pending, whose file holds [d], a call
    of [dump] hands to [write] the separator, a new line, four spaces, the
    serialised record and the closing sequence; the text lands at offset
    [max (length d - 3) 0], which makes it the new tail of the file; it is
    on the disk when [dump] returns, nothing being left pending; and the
    separator of the writer is [,] from then on. *)
Theorem dump_appends_record (Obj : Type) (self : StreamingJSONWriter Obj) (obj : Obj)
  (w : World) (d : text) :
  f_closed (file self) = false ->
  f_pending (file self) = [] ->
  fs_lookup (f_path (file self)) (fs w) = Some (File d) ->
  let data := encoder self obj in
  let pos := Z.to_nat (Z.max (Z.of_nat (List.length d) - 3) 0) in
  let s := delimeter self ++ [nl] ++ txt "    " ++ data ++ [nl; "]"%char; nl] in
  exists n',
    fs_store (f_path (file self)) (write_at pos s d) (fs w) = Ok n' /\
    fs_read (f_path (file self)) n' = Ok (firstn pos d ++ s) /\
    dump self obj w
    = (set_fs n' (set_trace (trace w ++ [FileWrite (f_path (file self)) s]) w),
       Ok {| file := {| f_path := f_path (file self); f_mode := f_mode (file self);
                        f_pos := pos + List.length s;
                        f_pending := []; f_closed := false |};
             delimeter := txt ","; encoder := encoder self |}).
Proof.
  intros C P L. exact (dump_on_clean_file self obj w C P L).
Qed.

End WriterFacts.

(** ** Reading back what [json.dumps] wrote *)

Lemma scan_digits_uint d rest :
  no_digit_head rest -> scan_digits (uint_chars d ++ rest) = (d, rest).
Proof.
  intros Hr. induction d; simpl;
    try (rewrite IHd; reflexivity).
  destruct rest as [|c r]; [reflexivity|]. simpl in *. now rewrite Hr.
Qed.

Lemma nzhead_not_D0 d d' : nzhead d <> D0 d'.
Proof. induction d; simpl; try discriminate. exact IHd. Qed.

Lemma pos_to_uint_head p :
  exists c r, uint_chars (Pos.to_uint p) = c :: r /\
              Ascii.eqb c "-" = false /\ Ascii.eqb c "0" = false /\
              char_digit c <> None.
Proof.
  assert (Hn : Pos.to_uint p = unorm (Pos.to_uint p)).
  { rewrite <- (DecimalN.Unsigned.to_of (Pos.to_uint p)).
    change (N.of_uint (Pos.to_uint p)) with (Pos.of_uint (Pos.to_uint p)).
    rewrite DecimalPos.Unsigned.of_to. reflexivity. }
  pose proof (DecimalPos.Unsigned.to_uint_nonzero p) as Hz.
  unfold unorm in Hn.
  destruct (nzhead (Pos.to_uint p)) eqn:E;
    try (rewrite Hn; simpl; do 2 eexists; repeat split; try reflexivity; discriminate).
  - congruence.
  - exfalso. exact (nzhead_not_D0 _ E).
Qed.

(** *** Numbers *)

Lemma number_char_false c :
  number_char c = false ->
  char_digit c = None /\ Ascii.eqb c "." = false /\
  Ascii.eqb c "e" = false /\ Ascii.eqb c "E" = false /\
  Ascii.eqb c "+" = false /\ Ascii.eqb c "-" = false.
Proof.
  unfold number_char. destruct (char_digit c); [discriminate|].
  intros H. repeat (apply orb_false_iff in H; destruct H as [H ?]). auto 7.
Qed.

Lemma number_end_no_digit rest : number_end rest -> no_digit_head rest.
Proof.
  destruct rest as [|c r]; [auto|]. intros H. now apply number_char_false in H.
Qed.

(** What the scanners find at the head of a text they find there still when
    the text goes on with something no number goes on with. *)
Lemma scan_digits_app s rest :
  no_digit_head rest ->
  forall d r, scan_digits s = (d, r) -> scan_digits (s ++ rest) = (d, r ++ rest).
Proof.
  intros Hr. induction s as [|c s IH]; intros d r E.
  - cbn in E. inversion E; subst. cbn.
    destruct rest as [|c r]; [reflexivity|]. cbn in *. now rewrite Hr.
  - cbn in E |- *. destruct (char_digit c) as [D|].
    + destruct (scan_digits s) as [d' r'] eqn:Es. inversion E; subst.
      now rewrite (IH _ _ eq_refl).
    + inversion E; subst. reflexivity.
Qed.

Lemma scan_unsigned_app s rest d r :
  no_digit_head rest ->
  scan_unsigned s = Some (d, r) -> scan_unsigned (s ++ rest) = Some (d, r ++ rest).
Proof.
  intros Hr. destruct s as [|c s]; [discriminate|]. cbn [scan_unsigned List.app].
  destruct (Ascii.eqb c "0"); [intros E; inversion E; reflexivity|].
  destruct (char_digit c); [|discriminate].
  destruct (scan_digits (c :: s)) as [d' r'] eqn:Es.
  intros E. inversion E; subst.
  change (c :: s ++ rest) with ((c :: s) ++ rest).
  now rewrite (@scan_digits_app _ _ Hr _ _ Es).
Qed.

Lemma scan_integer_app s rest neg d r :
  no_digit_head rest ->
  scan_integer s = Some (neg, d, r) ->
  scan_integer (s ++ rest) = Some (neg, d, r ++ rest).
Proof.
  intros Hr. destruct s as [|c s]; [discriminate|]. cbn [scan_integer List.app].
  destruct (Ascii.eqb c "-").
  - destruct (scan_unsigned s) as [[d' r']|] eqn:E; [|discriminate].
    intros H. inversion H; subst. now rewrite (@scan_unsigned_app _ _ _ _ Hr E).
  - destruct (scan_unsigned (c :: s)) as [[d' r']|] eqn:E; [|discriminate].
    intros H. inversion H; subst.
    change (c :: s ++ rest) with ((c :: s) ++ rest).
    now rewrite (@scan_unsigned_app _ _ _ _ Hr E).
Qed.

Lemma scan_fraction_app s rest f r :
  number_end rest ->
  scan_fraction s = (f, r) -> scan_fraction (s ++ rest) = (f, r ++ rest).
Proof.
  intros Hr. destruct s as [|c s].
  - intros E. inversion E; subst. cbn.
    destruct rest as [|c r]; [reflexivity|]. cbn.
    apply number_char_false in Hr. destruct Hr as (_ & -> & _). reflexivity.
  - cbn [scan_fraction List.app]. destruct (Ascii.eqb c ".").
    + destruct (scan_digits s) as [d r'] eqn:Es.
      rewrite (@scan_digits_app _ _ (number_end_no_digit _ Hr) _ _ Es).
      destruct d; intros E; inversion E; subst; reflexivity.
    + intros E; inversion E; subst; reflexivity.
Qed.

Lemma scan_sign_app s rest b r :
  number_end rest ->
  scan_sign s = (b, r) -> scan_sign (s ++ rest) = (b, r ++ rest).
Proof.
  intros Hr. destruct s as [|c s].
  - intros E. inversion E; subst. cbn.
    destruct rest as [|c r]; [reflexivity|]. cbn.
    apply number_char_false in Hr. destruct Hr as (_ & _ & _ & _ & -> & ->).
    reflexivity.
  - cbn [scan_sign List.app].
    destruct (Ascii.eqb c "-"); [intros E; inversion E; reflexivity|].
    destruct (Ascii.eqb c "+"); intros E; inversion E; reflexivity.
Qed.

Lemma scan_exponent_app s rest x r :
  number_end rest ->
  scan_exponent s = (x, r) -> scan_exponent (s ++ rest) = (x, r ++ rest).
Proof.
  intros Hr. destruct s as [|c s].
  - intros E. inversion E; subst. cbn.
    destruct rest as [|c r]; [reflexivity|]. cbn.
    apply number_char_false in Hr. destruct Hr as (_ & _ & -> & -> & _).
    reflexivity.
  - cbn [scan_exponent List.app]. destruct (Ascii.eqb c "e" || Ascii.eqb c "E").
    + destruct (scan_sign s) as [neg r1] eqn:Eg.
      rewrite (@scan_sign_app _ _ _ _ Hr Eg).
      destruct (scan_digits r1) as [d r'] eqn:Es.
      rewrite (@scan_digits_app _ _ (number_end_no_digit _ Hr) _ _ Es).
      destruct d; intros E; inversion E; subst; reflexivity.
    + intros E; inversion E; subst; reflexivity.
Qed.

Lemma parse_number_app s rest v r :
  number_end rest ->
  parse_number s = Some (v, r) -> parse_number (s ++ rest) = Some (v, r ++ rest).
Proof.
  intros Hr. unfold parse_number.
  destruct (scan_integer s) as [[[neg d] r0]|] eqn:Ei; [|discriminate].
  rewrite (@scan_integer_app _ _ _ _ _ (number_end_no_digit _ Hr) Ei).
  destruct (scan_fraction r0) as [f r1] eqn:Ef.
  rewrite (@scan_fraction_app _ _ _ _ Hr Ef).
  destruct (scan_exponent r1) as [x r2] eqn:Ex.
  rewrite (@scan_exponent_app _ _ _ _ Hr Ex).
  destruct f, x; intros E; inversion E; subst; reflexivity.
Qed.

(** A number begins with a digit or with the minus sign. *)
Lemma parse_number_head s v r :
  parse_number s = Some (v, r) ->
  exists c s', s = c :: s' /\ (char_digit c <> None \/ c = "-"%char).
Proof.
  unfold parse_number, scan_integer, scan_unsigned.
  destruct s as [|c s]; [discriminate|]. intros H.
  exists c, s. split; [reflexivity|].
  destruct (Ascii.eqb c "-") eqn:Em; [right; now apply Ascii.eqb_eq|].
  left. destruct (Ascii.eqb c "0") eqn:E0.
  - apply Ascii.eqb_eq in E0. subst c. discriminate.
  - destruct (char_digit c); [discriminate | discriminate H].
Qed.

Lemma number_head_heads c :
  char_digit c <> None \/ c = "-"%char ->
  scalar_head c = true /\ value_head c = true.
Proof.
  destruct c as [[] [] [] [] [] [] [] []]; intros H; try (split; reflexivity);
    exfalso; (destruct H as [H|H]; [apply H; reflexivity | discriminate H]).
Qed.

(** What [parse_value] does on a text that begins as a number or as a
    name of a float. *)
Lemma parse_value_scalar f c r :
  scalar_head c = true ->
  parse_value (S f) (c :: r)
  = match parse_number (c :: r) with
    | Some x => Some x
    | None => parse_constant (c :: r)
    end.
Proof.
  unfold scalar_head. intros H. cbn [parse_value].
  destruct (Ascii.eqb c dquote); [discriminate|].
  destruct (Ascii.eqb c "["); [discriminate|].
  destruct (Ascii.eqb c "{"); [discriminate|].
  destruct (Ascii.eqb c "n"); [discriminate|].
  destruct (Ascii.eqb c "t"); [discriminate|].
  destruct (Ascii.eqb c "f"); [discriminate|].
  reflexivity.
Qed.


(** The text of an integer is read as that integer. *)
Lemma parse_number_int z : parse_number (dumps_int z) = Some (JInt z, []).
Proof.
  assert (Hpos : forall p,
             scan_unsigned (uint_chars (Pos.to_uint p)) = Some (Pos.to_uint p, [])).
  { intros p. destruct (pos_to_uint_head p) as (c & r & E & _ & H0 & Hd).
    unfold scan_unsigned. rewrite E, H0.
    destruct (char_digit c); [|congruence].
    rewrite <- E. rewrite <- (List.app_nil_r (uint_chars (Pos.to_uint p))).
    now rewrite scan_digits_uint. }
  destruct z as [|p|p]; cbn [dumps_int].
  - reflexivity.
  - unfold dumps_N. change (N.to_uint (N.pos p)) with (Pos.to_uint p).
    destruct (pos_to_uint_head p) as (c & r & E & Hm & _ & _).
    unfold parse_number, scan_integer. rewrite E, Hm, <- E, Hpos. cbn.
    change (N.of_uint (Pos.to_uint p)) with (Pos.of_uint (Pos.to_uint p)).
    now rewrite DecimalPos.Unsigned.of_to.
  - unfold dumps_N. change (N.to_uint (N.pos p)) with (Pos.to_uint p).
    unfold parse_number, scan_integer.
    change (Ascii.eqb "-" "-") with true. cbv iota.
    rewrite Hpos. cbn.
    change (N.of_uint (Pos.to_uint p)) with (Pos.of_uint (Pos.to_uint p)).
    now rewrite DecimalPos.Unsigned.of_to.
Qed.

(** *** The floats that are no numbers *)

Lemma float_nan_eq x : float_is_nan x = true -> x = nan.
Proof.
  unfold float_is_nan. intros H. rewrite <- (SF2Prim_Prim2SF x).
  destruct (Prim2SF x); try discriminate. reflexivity.
Qed.

Lemma float_infinity_eq x : PrimFloat.eqb x infinity = true -> x = infinity.
Proof.
  rewrite FloatAxioms.eqb_spec. intros H. rewrite <- (SF2Prim_Prim2SF x).
  change (Prim2SF infinity) with (S754_infinity false) in H.
  destruct (Prim2SF x) as [[]|[]| |[] m e]; try discriminate H; reflexivity.
Qed.

Lemma float_neg_infinity_eq x : PrimFloat.eqb x neg_infinity = true -> x = neg_infinity.
Proof.
  rewrite FloatAxioms.eqb_spec. intros H. rewrite <- (SF2Prim_Prim2SF x).
  change (Prim2SF neg_infinity) with (S754_infinity true) in H.
  destruct (Prim2SF x) as [[]|[]| |[] m e]; try discriminate H; reflexivity.
Qed.

(** *** Strings and white space *)

Lemma parse_chars_escape c s :
  parse_chars (escape_char c ++ s)
  = match parse_chars s with
    | Some (cs, r) => Some (c :: cs, r)
    | None => None
    end.
Proof.
  destruct c as [[] [] [] [] [] [] [] []]; cbn; reflexivity.
Qed.

Lemma parse_chars_dumps cs rest :
  parse_chars (flat_map escape_char cs ++ dquote :: rest) = Some (cs, rest).
Proof.
  induction cs as [|c cs IH]; simpl.
  - reflexivity.
  - rewrite <- List.app_assoc, parse_chars_escape, IH. reflexivity.
Qed.

Lemma ws_no_number c : is_ws c = true -> number_char c = false.
Proof.
  destruct c as [[] [] [] [] [] [] [] []]; intros H; try reflexivity; discriminate H.
Qed.

Lemma skip_ws_app ws s : forallb is_ws ws = true -> skip_ws (ws ++ s) = skip_ws s.
Proof.
  induction ws as [|c ws IH]; simpl; [reflexivity|].
  intros H. apply andb_true_iff in H. destruct H as [Hc Hws].
  rewrite Hc. auto.
Qed.

Lemma skip_ws_comma s : skip_ws (","%char :: s) = ","%char :: s.
Proof. reflexivity. Qed.

Lemma skip_ws_value c r : value_head c = true -> skip_ws (c :: r) = c :: r.
Proof.
  unfold value_head. intros H. simpl.
  destruct (is_ws c); [discriminate | reflexivity].
Qed.

Lemma value_head_not_bracket c : value_head c = true -> Ascii.eqb c "]" = false.
Proof.
  unfold value_head. destruct (is_ws c), (Ascii.eqb c "]"); simpl; congruence.
Qed.

Lemma parse_value_list f s c r :
  skip_ws s = c :: r -> Ascii.eqb c "]" = false ->
  parse_value (S f) ("["%char :: s)
  = match parse_elements f (c :: r) with
    | Some (vs, r') => Some (JList vs, r')
    | None => None
    end.
Proof.
  intros E N. cbn [parse_value].
  change (Ascii.eqb "[" dquote) with false. change (Ascii.eqb "[" "[") with true.
  cbv iota. rewrite E, N. reflexivity.
Qed.

Lemma parse_value_dict f s c r :
  skip_ws s = c :: r -> Ascii.eqb c "}" = false ->
  parse_value (S f) ("{"%char :: s)
  = match parse_members f (c :: r) with
    | Some (kvs, r') => Some (JDict kvs, r')
    | None => None
    end.
Proof.
  intros E N. cbn [parse_value].
  change (Ascii.eqb "{" dquote) with false. change (Ascii.eqb "{" "[") with false.
  change (Ascii.eqb "{" "{") with true.
  cbv iota. rewrite E, N. reflexivity.
Qed.

Lemma number_end_ws_or tail c rest :
  forallb is_ws tail = true -> number_char c = false ->
  number_end (tail ++ c :: rest).
Proof.
  destruct tail as [|t tail]; simpl; [auto|].
  intros H _. apply andb_true_iff in H. destruct H as [H _].
  now apply ws_no_number.
Qed.

Lemma join_with_cons2 sep (x y : text) l :
  join_with sep (x :: y :: l) = x ++ sep ++ join_with sep (y :: l).
Proof. reflexivity. Qed.

(** *** Values *)

Section ReadingBack.

Context {R : Runtime}.

(** A text that is read as a value begins as a value does. *)
Lemma parsed_head fuel c r v rest :
  parse_value fuel (c :: r) = Some (v, rest) -> value_head c = true.
Proof.
  destruct fuel as [|f]; [discriminate|].
  destruct c as [[] [] [] [] [] [] [] []]; intros H; try reflexivity;
    exfalso; cbn in H; discriminate H.
Qed.

Lemma reads_back_head v :
  reads_back v -> exists c r, json_dumps v = c :: r /\ value_head c = true.
Proof.
  intros H. specialize (H (List.length (json_dumps v)) [] (le_n _) I).
  rewrite List.app_nil_r in H.
  destruct (json_dumps v) as [|c r]; [discriminate H|].
  exists c, r. split; [reflexivity|]. exact (parsed_head _ _ _ H).
Qed.

Lemma join_with_head sep (v : json) l :
  reads_back v ->
  exists c r, join_with sep (map json_dumps (v :: l)) = c :: r /\ value_head c = true.
Proof.
  intros Hv. destruct (reads_back_head Hv) as (c & r & E & Hc).
  destruct l; cbn [map join_with]; rewrite E; eexists _, _; split;
    try reflexivity; exact Hc.
Qed.

(** The elements of a list, a comma and white space between them, white
    space and the closing bracket after them. *)
Lemma parse_elements_join sep tail l :
  forallb is_ws sep = true -> forallb is_ws tail = true ->
  Forall reads_back l -> l <> [] ->
  forall fuel rest,
    S (List.length (join_with (","%char :: sep) (map json_dumps l))) <= fuel ->
    parse_elements fuel
      (join_with (","%char :: sep) (map json_dumps l) ++ tail ++ "]"%char :: rest)
    = Some (l, rest).
Proof.
  intros Hsep Htail HP. induction HP as [|v l Hv HP IH]; intros Hne; [congruence|].
  intros fuel rest Hf.
  destruct fuel as [|f]; [lia|].
  destruct l as [|v' l'].
  - cbn [map join_with] in *. cbn [parse_elements].
    rewrite Hv; [| lia | now apply number_end_ws_or].
    rewrite skip_ws_app by assumption. reflexivity.
  - cbn [map] in Hf |- *. rewrite join_with_cons2 in Hf. rewrite join_with_cons2.
    cbn [parse_elements].
    rewrite !length_app in Hf. cbn [List.length] in Hf.
    rewrite <- !List.app_assoc.
    rewrite Hv; [| lia | reflexivity].
    rewrite <- List.app_comm_cons, skip_ws_comma.
    change (Ascii.eqb "," "]") with false. change (Ascii.eqb "," ",") with true.
    cbv iota.
    rewrite skip_ws_app by assumption.
    change (json_dumps v' :: map json_dumps l') with (map json_dumps (v' :: l'))
      in Hf |- *.
    destruct (@join_with_head (","%char :: sep) v' l') as (c & r' & Hj & Hc).
    { now inversion HP. }
    rewrite Hj. rewrite <- List.app_comm_cons. rewrite skip_ws_value by assumption.
    rewrite List.app_comm_cons.
    rewrite <- Hj. rewrite IH; [reflexivity | discriminate | lia].
Qed.

Lemma parse_members_step f k v rest :
  reads_back v -> List.length (json_dumps v) <= f -> number_end rest ->
  parse_members (S f) (dumps_str k ++ txt ": " ++ json_dumps v ++ rest)
  = match skip_ws rest with
    | c :: r' =>
        if Ascii.eqb c "}" then Some ([(k, v)], r')
        else if Ascii.eqb c "," then
          match parse_members f (skip_ws r') with
          | Some (kvs, r'') => Some ((k, v) :: kvs, r'')
          | None => None
          end
        else None
    | [] => None
    end.
Proof.
  intros Hv Hf HR.
  unfold dumps_str. rewrite <- !List.app_comm_cons. cbn [parse_members].
  change (Ascii.eqb dquote dquote) with true. cbv iota.
  rewrite <- !List.app_assoc. rewrite <- List.app_comm_cons. rewrite List.app_nil_l.
  rewrite parse_chars_dumps.
  change (txt ": " ++ json_dumps v ++ rest)
    with (":"%char :: " "%char :: json_dumps v ++ rest).
  change (skip_ws (":"%char :: " "%char :: json_dumps v ++ rest))
    with (":"%char :: " "%char :: json_dumps v ++ rest).
  change (Ascii.eqb ":" ":") with true. cbv iota.
  change (skip_ws (" "%char :: json_dumps v ++ rest))
    with (skip_ws (json_dumps v ++ rest)).
  destruct (reads_back_head Hv) as (c & r & E & Hc).
  rewrite E at 1. rewrite <- List.app_comm_cons. rewrite skip_ws_value by assumption.
  rewrite List.app_comm_cons, <- E.
  rewrite Hv by assumption.
  rewrite string_of_list_ascii_of_string. reflexivity.
Qed.

Lemma parse_members_join l :
  Forall (fun kv : string * json => reads_back (snd kv)) l -> l <> [] ->
  forall fuel rest,
    S (List.length
         (join_items
            (map (fun kv => dumps_str (fst kv) ++ txt ": " ++ json_dumps (snd kv)) l)))
    <= fuel ->
    parse_members fuel
      (join_items
         (map (fun kv => dumps_str (fst kv) ++ txt ": " ++ json_dumps (snd kv)) l)
       ++ "}"%char :: rest)
    = Some (l, rest).
Proof.
  intros HP. induction HP as [|[k v] l Hv HP IH]; intros Hne; [congruence|].
  intros fuel rest Hf.
  destruct fuel as [|f]; [lia|].
  unfold join_items in *.
  destruct l as [|[k' v'] l'].
  - cbn [map join_with fst snd] in *.
    rewrite !length_app in Hf.
    rewrite <- !List.app_assoc.
    rewrite parse_members_step; [| assumption | lia | reflexivity].
    reflexivity.
  - cbn [map fst snd] in Hf |- *. rewrite join_with_cons2 in Hf. rewrite join_with_cons2.
    rewrite !length_app in Hf.
    rewrite <- !List.app_assoc.
    rewrite parse_members_step; [| assumption | lia | reflexivity].
    change (txt ", " ++ ?x) with (","%char :: " "%char :: x).
    rewrite skip_ws_comma.
    change (Ascii.eqb "," "}") with false. change (Ascii.eqb "," ",") with true.
    cbv iota.
    match goal with |- context [skip_ws (" "%char :: ?x)] =>
      change (skip_ws (" "%char :: x)) with (skip_ws x) end.
    change ((dumps_str k' ++ txt ": " ++ json_dumps v') ::
            map (fun kv => dumps_str (fst kv) ++ txt ": " ++ json_dumps (snd kv)) l')
      with (map (fun kv => dumps_str (fst kv) ++ txt ": " ++ json_dumps (snd kv))
              ((k', v') :: l')) in Hf |- *.
    match goal with |- context [join_with ?sep ?items ++ _] =>
      assert (Hj : exists r', join_with sep items = dquote :: r')
    end.
    { destruct l'; cbn [map join_with fst snd]; unfold dumps_str;
        rewrite <- !List.app_comm_cons; eexists; reflexivity. }
    destruct Hj as [r' Hj].
    rewrite Hj. rewrite <- List.app_comm_cons.
    rewrite skip_ws_value by reflexivity.
    rewrite List.app_comm_cons, <- Hj.
    rewrite IH; [reflexivity | discriminate |].
    change (List.length (txt ", ")) with 2 in Hf. lia.
Qed.

Lemma json_ind_nested (P : json -> Prop) :
  P JNull -> (forall b, P (JBool b)) -> (forall z, P (JInt z)) ->
  (forall x, P (JFloat x)) -> (forall s, P (JStr s)) ->
  (forall l, Forall P l -> P (JList l)) ->
  (forall l, Forall (fun kv : string * json => P (snd kv)) l -> P (JDict l)) ->
  forall v, P v.
Proof.
  intros Hnull Hbool Hint Hfloat Hstr Hlist Hdict.
  fix IH 1. intros [|b|z|x|s|l|l].
  - exact Hnull.
  - apply Hbool.
  - apply Hint.
  - apply Hfloat.
  - apply Hstr.
  - apply Hlist. induction l as [|v l IHl]; constructor; [apply IH | exact IHl].
  - apply Hdict. induction l as [|[k v] l IHl]; constructor; [apply IH | exact IHl].
Qed.

(** The text of a number is read as the number it is read as alone. *)
Lemma parse_value_number_text t v fuel rest :
  parse_number t = Some (v, []) -> List.length t <= fuel -> number_end rest ->
  parse_value fuel (t ++ rest) = Some (v, rest).
Proof.
  intros Ht Hf Hr.
  destruct (@parse_number_head _ _ _ Ht) as (c & t' & -> & Hc).
  destruct fuel as [|f]; [simpl in Hf; lia|].
  rewrite <- List.app_comm_cons.
  rewrite parse_value_scalar by (apply number_head_heads; exact Hc).
  rewrite List.app_comm_cons, (@parse_number_app _ _ _ _ Hr Ht). reflexivity.
Qed.

(** A float is read back from its text when [repr] does its part. *)
Lemma float_reads_back_value x : float_reads_back x -> reads_back (JFloat x).
Proof.
  intros Hx fuel rest Hf Hr. cbn [json_dumps] in Hf |- *. unfold dumps_float in *.
  destruct (float_is_nan x) eqn:Hn.
  { rewrite (@float_nan_eq _ Hn).
    destruct fuel as [|f]; [simpl in Hf; lia | reflexivity]. }
  destruct (PrimFloat.eqb x infinity) eqn:Hi.
  { rewrite (@float_infinity_eq _ Hi).
    destruct fuel as [|f]; [simpl in Hf; lia | reflexivity]. }
  destruct (PrimFloat.eqb x neg_infinity) eqn:Hm.
  { rewrite (@float_neg_infinity_eq _ Hm).
    destruct fuel as [|f]; [simpl in Hf; lia | reflexivity]. }
  apply parse_value_number_text; auto.
Qed.

(** Every value is read back from its text, when its floats are. *)
Lemma json_reads_back v : Forall float_reads_back (floats_of v) -> reads_back v.
Proof.
  induction v as [|b|z|x|s|l IH|l IH] using json_ind_nested; intros Hfl.
  - intros fuel rest Hf Hr.
    destruct fuel as [|f]; [simpl in Hf; lia | reflexivity].
  - intros fuel rest Hf Hr.
    destruct fuel as [|f]; [destruct b; simpl in Hf; lia | destruct b; reflexivity].
  - intros fuel rest Hf Hr. cbn [json_dumps] in Hf |- *.
    apply parse_value_number_text; auto. apply parse_number_int.
  - apply float_reads_back_value. now inversion Hfl.
  - intros fuel rest Hf Hr.
    destruct fuel as [|f]; [simpl in Hf; lia|].
    cbn [json_dumps]. unfold dumps_str. rewrite <- !List.app_comm_cons.
    cbn [parse_value]. change (Ascii.eqb dquote dquote) with true. cbv iota.
    rewrite <- List.app_assoc, <- List.app_comm_cons, List.app_nil_l.
    rewrite parse_chars_dumps, string_of_list_ascii_of_string. reflexivity.
  - assert (HP : Forall reads_back l).
    { cbn [floats_of] in Hfl. apply Forall_flat_map in Hfl.
      rewrite Forall_forall in *. intros v Hv. apply IH; auto. }
    clear IH Hfl. intros fuel rest Hf Hr.
    destruct fuel as [|f]; [simpl in Hf; lia|].
    cbn [json_dumps] in Hf |- *.
    change (txt "[" ++ ?x) with ("["%char :: x) in Hf |- *.
    rewrite <- List.app_comm_cons, <- List.app_assoc.
    change (txt "]" ++ rest) with ("]"%char :: rest).
    cbn [List.length] in Hf. rewrite length_app in Hf. cbn [List.length txt] in Hf.
    destruct l as [|v l].
    + reflexivity.
    + destruct (@join_with_head (txt ", ") v l) as (c & r' & Hj & Hc).
      { now inversion HP. }
      change (join_with (txt ", ")) with join_items in Hj.
      rewrite (@parse_value_list f _ c (r' ++ "]"%char :: rest)).
      * rewrite List.app_comm_cons, <- Hj.
        change (parse_elements f (join_items (map json_dumps (v :: l)) ++ "]"%char :: rest))
          with (parse_elements f
                  (join_with (","%char :: [" "%char]) (map json_dumps (v :: l))
                   ++ [] ++ "]"%char :: rest)).
        rewrite parse_elements_join;
          [reflexivity | reflexivity | reflexivity | assumption | discriminate |].
        change (join_with (","%char :: [" "%char])) with join_items.
        change (List.length (txt "]")) with 1 in Hf. lia.
      * rewrite Hj, <- List.app_comm_cons. now apply skip_ws_value.
      * now apply value_head_not_bracket.
  - assert (HP : Forall (fun kv : string * json => reads_back (snd kv)) l).
    { cbn [floats_of] in Hfl. apply Forall_flat_map in Hfl.
      rewrite Forall_forall in *. intros kv Hkv. apply IH; auto. }
    clear IH Hfl. intros fuel rest Hf Hr.
    destruct fuel as [|f]; [simpl in Hf; lia|].
    cbn [json_dumps] in Hf |- *.
    change (txt "{" ++ ?x) with ("{"%char :: x) in Hf |- *.
    rewrite <- List.app_comm_cons, <- List.app_assoc.
    change (txt "}" ++ rest) with ("}"%char :: rest).
    cbn [List.length] in Hf. rewrite length_app in Hf. cbn [List.length txt] in Hf.
    destruct l as [|[k v] l].
    + reflexivity.
    + match goal with |- context [join_items ?items ++ _] =>
        assert (Hj : exists r', join_items items = dquote :: r')
      end.
      { unfold join_items. destruct l; cbn [map join_with fst snd]; unfold dumps_str;
          rewrite <- !List.app_comm_cons; eexists; reflexivity. }
      destruct Hj as [r' Hj].
      rewrite (@parse_value_dict f _ dquote (r' ++ "}"%char :: rest)).
      * rewrite List.app_comm_cons, <- Hj.
        rewrite parse_members_join; [reflexivity | assumption | discriminate |].
        change (List.length (txt "}")) with 1 in Hf. lia.
      * rewrite Hj, <- List.app_comm_cons. reflexivity.
      * reflexivity.
Qed.

(** A log of one record or more is read back as the list of its records. *)
Lemma json_loads_log_text rs :
  rs <> [] -> Forall reads_back rs ->
  json_loads (log_text (map json_dumps rs)) = Some (JList rs).
Proof.
  intros Hne HP. unfold json_loads, log_text, log_lines.
  change (txt "[" ++ [nl] ++ txt "    " ++ ?x) with ("["%char :: nl :: txt "    " ++ x).
  rewrite skip_ws_value by reflexivity.
  destruct rs as [|v l]; [congruence|].
  set (sep := txt "," ++ [nl] ++ txt "    ").
  destruct (@join_with_head sep v l) as (c & r' & Hj & Hc).
  { now inversion HP. }
  match goal with |- context [parse_value (S ?n) _] => remember n as fuel eqn:Efuel end.
  rewrite (@parse_value_list _ _ c (r' ++ close_str)).
  - rewrite List.app_comm_cons, <- Hj.
    change close_str with ([nl] ++ "]"%char :: [nl]).
    subst sep.
    change (txt "," ++ [nl] ++ txt "    ") with (","%char :: (nl :: txt "    ")) in *.
    rewrite parse_elements_join;
      [reflexivity | reflexivity | reflexivity | assumption | discriminate |].
    subst fuel. cbn [List.length]. rewrite !length_app. cbn [List.length]. lia.
  - change (nl :: txt "    " ++ ?x) with ((nl :: txt "    ") ++ x).
    rewrite skip_ws_app by reflexivity.
    rewrite Hj, <- List.app_comm_cons. now apply skip_ws_value.
  - now apply value_head_not_bracket.
Qed.

(** The text the trainer writes for a record is the text of the dict the
    record is. *)
Lemma dumps_log_dict_json (d : log_dict) :
  dumps_log_dict d = json_dumps (json_of_log_dict d).
Proof.
  unfold dumps_log_dict, json_of_log_dict. cbn [json_dumps map fst snd].
  unfold join_items. cbn [join_with]. rewrite <- !List.app_assoc. reflexivity.
Qed.

End ReadingBack.

(** ** Sessions of the writer *)

Lemma firstn_length_app A (x y : list A) : firstn (List.length x) (x ++ y) = x.
Proof.
  rewrite firstn_app, Nat.sub_diag, firstn_all. simpl. apply List.app_nil_r.
Qed.

Lemma join_with_snoc sep (ds : list text) d :
  ds <> [] -> join_with sep (ds ++ [d]) = join_with sep ds ++ sep ++ d.
Proof.
  induction ds as [|x ds IH]; [congruence|]. intros _.
  destruct ds as [|y ds].
  - reflexivity.
  - change ((x :: y :: ds) ++ [d]) with (x :: (y :: ds) ++ [d]).
    change ((y :: ds) ++ [d]) with (y :: (ds ++ [d])) at 1.
    rewrite join_with_cons2.
    change (y :: ds ++ [d]) with ((y :: ds) ++ [d]).
    rewrite IH by discriminate. rewrite join_with_cons2.
    now rewrite <- !List.app_assoc.
Qed.


Section SessionFacts.

Context {T : Torch}.


Lemma close_clean (Obj : Type) filename (enc : Obj -> text)
  (self : StreamingJSONWriter Obj) (w : World) :
  writer_on filename enc self ->
  exists self', close self w = (w, Ok self').
Proof.
  intros (Hp & Hcl & Hpe & He).
  unfold close, file_close, bind. rewrite Hcl.
  rewrite (file_flush_clean _ w Hcl Hpe). unfold ret. eauto.
Qed.





End SessionFacts.




(** The texts [repr] writes for some floats are read as these floats: the
    reading rounds to the nearest float, and to the even one half way
    between two. *)
Lemma repr_texts_read_back :
  map (fun s => parse_number (txt s))
    ["0.1"; "0.30000000000000004"; "4998.5"; "1e+22"; "1e-07"; "-2.5";
     "1.7976931348623157e+308"; "5e-324"; "9007199254740993.0"]%string
  = map (fun x => Some (JFloat x, []))
      [0x1.999999999999ap-4; 0x1.3333333333334p-2; 0x1.3868p+12;
       0x1.0f0cf064dd592p+73; 0x1.ad7f29abcaf48p-24; -0x1.4p+1;
       0x1.fffffffffffffp+1023; 0x0.0000000000001p-1022; 0x1p+53]%float.
Proof. vm_compute. reflexivity. Qed.


(** ** The order of the floats *)

Lemma SFcompare_refl x : x <> S754_nan -> SFcompare x x = Some Eq.
Proof.
  destruct x as [s|s| |s m e]; simpl; try congruence; intros _.
  - destruct s; reflexivity.
  - rewrite Z.compare_refl. change (Pos.compare_cont Eq m m) with (Pos.compare m m).
    rewrite Pos.compare_refl. destruct s; reflexivity.
Qed.

Lemma SFcompare_antisym x y :
  SFcompare y x = option_map CompOpp (SFcompare x y).
Proof.
  destruct x as [s1|s1| |s1 m1 e1], y as [s2|s2| |s2 m2 e2]; simpl; try reflexivity;
    try (destruct s1; reflexivity); try (destruct s2; reflexivity);
    try (destruct s1, s2; reflexivity).
  destruct s1, s2; simpl; try reflexivity;
    rewrite (Z.compare_antisym e1 e2);
    change (Pos.compare_cont Eq m2 m1) with (Pos.compare m2 m1);
    change (Pos.compare_cont Eq m1 m2) with (Pos.compare m1 m2);
    rewrite (Pos.compare_antisym m1 m2);
    destruct (e1 ?= e2)%Z; simpl; try reflexivity;
    destruct (m1 ?= m2)%positive; reflexivity.
Qed.

Lemma SFcompare_total x y :
  x <> S754_nan -> y <> S754_nan -> exists c, SFcompare x y = Some c.
Proof.
  destruct x, y; simpl; try congruence; eauto.
Qed.

Lemma SFcompare_nan_l x y c : SFcompare x y = Some c -> x <> S754_nan /\ y <> S754_nan.
Proof.
  destruct x, y; simpl; intros H; split; congruence.
Qed.

(** The comparison is a total preorder on the numbers: below or equal, then
    below or equal, gives below or equal, strictly if one step is strict. *)
Lemma SFcompare_trans x y z c1 c2 :
  SFcompare x y = Some c1 -> SFcompare y z = Some c2 ->
  c1 <> Gt -> c2 <> Gt ->
  SFcompare x z = Some (match c1 with Eq => c2 | _ => Lt end).
Proof.
  destruct x as [s1|s1| |s1 m1 e1], y as [s2|s2| |s2 m2 e2], z as [s3|s3| |s3 m3 e3];
    simpl; try congruence;
    repeat match goal with s : bool |- _ => destruct s end; simpl;
    intros H1 H2; inversion H1; inversion H2; subst; simpl; try congruence.
  all: try (intros; simpl in *; congruence).
  all: change (PosDef.Pos.compare_cont Eq) with Pos.compare in *.
  all: clear H1 H2.
  all: repeat match goal with
       | |- context [Z.compare ?a ?b] => destruct (Z.compare_spec a b); subst
       | |- context [Pos.compare ?a ?b] => destruct (Pos.compare_spec a b); subst
       end; simpl; intros; try congruence; try lia.
Qed.

Lemma float_is_nan_spec x : float_is_nan x = false <-> Prim2SF x <> S754_nan.
Proof.
  unfold float_is_nan. destruct (Prim2SF x); split; congruence.
Qed.

Lemma float_lt_spec x y : float_lt x y = true <-> SFcompare (Prim2SF x) (Prim2SF y) = Some Lt.
Proof.
  unfold float_lt. rewrite FloatAxioms.ltb_spec. unfold SFltb.
  destruct (SFcompare _ _) as [[]|]; split; congruence.
Qed.

Lemma float_le_spec x y :
  float_le x y = true <->
  exists c, SFcompare (Prim2SF x) (Prim2SF y) = Some c /\ c <> Gt.
Proof.
  unfold float_le. rewrite FloatAxioms.leb_spec. unfold SFleb.
  destruct (SFcompare _ _) as [[]|]; split; intros H;
    try (eexists; split; [reflexivity | congruence]); try reflexivity;
    try discriminate; destruct H as (c & E & N); congruence.
Qed.

Lemma float_lt_not_nan x y :
  float_lt x y = true -> float_is_nan x = false /\ float_is_nan y = false.
Proof.
  rewrite float_lt_spec, !float_is_nan_spec. apply SFcompare_nan_l.
Qed.

Lemma float_lt_le x y : float_lt x y = true -> float_le x y = true.
Proof.
  rewrite float_lt_spec, float_le_spec. intros H. exists Lt. split; congruence.
Qed.

Lemma float_le_refl x : float_is_nan x = false -> float_le x x = true.
Proof.
  rewrite float_is_nan_spec, float_le_spec. intros H. exists Eq.
  split; [now apply SFcompare_refl | congruence].
Qed.

Lemma float_le_trans x y z :
  float_le x y = true -> float_le y z = true -> float_le x z = true.
Proof.
  rewrite !float_le_spec. intros (c1 & E1 & N1) (c2 & E2 & N2).
  rewrite (SFcompare_trans _ _ _ E1 E2 N1 N2). eexists. split; [reflexivity|].
  destruct c1; congruence.
Qed.

Lemma float_lt_trans x y z :
  float_lt x y = true -> float_lt y z = true -> float_lt x z = true.
Proof.
  rewrite !float_lt_spec. intros E1 E2.
  rewrite (SFcompare_trans _ _ _ E1 E2); [reflexivity | congruence | congruence].
Qed.

Lemma float_lt_le_trans x y z :
  float_lt x y = true -> float_le y z = true -> float_lt x z = true.
Proof.
  rewrite !float_lt_spec, float_le_spec. intros E1 (c2 & E2 & N2).
  rewrite (SFcompare_trans _ _ _ E1 E2); [reflexivity | congruence | assumption].
Qed.

Lemma float_not_lt_le x y :
  float_is_nan x = false -> float_is_nan y = false ->
  float_lt x y = false -> float_le y x = true.
Proof.
  rewrite !float_is_nan_spec, float_le_spec. intros Hx Hy Hlt.
  destruct (SFcompare_total Hx Hy) as [c E].
  rewrite SFcompare_antisym, E. simpl.
  destruct c.
  - exists Eq. split; [reflexivity | congruence].
  - apply float_lt_spec in E. congruence.
  - exists Lt. split; [reflexivity | congruence].
Qed.

(** ** The epoch loop *)

Lemma best_tracks_initial : best_tracks [] initial_best_val_loss.
Proof.
  split; [reflexivity|]. intros x. unfold improves. simpl. now rewrite andb_true_r.
Qed.

Lemma improves_snoc prior v x :
  improves (prior ++ [v]) x = improves prior x && (float_lt x v || float_is_nan v).
Proof.
  unfold improves. rewrite forallb_app. simpl. rewrite andb_true_r.
  now rewrite andb_assoc.
Qed.

(** One epoch more: the best moves to the loss when the loss is below it. *)
Lemma best_tracks_step prior best v :
  best_tracks prior best ->
  best_tracks (prior ++ [v]) (if float_lt v best then v else best).
Proof.
  intros [Hnan Hb]. destruct (float_lt v best) eqn:Hv.
  - destruct (float_lt_not_nan Hv) as [Hvn _].
    split; [exact Hvn|]. intros x. rewrite improves_snoc, <- Hb, Hvn, orb_false_r.
    destruct (float_lt x v) eqn:Hx.
    + now rewrite (float_lt_trans Hx Hv).
    + now rewrite andb_false_r.
  - split; [exact Hnan|]. intros x. rewrite improves_snoc, <- Hb.
    destruct (float_lt x best) eqn:Hx; [|reflexivity]. simpl.
    destruct (float_is_nan v) eqn:Hvn; [now rewrite orb_true_r|].
    rewrite orb_false_r. symmetry.
    apply (float_lt_le_trans Hx). now apply float_not_lt_le.
Qed.

Section LoopFacts.

Context {T : Torch} {R : Runtime}.

Lemma bind_inv_ok A B (m : M A) (k : A -> M B) w w' b :
  bind m k w = (w', Ok b) ->
  exists w1 a, m w = (w1, Ok a) /\ k a w1 = (w', Ok b).
Proof.
  unfold bind. destruct (m w) as [w1 [a|e]]; [eauto | discriminate].
Qed.

Lemma file_flush_inv (f f' : pyfile) (w w' : World) :
  file_flush f w = (w', Ok f') ->
  trace w' = trace w /\ f_path f' = f_path f.
Proof.
  unfold file_flush. destruct (f_closed f); [discriminate|].
  destruct (f_pending f) as [|c s].
  - intros H. inversion H; subst. auto.
  - intros H.
    apply bind_inv_ok in H. destruct H as (w1 & a & E1 & H).
    apply bind_inv_ok in H. destruct H as (w2 & d & E2 & H).
    apply bind_inv_ok in H. destruct H as (w3 & [] & E3 & H).
    unfold get in E1. inversion E1; subst w1 a.
    unfold lift in E2. inversion E2; subst w2.
    unfold on_fs in E3. destruct (fs_store _ _ _); inversion E3; subst w3.
    unfold ret in H. inversion H; subst. auto.
Qed.

Lemma dump_inv (Obj : Type) (self self' : StreamingJSONWriter Obj) obj (w w' : World) :
  dump self obj w = (w', Ok self') ->
  trace w' = trace w ++
             [FileWrite (f_path (file self))
                (dump_text (delimeter self) (encoder self obj))] /\
  f_path (file self') = f_path (file self) /\
  encoder self' = encoder self.
Proof.
  unfold dump. intros H.
  apply bind_inv_ok in H. destruct H as (w1 & [f1 e1] & E1 & H).
  apply bind_inv_ok in H. destruct H as (w2 & [f2 e2] & E2 & H).
  apply bind_inv_ok in H. destruct H as (w3 & f3 & E3 & H).
  apply bind_inv_ok in H. destruct H as (w4 & f4 & E4 & H).
  unfold ret in H. inversion H; subst w4 self'. clear H. cbn [file encoder].
  unfold file_seek_end in E1.
  apply bind_inv_ok in E1. destruct E1 as (wa & fa & Ea & E1).
  apply file_flush_inv in Ea. destruct Ea as [Ta Pa].
  apply bind_inv_ok in E1. destruct E1 as (wb & x & Eb & E1).
  unfold get in Eb. inversion Eb; subst wb x. clear Eb.
  apply bind_inv_ok in E1. destruct E1 as (wc & d & Ec & E1).
  unfold lift in Ec. inversion Ec; subst wc. clear Ec.
  unfold ret in E1. inversion E1; subst w1 f1 e1. clear E1.
  unfold file_seek in E2.
  apply bind_inv_ok in E2. destruct E2 as (wd & fd & Ed & E2).
  apply file_flush_inv in Ed. destruct Ed as [Td Pd]. cbn [f_path] in Pd.
  destruct (Z.ltb _ 0); [discriminate|].
  unfold ret in E2. inversion E2; subst w2 f2 e2. clear E2.
  unfold file_write in E3. cbn [f_closed f_path f_pending] in E3.
  apply bind_inv_ok in E3. destruct E3 as (we & [] & Ee & E3).
  unfold emit, modify in Ee. inversion Ee; subst we. clear Ee.
  unfold ret in E3. inversion E3; subst w3 f3. clear E3.
  apply file_flush_inv in E4. destruct E4 as [T4 P4]. cbn [f_path trace set_trace] in *.
  repeat split.
  - rewrite T4, Td, Ta. unfold dump_text. rewrite Pd, Pa. reflexivity.
  - congruence.
Qed.

Lemma torch_save_inv obj f (w w' : World) :
  torch_save obj f w = (w', Ok tt) -> trace w' = trace w ++ [TorchSave obj f].
Proof.
  unfold torch_save. intros H.
  apply bind_inv_ok in H. destruct H as (w1 & [] & E1 & H).
  unfold on_fs in E1. destruct (fs_alter _ _ _); inversion E1; subst w1.
  unfold emit, modify in H. inversion H; subst. reflexivity.
Qed.

(** What an epoch that ends well adds to the trace. *)
Lemma train_epoch_inv tlf vlf std mean tl vl jsonlog best epoch
  (w w' : World) jsonlog' best' :
  train_epoch tlf vlf std mean tl vl (jsonlog, best) epoch w
  = (w', Ok (jsonlog', best')) ->
  exists row,
    Epoch row = (epoch + 1)%Z /\
    f_path (file jsonlog') = f_path (file jsonlog) /\
    encoder jsonlog' = encoder jsonlog /\
    best' = (if float_lt (val_loss row) best then val_loss row else best) /\
    exists m o s b,
      trace w' = trace w ++
        LoggerInfo (EpochSummary (Epoch row) (train_loss row) (val_loss row)
                      (train_time row) (val_time row)) ::
        (if float_lt (val_loss row) best then
           [TorchSave (Checkpoint (epoch + 1) m o s (val_loss row))
              (checkpath ++ [checkpoint_name epoch (val_loss row)]);
            FileWrite (f_path (file jsonlog))
              (dump_text (delimeter jsonlog) (encoder jsonlog row));
            TorchSave (BestModel b) (outpath ++ ["best-model.pt"%string])]
         else []).
Proof.
  unfold train_epoch. intros H.
  destruct (@train_one_step_spec _ _ tlf std mean tl w)
    as (w1 & r1 & E1 & _ & T1 & _).
  apply bind_inv_ok in H. destruct H as (w1' & [tloss ttime] & E1' & H).
  rewrite E1 in E1'. inversion E1'; subst w1' r1. clear E1'.
  destruct (@validate_one_step_spec _ _ vlf std mean vl w1)
    as (w2 & r2 & E2 & _ & T2 & _).
  apply bind_inv_ok in H. destruct H as (w2' & [vloss vtime] & E2' & H).
  rewrite E2 in E2'. inversion E2'; subst w2' r2. clear E2'.
  apply bind_inv_ok in H. destruct H as (w3 & [] & E3 & H).
  assert (T3 : trace w3 = trace w2).
  { unfold scheduler_step, modify in E3. inversion E3.
    destruct (sched_step _ _). reflexivity. }
  apply bind_inv_ok in H. destruct H as (w4 & [] & E4 & H).
  unfold logger_info, emit, modify in E4. inversion E4; subst w4. clear E4.
  exists {| Epoch := epoch + 1; train_loss := tloss; val_loss := vloss;
            train_time := ttime; val_time := vtime |}.
  cbn [Epoch val_loss train_loss train_time val_time].
  destruct (float_lt vloss best) eqn:Hlt.
  - apply bind_inv_ok in H. destruct H as (w5 & x & E5 & H).
    unfold get in E5. inversion E5; subst w5 x. clear E5.
    apply bind_inv_ok in H. destruct H as (w6 & [] & E6 & H).
    apply torch_save_inv in E6.
    apply bind_inv_ok in H. destruct H as (w7 & jl & E7 & H).
    apply dump_inv in E7. destruct E7 as (T7 & P7 & N7).
    apply bind_inv_ok in H. destruct H as (w8 & x & E8 & H).
    unfold get in E8. inversion E8; subst w8 x. clear E8.
    apply bind_inv_ok in H. destruct H as (w9 & [] & E9 & H).
    apply torch_save_inv in E9.
    unfold ret in H. inversion H; subst w9 jsonlog' best'. clear H.
    split; [reflexivity|]. split; [exact P7|]. split; [exact N7|].
    split; [reflexivity|].
    do 4 eexists. rewrite E9, T7, E6. cbn [trace set_trace].
    rewrite T3, T2, T1. rewrite <- !List.app_assoc. reflexivity.
  - unfold ret in H. inversion H; subst.
    split; [reflexivity|]. split; [reflexivity|]. split; [reflexivity|].
    split; [reflexivity|].
    exists (as_dict true (state (model w))), (optim_state_dict (optimizer w)),
           (sched_state_dict (scheduler w)), (as_dict true (state (model w))).
    cbn [trace set_trace]. rewrite T3, T2, T1. reflexivity.
Qed.

End LoopFacts.

Section TrainFacts.

Context {T : Torch} {R : Runtime}.

Lemma epoch_rows_app (a b : list event) :
  epoch_rows (a ++ b) = epoch_rows a ++ epoch_rows b.
Proof.
  induction a as [|e a IH]; simpl; [reflexivity|].
  destruct e as [[]| |]; simpl; rewrite ?IH; reflexivity.
Qed.

Lemma saved_checkpoints_app (a b : list event) :
  saved_checkpoints (a ++ b) = saved_checkpoints a ++ saved_checkpoints b.
Proof.
  induction a as [|e a IH]; simpl; [reflexivity|].
  destruct e as [|[]|]; simpl; rewrite ?IH; reflexivity.
Qed.

Lemma file_writes_app (a b : list event) :
  file_writes (a ++ b) = file_writes a ++ file_writes b.
Proof.
  induction a as [|e a IH]; simpl; [reflexivity|].
  destruct e; simpl; rewrite ?IH; reflexivity.
Qed.

(** What an epoch loop that ends well adds to the trace. *)
Lemma train_epochs_inv tlf vlf std mean tl vl epochs :
  forall jsonlog best (w w' : World) jsonlog' best' prior,
    train_epochs tlf vlf std mean tl vl epochs (jsonlog, best) w
    = (w', Ok (jsonlog', best')) ->
    encoder jsonlog = dumps_log_dict ->
    best_tracks prior best ->
    exists evs,
      trace w' = trace w ++ evs /\
      map Epoch (epoch_rows evs) = map Z.succ epochs /\
      saved_checkpoints evs = map checkpoint_of (improving prior (epoch_rows evs)) /\
      Forall2 (is_log_write (f_path (file jsonlog)))
        (file_writes evs) (improving prior (epoch_rows evs)) /\
      best_tracks (prior ++ map val_loss (epoch_rows evs)) best'.
Proof.
  unfold train_epochs.
  induction epochs as [|epoch epochs IH];
    intros jsonlog best w w' jsonlog' best' prior H Henc Hbest.
  - simpl in H. unfold ret in H. inversion H; subst.
    exists []. rewrite !List.app_nil_r. simpl. repeat split; try constructor; apply Hbest.
  - cbn [for_each] in H.
    apply bind_inv_ok in H. destruct H as (w1 & [jl1 best1] & E1 & H).
    apply train_epoch_inv in E1.
    destruct E1 as (row & Hep & Hpath & Henc1 & Hb1 & m & o & s & b & Htr).
    assert (Hcond : float_lt (val_loss row) best = improves prior (val_loss row))
      by apply Hbest.
    specialize (IH jl1 best1 w1 w' jsonlog' best' (prior ++ [val_loss row]) H).
    destruct IH as (evs & Htr' & Hrows & Hsaved & Hwrites & Hbest').
    { congruence. }
    { subst best1. now apply best_tracks_step. }
    eexists. split; [rewrite Htr', Htr, <- List.app_assoc; reflexivity|].
    change (?x :: ?l) with ([x] ++ l).
    rewrite !epoch_rows_app, !saved_checkpoints_app, !file_writes_app.
    assert (Hrow : epoch_rows
                     [LoggerInfo (EpochSummary (Epoch row) (train_loss row)
                        (val_loss row) (train_time row) (val_time row))] = [row])
      by (destruct row; reflexivity).
    rewrite Hrow. clear Hrow.
    cbn [saved_checkpoints file_writes List.app].
    destruct (float_lt (val_loss row) best) eqn:Hlt;
      cbn [epoch_rows saved_checkpoints file_writes List.app map improving];
      rewrite <- Hcond; cbn [List.app map].
    + split; [rewrite Hep, Hrows; reflexivity|].
      split.
      { rewrite Hsaved. f_equal. unfold checkpoint_of. rewrite Hep.
        now rewrite Z.add_simpl_r. }
      split.
      { constructor.
        - split; [reflexivity|]. exists (delimeter jsonlog). cbn [snd].
          now rewrite Henc.
        - rewrite <- Hpath. exact Hwrites. }
      rewrite <- List.app_assoc in Hbest'. exact Hbest'.
    + split; [rewrite Hep, Hrows; reflexivity|].
      split; [exact Hsaved|].
      split; [rewrite <- Hpath; exact Hwrites|].
      rewrite <- List.app_assoc in Hbest'. exact Hbest'.
Qed.

End TrainFacts.

Section TrainTheorems.

Context {T : Torch} {R : Runtime}.

Lemma init_inv (Obj : Type) filename (enc : Obj -> text) (w w' : World) self :
  StreamingJSONWriter_init filename enc w = (w', Ok self) ->
  trace w' = trace w /\ f_path (file self) = filename /\ encoder self = enc.
Proof.
  unfold StreamingJSONWriter_init. intros H.
  apply bind_inv_ok in H. destruct H as (w1 & x & E1 & H).
  unfold get in E1. inversion E1; subst w1 x. clear E1.
  destruct (fs_exists filename (fs w)).
  - apply bind_inv_ok in H. destruct H as (w1 & f & E1 & H).
    unfold ret in H. inversion H; subst. clear H.
    unfold py_open in E1.
    apply bind_inv_ok in E1. destruct E1 as (w2 & x & E2 & E1).
    unfold get in E2. inversion E2; subst w2 x. clear E2.
    apply bind_inv_ok in E1. destruct E1 as (w2 & d & E2 & E1).
    unfold lift in E2. inversion E2; subst w2. clear E2.
    unfold ret in E1. inversion E1; subst. auto.
  - apply bind_inv_ok in H. destruct H as (w1 & f & E1 & H).
    unfold ret in H. inversion H; subst. clear H.
    unfold py_open in E1.
    apply bind_inv_ok in E1. destruct E1 as (w2 & [] & E2 & E1).
    unfold on_fs in E2. destruct (fs_create _ _); inversion E2; subst w2.
    unfold ret in E1. inversion E1; subst. auto.
Qed.

Lemma keeps_trace_reset_dirs : keeps trace reset_dirs.
Proof. unfold reset_dirs. keeps_tac. Qed.

Lemma keeps_trace_close (Obj : Type) (self : StreamingJSONWriter Obj) :
  keeps trace (close self).
Proof. unfold close, file_close, file_flush. keeps_tac. Qed.

Lemma improving_incl prior rows r : In r (improving prior rows) -> In r rows.
Proof.
  revert prior. induction rows as [|r0 rows IH]; intros prior; simpl; [tauto|].
  rewrite in_app_iff. intros [H|H].
  - destruct (improves prior (val_loss r0)); simpl in H; tauto.
  - right. eapply IH, H.
Qed.

(** Epoch by epoch: among rows numbered from [base + 1] on, the checkpoint
    of the epoch at position [k] is there exactly when its row improves. *)
Lemma improving_checkpoint_iff rows :
  forall prior base,
    (forall k r, nth_error rows k = Some r -> Epoch r = (Z.of_nat (base + k) + 1)%Z) ->
    forall k r,
      nth_error rows k = Some r ->
      ((exists l f, In ((Z.of_nat (base + k) + 1)%Z, l, f)
                      (map checkpoint_of (improving prior rows))) <->
       improves (prior ++ map val_loss (firstn k rows)) (val_loss r) = true).
Proof.
  induction rows as [|r0 rows IH]; intros prior base Hnum k r Hk.
  - destruct k; discriminate.
  - cbn [improving]. rewrite map_app.
    assert (Htail : forall l f j,
               In ((Z.of_nat (base + j) + 1)%Z, l, f)
                 (map checkpoint_of (improving (prior ++ [val_loss r0]) rows)) ->
               j <> 0).
    { intros l f j Hin ->. apply in_map_iff in Hin. destruct Hin as (r' & Hc & Hin).
      apply improving_incl, In_nth_error in Hin. destruct Hin as [j Hj].
      specialize (Hnum (S j) r' Hj). unfold checkpoint_of in Hc.
      inversion Hc. lia. }
    destruct k as [|k].
    + cbn [nth_error] in Hk. inversion Hk; subst r0. clear Hk.
      cbn [firstn map]. rewrite List.app_nil_r.
      split.
      * intros (l & f & Hin). apply in_app_iff in Hin. destruct Hin as [Hin|Hin].
        -- destruct (improves prior (val_loss r)); [reflexivity | destruct Hin].
        -- exfalso. exact (Htail l f 0 Hin eq_refl).
      * intros Himp. rewrite Himp. do 2 eexists. apply in_app_iff. left.
        left. unfold checkpoint_of. rewrite (Hnum 0 r eq_refl). reflexivity.
    + cbn [nth_error] in Hk. cbn [firstn map].
      replace (prior ++ val_loss r0 :: map val_loss (firstn k rows))
        with ((prior ++ [val_loss r0]) ++ map val_loss (firstn k rows))
        by (now rewrite <- List.app_assoc).
      replace (base + S k) with (S base + k) by lia.
      rewrite <- (IH (prior ++ [val_loss r0]) (S base)); [|
        intros j r' Hj; rewrite (Hnum (S j) r' Hj); f_equal; lia | exact Hk].
      split; intros (l & f & Hin); exists l, f.
      * apply in_app_iff in Hin. destruct Hin as [Hin|Hin]; [|exact Hin].
        exfalso. destruct (improves prior (val_loss r0)); [|destruct Hin].
        destruct Hin as [Hin|[]]. unfold checkpoint_of in Hin. inversion Hin.
        rewrite (Hnum 0 r0 eq_refl) in *. lia.
      * apply in_app_iff. now right.
Qed.

Lemma map_succ_range_nth rows n :
  map Epoch rows = map Z.succ (py_range n) ->
  forall k r, nth_error rows k = Some r -> Epoch r = (Z.of_nat (0 + k) + 1)%Z.
Proof.
  unfold py_range. intros H k r Hk.
  apply (map_nth_error Epoch) in Hk. rewrite H in Hk.
  rewrite map_map in Hk.
  destruct (nth_error (seq 0 (Z.to_nat n)) k) as [j|] eqn:Ej.
  - rewrite (map_nth_error _ _ _ Ej) in Hk. inversion Hk.
    assert (Hlt : k < List.length (seq 0 (Z.to_nat n))).
    { apply nth_error_Some. congruence. }
    rewrite length_seq in Hlt.
    apply nth_error_nth with (d := 0) in Ej. rewrite seq_nth in Ej by assumption.
    subst j. simpl. lia.
  - apply nth_error_None in Ej.
    assert (Hn : nth_error (map (fun x => Z.succ (Z.of_nat x)) (seq 0 (Z.to_nat n))) k
                 = None).
    { apply nth_error_None. now rewrite length_map. }
    congruence.
Qed.

(** C1, as the code has it: in a run of [train] that ends well, the rows
    told to the logger are those of the epochs 1 to [num_epochs]; the
    checkpoints saved, and the records written to the log, are those of the
    rows that improve, in their order: of the epochs whose validation loss
    is below the start value 1000.0 and below the loss of every epoch
    before that is a number.  Epoch by epoch, a checkpoint of epoch [k + 1]
    was saved exactly when the loss of that epoch improves on the losses of
    the epochs 1 to [k]. *)
Theorem checkpoints_at_improving_epochs (num_epochs : Z) tlf vlf std mean tl vl
  (logger_name : path) (w w' : World) :
  train num_epochs tlf vlf std mean tl vl logger_name w = (w', Ok tt) ->
  exists evs,
    trace w' = trace w ++ evs /\
    map Epoch (epoch_rows evs) = map Z.succ (py_range num_epochs) /\
    saved_checkpoints evs = map checkpoint_of (improving [] (epoch_rows evs)) /\
    Forall2 (is_log_write logger_name) (file_writes evs)
      (improving [] (epoch_rows evs)) /\
    (forall k r,
        nth_error (epoch_rows evs) k = Some r ->
        ((exists l f, In ((Z.of_nat k + 1)%Z, l, f) (saved_checkpoints evs)) <->
         improves (map val_loss (firstn k (epoch_rows evs))) (val_loss r) = true)).
Proof.
  unfold train, train_session. intros H.
  apply bind_inv_ok in H. destruct H as (w1 & [] & E1 & H).
  assert (T1 : trace w1 = trace w).
  { pose proof (keeps_trace_reset_dirs w) as K. rewrite E1 in K. exact K. }
  apply bind_inv_ok in H. destruct H as (w2 & jsonlog & E2 & H).
  apply init_inv in E2. destruct E2 as (T2 & P2 & N2).
  apply bind_inv_ok in H. destruct H as (w3 & [] & E3 & H).
  unfold logger_info, emit, modify in E3. inversion E3; subst w3. clear E3.
  apply bind_inv_ok in H. destruct H as (w4 & [jl best] & E4 & H).
  apply train_epochs_inv with (prior := []) in E4;
    [| exact N2 | exact best_tracks_initial].
  destruct E4 as (evs & T4 & Hrows & Hsaved & Hwrites & _).
  apply bind_inv_ok in H. destruct H as (w5 & jl' & E5 & H).
  assert (T5 : trace w5 = trace w4).
  { pose proof (keeps_trace_close jl w4) as K. rewrite E5 in K. exact K. }
  unfold logger_info, emit, modify in H. inversion H; subst w'. clear H.
  exists ([LoggerInfo TrainingStarted] ++ evs ++ [LoggerInfo TrainingFinished]).
  assert (Hr : epoch_rows ([LoggerInfo TrainingStarted] ++ evs ++
                           [LoggerInfo TrainingFinished]) = epoch_rows evs).
  { rewrite !epoch_rows_app. simpl. now rewrite List.app_nil_r. }
  assert (Hs : saved_checkpoints ([LoggerInfo TrainingStarted] ++ evs ++
                                  [LoggerInfo TrainingFinished])
               = saved_checkpoints evs).
  { rewrite !saved_checkpoints_app. simpl. now rewrite List.app_nil_r. }
  assert (Hw : file_writes ([LoggerInfo TrainingStarted] ++ evs ++
                            [LoggerInfo TrainingFinished]) = file_writes evs).
  { rewrite !file_writes_app. simpl. now rewrite List.app_nil_r. }
  rewrite Hr, Hs, Hw.
  split.
  { cbn [trace set_trace]. rewrite T5, T4. cbn [trace set_trace].
    rewrite T2, T1, <- !List.app_assoc. reflexivity. }
  split; [exact Hrows|]. split; [exact Hsaved|].
  split; [rewrite <- P2; exact Hwrites|].
  intros k r Hk. rewrite Hsaved.
  pose proof (@improving_checkpoint_iff (epoch_rows evs) [] 0
                (map_succ_range_nth _ _ Hrows) k r Hk) as Hiff.
  exact Hiff.
Qed.

(** The best loss after some epochs is a number not above the best
    before. *)
Lemma train_epochs_best tlf vlf std mean tl vl epochs :
  forall jsonlog best (w w' : World) jsonlog' best',
    train_epochs tlf vlf std mean tl vl epochs (jsonlog, best) w
    = (w', Ok (jsonlog', best')) ->
    float_is_nan best = false ->
    float_is_nan best' = false /\ float_le best' best = true.
Proof.
  unfold train_epochs.
  induction epochs as [|epoch epochs IH]; intros jsonlog best w w' jsonlog' best' H Hn.
  - simpl in H. unfold ret in H. inversion H; subst.
    split; [exact Hn | now apply float_le_refl].
  - cbn [for_each] in H.
    apply bind_inv_ok in H. destruct H as (w1 & [jl1 best1] & E1 & H).
    apply train_epoch_inv in E1.
    destruct E1 as (row & _ & _ & _ & Hb1 & _).
    assert (H1 : float_is_nan best1 = false /\ float_le best1 best = true).
    { subst best1. destruct (float_lt (val_loss row) best) eqn:Hlt.
      - split; [apply (float_lt_not_nan Hlt) | now apply float_lt_le].
      - split; [exact Hn | now apply float_le_refl]. }
    destruct H1 as [Hn1 Hle1].
    destruct (IH jl1 best1 w1 w' jsonlog' best' H Hn1) as [Hn' Hle'].
    split; [exact Hn' | exact (float_le_trans Hle' Hle1)].
Qed.

(** C9: in the epoch loop of a session, which starts from 1000.0, the best
    validation loss reached after some epochs is not above the start value,
    and the one reached after more epochs is not above it: at every point of
    the loop the best loss is less than or equal to each value it had
    before. *)
Theorem best_val_loss_never_increases tlf vlf std mean tl vl epochs1 epochs2
  jsonlog (w w1 w2 : World) jsonlog1 best1 jsonlog2 best2 :
  train_epochs tlf vlf std mean tl vl epochs1 (jsonlog, initial_best_val_loss) w
  = (w1, Ok (jsonlog1, best1)) ->
  train_epochs tlf vlf std mean tl vl epochs2 (jsonlog1, best1) w1
  = (w2, Ok (jsonlog2, best2)) ->
  float_le best1 initial_best_val_loss = true /\
  float_le best2 best1 = true /\
  float_le best2 initial_best_val_loss = true /\
  train_epochs tlf vlf std mean tl vl (epochs1 ++ epochs2)
    (jsonlog, initial_best_val_loss) w = (w2, Ok (jsonlog2, best2)).
Proof.
  intros H1 H2.
  destruct (@train_epochs_best tlf vlf std mean tl vl epochs1 _ _ _ _ _ _ H1 eq_refl)
    as [Hn1 Hle1].
  destruct (@train_epochs_best tlf vlf std mean tl vl epochs2 _ _ _ _ _ _ H2 Hn1)
    as [Hn2 Hle2].
  split; [exact Hle1|]. split; [exact Hle2|].
  split; [exact (float_le_trans Hle2 Hle1)|].
  clear - H1 H2. unfold train_epochs in *.
  revert jsonlog w H1. generalize initial_best_val_loss.
  induction epochs1 as [|e es IH]; intros b jsonlog w H1.
  - simpl in H1. unfold ret in H1. inversion H1; subst. exact H2.
  - cbn [for_each List.app] in *.
    apply bind_inv_ok in H1. destruct H1 as (wa & [ja ba] & Ea & H1).
    rewrite (bind_ok _ _ _ Ea). eapply IH. exact H1.
Qed.

End TrainTheorems.

(** ** The theorems at work on the framework of scalars *)

Lemma step_average_loss_witness :
  let dl := scalar_loader [(1, 3); (2, 5)]%float in
  let w := scalar_world (Dir []) in
  batches dl <> [] /\
  dl_len dl = List.length (batches dl) /\
  (exists w1 t1,
      @train_one_step scalar_torch ticking_runtime l1_loss 2%float 0%float dl w
      = (w1, Ok (mean_loss (@train_batch_losses scalar_torch ticking_runtime
                              l1_loss 2%float 0%float dl w) 2, t1))) /\
  @train_batch_losses scalar_torch ticking_runtime l1_loss 2%float 0%float dl w
  = [0.5; 1]%float /\
  mean_loss (@train_batch_losses scalar_torch ticking_runtime
               l1_loss 2%float 0%float dl w) 2 = 0.75%float.
Proof.
  intros dl w.
  assert (H1 : batches dl <> []) by discriminate.
  assert (H2 : dl_len dl = List.length (batches dl)) by reflexivity.
  split; [exact H1|]. split; [exact H2|].
  split.
  - exact (proj1 (@step_average_loss scalar_torch ticking_runtime
                    l1_loss 2%float 0%float dl w H1 H2)).
  - split; vm_compute; reflexivity.
Defined.

Lemma writer_init_separator_witness :
  let old := Dir [("log.json"%string, File (log_text [(@json_dumps ticking_runtime) (JInt 1)]))] in
  (exists self,
      @StreamingJSONWriter_init scalar_torch json ["log.json"%string] (@json_dumps ticking_runtime)
        (scalar_world old) = (scalar_world old, Ok self) /\
      delimeter self = txt "," /\ f_mode (file self) = ModeRPlus) /\
  (exists w' self,
      @StreamingJSONWriter_init scalar_torch json ["log.json"%string] (@json_dumps ticking_runtime)
        (scalar_world (Dir [])) = (w', Ok self) /\
      delimeter self = txt "[" /\ f_mode (file self) = ModeW /\
      fs_lookup ["log.json"%string] (fs w') = Some (File [])).
Proof.
  intros old. split.
  - eexists. split.
    + apply (proj1 (@writer_init_separator scalar_torch json ["log.json"%string]
                      (@json_dumps ticking_runtime) (scalar_world old))
               (log_text [(@json_dumps ticking_runtime) (JInt 1)])).
      reflexivity.
    + split; reflexivity.
  - destruct (proj2 (@writer_init_separator scalar_torch json ["log.json"%string]
                       (@json_dumps ticking_runtime) (scalar_world (Dir [])))
                [] "log.json"%string [] eq_refl eq_refl eq_refl)
      as (_ & n' & E & L).
    do 2 eexists. split; [exact E|]. repeat split. exact L.
Defined.

Lemma dump_appends_record_witness :
  let d := log_text [(@json_dumps ticking_runtime) (JInt 1)] in
  let w := scalar_world (Dir [("log.json"%string, File d)]) in
  let self :=
    {| file := {| f_path := ["log.json"%string]; f_mode := ModeRPlus; f_pos := 0;
                  f_pending := []; f_closed := false |};
       delimeter := txt ","; encoder := (@json_dumps ticking_runtime) |} in
  f_closed (file self) = false /\
  f_pending (file self) = [] /\
  fs_lookup (f_path (file self)) (fs w) = Some (File d) /\
  exists n' w' self',
    fs_read ["log.json"%string] n' = Ok (log_text [(@json_dumps ticking_runtime) (JInt 1); (@json_dumps ticking_runtime) (JInt 2)]) /\
    @dump scalar_torch json self (JInt 2) w = (w', Ok self') /\
    fs w' = n' /\ delimeter self' = txt "," /\ f_pending (file self') = [].
Proof.
  intros d w self.
  split; [reflexivity|]. split; [reflexivity|]. split; [reflexivity|].
  destruct (@dump_appends_record scalar_torch json self (JInt 2) w d
              eq_refl eq_refl eq_refl) as (n' & _ & Rd & E).
  exists n'. do 2 eexists. split; [exact Rd|]. split; [exact E|].
  repeat split.
Defined.

Lemma checkpoints_at_improving_epochs_witness :
  let run :=
    @train scalar_torch ticking_runtime 4 l1_loss l1_loss 2%float 0%float
      (scalar_loader [(1, 2)]%float) (scalar_loader [(1, 4)]%float)
      ["log.json"%string] (scalar_world_at 4 0.5 (Dir [])) in
  run = (fst run, Ok tt) /\
  exists evs,
    trace (fst run) = evs /\
    map val_loss (epoch_rows evs) = [1; 0.5; 1.25; 1.625]%float /\
    saved_checkpoints evs
    = map (@checkpoint_of ticking_runtime) (improving [] (epoch_rows evs)) /\
    map fst (map fst (saved_checkpoints evs)) = [1; 2]%Z.
Proof.
  intros run.
  assert (H : run = (fst run, Ok tt)) by (vm_compute; reflexivity).
  split; [exact H|].
  destruct (@checkpoints_at_improving_epochs scalar_torch ticking_runtime
              4 l1_loss l1_loss 2%float 0%float
              (scalar_loader [(1, 2)]%float) (scalar_loader [(1, 4)]%float)
              ["log.json"%string] (scalar_world_at 4 0.5 (Dir [])) (fst run) H)
    as (evs & Htr & _ & Hsaved & _).
  exists evs. cbn [trace scalar_world_at List.app] in Htr.
  split; [exact Htr|]. rewrite <- Htr.
  split; [vm_compute; reflexivity|].
  split; [rewrite Htr; exact Hsaved|].
  vm_compute; reflexivity.
Defined.

(** C1, as it is worded, fails: a first epoch whose validation loss is
    4998.5 is below every loss before it, there being none, and yet no
    checkpoint is saved and nothing is written to the log, the loss not
    being below 1000.0. *)
Lemma first_epoch_above_start_value_not_saved :
  let run :=
    @train scalar_torch ticking_runtime 1 l1_loss l1_loss 2%float 0%float
      (scalar_loader [(1, 3)]%float) (scalar_loader [(1, 5000)]%float)
      ["log.json"%string] (scalar_world_at 1 0.5 (Dir [])) in
  snd run = Ok tt /\
  map Epoch (epoch_rows (trace (fst run))) = [1%Z] /\
  map val_loss (epoch_rows (trace (fst run))) = [4998.5%float] /\
  below_all_prior [] 4998.5%float = true /\
  saved_checkpoints (trace (fst run)) = [] /\
  file_writes (trace (fst run)) = [].
Proof.
  vm_compute. repeat split; reflexivity.
Qed.

Lemma best_val_loss_never_increases_witness :
  let jsonlog :=
    {| file := {| f_path := ["log.json"%string]; f_mode := ModeW; f_pos := 0;
                  f_pending := []; f_closed := false |};
       delimeter := txt "["; encoder := fun _ : log_dict => txt "{}" |} in
  let w :=
    scalar_world_at 4 0.5
      (Dir [("BestModel"%string, Dir []); ("CheckPoints"%string, Dir []);
            ("log.json"%string, File [])]) in
  let epochs (es : list Z) :=
    @train_epochs scalar_torch ticking_runtime l1_loss l1_loss 2%float 0%float
      (scalar_loader [(1, 2)]%float) (scalar_loader [(1, 4)]%float) es in
  let run1 := epochs [0; 1]%Z (jsonlog, initial_best_val_loss) w in
  let jsonlog1 := match snd run1 with Ok x => fst x | Raise _ => jsonlog end in
  let run2 := epochs [2; 3]%Z (jsonlog1, 0.5%float) (fst run1) in
  let jsonlog2 := match snd run2 with Ok x => fst x | Raise _ => jsonlog end in
  run1 = (fst run1, Ok (jsonlog1, 0.5%float)) /\
  run2 = (fst run2, Ok (jsonlog2, 0.5%float)) /\
  float_le 0.5 initial_best_val_loss = true /\
  float_le 0.5 0.5 = true.
Proof.
  intros jsonlog w epochs run1 jsonlog1 run2 jsonlog2.
  assert (H1 : run1 = (fst run1, Ok (jsonlog1, 0.5%float)))
    by (vm_compute; reflexivity).
  assert (H2 : run2 = (fst run2, Ok (jsonlog2, 0.5%float)))
    by (vm_compute; reflexivity).
  split; [exact H1|]. split; [exact H2|].
  destruct (@best_val_loss_never_increases scalar_torch ticking_runtime
              l1_loss l1_loss 2%float 0%float
              (scalar_loader [(1, 2)]%float) (scalar_loader [(1, 4)]%float)
              [0; 1]%Z [2; 3]%Z jsonlog w (fst run1) (fst run2)
              jsonlog1 0.5%float jsonlog2 0.5%float H1 H2) as (L1 & L2 & _).
  split; [exact L1 | exact L2].
Defined.

(** * Further properties *)

(** ** The writer at its edges *)

Lemma fs_lookup_app_none dir name n :
  fs_lookup dir n = None -> fs_lookup (dir ++ [name]) n = None.
Proof.
  revert n. induction dir as [|d rest IH]; intros n L; simpl in *; [discriminate|].
  destruct n as [d0|es]; [reflexivity|].
  destruct (assoc_get d es); [auto | reflexivity].
Qed.

Lemma fs_lookup_app_file dir name n d :
  fs_lookup dir n = Some (File d) -> fs_lookup (dir ++ [name]) n = None.
Proof.
  revert n. induction dir as [|x rest IH]; intros n L; simpl in *.
  - inversion L; subst n. reflexivity.
  - destruct n as [d0|es]; [discriminate|].
    destruct (assoc_get x es); [auto | discriminate].
Qed.

(** A path below something that is missing, or below a regular file, cannot
    be changed. *)
Lemma fs_alter_missing dir name f n :
  fs_lookup dir n = None ->
  exists e, fs_alter (dir ++ [name]) f n = Raise e /\
            (e = FileNotFoundError \/ e = NotADirectoryError).
Proof.
  revert n. induction dir as [|d rest IH]; intros n L; [discriminate|].
  destruct n as [d0|es].
  - exists NotADirectoryError. split; [reflexivity | now right].
  - cbn [fs_lookup] in L. change ((d :: rest) ++ [name]) with (d :: (rest ++ [name])).
    cbn [fs_alter]. destruct (rest ++ [name]) as [|y tl] eqn:Ep.
    + now destruct rest.
    + destruct (assoc_get d es) as [c|].
      * destruct (IH c L) as (e & E & He). rewrite E. eauto.
      * exists FileNotFoundError. split; [reflexivity | now left].
Qed.

Lemma fs_alter_below_file dir name f n d :
  fs_lookup dir n = Some (File d) ->
  fs_alter (dir ++ [name]) f n = Raise NotADirectoryError.
Proof.
  revert n. induction dir as [|x rest IH]; intros n L.
  - inversion L; subst n. reflexivity.
  - destruct n as [d0|es]; [discriminate|].
    cbn [fs_lookup] in L. change ((x :: rest) ++ [name]) with (x :: (rest ++ [name])).
    cbn [fs_alter]. destruct (rest ++ [name]) as [|y tl] eqn:Ep.
    + now destruct rest.
    + destruct (assoc_get x es) as [c|]; [|discriminate].
      specialize (IH c L). now rewrite IH.
Qed.

Section WriterEdges.

Context {T : Torch}.

(** X1: a path that names a directory exists, so the writer opens it for
    reading and writing, which a directory refuses: the constructor raises
    [IsADirectoryError] and nothing is changed. *)
Theorem writer_on_a_directory_raises (Obj : Type) (filename : path) (enc : Obj -> text)
  (es : list (string * node)) (w : World) :
  fs_lookup filename (fs w) = Some (Dir es) ->
  StreamingJSONWriter_init filename enc w = (w, Raise IsADirectoryError).
Proof.
  intros L. unfold StreamingJSONWriter_init, fs_exists, bind, get. rewrite L.
  unfold py_open, bind, get, lift, fs_read. rewrite L. reflexivity.
Qed.

(** X2: a path in a directory that is not there does not exist, so the writer
    opens it for writing, which fails: with [FileNotFoundError] or
    [NotADirectoryError] when the directory is missing, and with
    [NotADirectoryError] when a regular file has its name.  Nothing is
    created. *)
Theorem writer_without_its_directory_raises (Obj : Type) (dir : path) (name : string)
  (enc : Obj -> text) (w : World) :
  (fs_lookup dir (fs w) = None ->
   exists e,
     StreamingJSONWriter_init (dir ++ [name]) enc w = (w, Raise e) /\
     (e = FileNotFoundError \/ e = NotADirectoryError)) /\
  (forall d,
      fs_lookup dir (fs w) = Some (File d) ->
      StreamingJSONWriter_init (dir ++ [name]) enc w = (w, Raise NotADirectoryError)).
Proof.
  split.
  - intros L.
    destruct (@fs_alter_missing dir name
                (fun o => match o with
                          | Some (Dir _) => Raise IsADirectoryError
                          | _ => Ok (Some (File []))
                          end) (fs w) L) as (e & E & He).
    exists e. split; [|exact He].
    unfold StreamingJSONWriter_init, fs_exists, bind, get.
    rewrite (fs_lookup_app_none _ name _ L).
    unfold py_open, bind, on_fs, fs_create. now rewrite E.
  - intros d L.
    unfold StreamingJSONWriter_init, fs_exists, bind, get.
    rewrite (fs_lookup_app_file _ name _ L).
    unfold py_open, bind, on_fs, fs_create.
    now rewrite (fs_alter_below_file _ name _ _ L).
Qed.

(** X3: once [close] has returned, the writer is of no more use: [dump] raises
    [ValueError] before anything is written, and the world is as it was;
    a second [close] does nothing. *)
Theorem dump_after_close_raises (Obj : Type) (self self' : StreamingJSONWriter Obj)
  (obj : Obj) (w w' : World) :
  close self w = (w', Ok self') ->
  dump self' obj w' = (w', Raise ValueError) /\
  close self' w' = (w', Ok self').
Proof.
  intros E.
  assert (C : f_closed (file self') = true /\
              self' = {| file := file self'; delimeter := delimeter self';
                         encoder := encoder self' |}).
  { unfold close, bind, file_close in E.
    destruct (f_closed (file self)) eqn:Cl.
    - unfold ret in E. inversion E; subst. cbn. auto.
    - unfold bind in E. destruct (file_flush (file self) w) as [w1 [f1|e]];
        unfold ret in E; inversion E; subst. cbn. auto. }
  destruct C as (C & Eta). split.
  - unfold dump, bind, file_seek_end, bind, file_flush. rewrite C. reflexivity.
  - unfold close, bind, file_close. rewrite C. unfold ret. now rewrite <- Eta.
Qed.

End WriterEdges.

(** A text that begins with a comma is no JSON document. *)
Lemma json_loads_comma c : json_loads (","%char :: c) = None.
Proof.
  unfold json_loads. rewrite skip_ws_comma. reflexivity.
Qed.

(** A record written over the closing sequence of the lines [ds], whatever
    stands before the lines. *)
Lemma lines_step (head : text) ds d :
  ds <> [] ->
  firstn (Z.to_nat (Z.max (Z.of_nat (List.length (head ++ log_lines ds ++ close_str)) - 3) 0))
    (head ++ log_lines ds ++ close_str) ++
  txt "," ++ [nl] ++ txt "    " ++ d ++ [nl; "]"%char; nl]
  = head ++ log_lines (ds ++ [d]) ++ close_str.
Proof.
  intros Hne. unfold log_lines. rewrite join_with_snoc by assumption.
  set (body := head ++ join_with (txt "," ++ [nl] ++ txt "    ") ds).
  replace (head ++ join_with (txt "," ++ [nl] ++ txt "    ") ds ++ close_str)
    with (body ++ close_str) by (unfold body; now rewrite <- !List.app_assoc).
  replace (Z.to_nat (Z.max (Z.of_nat (List.length (body ++ close_str)) - 3) 0))
    with (List.length body)
    by (rewrite length_app; unfold close_str; simpl List.length; lia).
  rewrite firstn_length_app. unfold body, close_str.
  rewrite <- !List.app_assoc. reflexivity.
Qed.

Section WriterResumes.

Context {T : Torch}.

Lemma dump_all_lines (Obj : Type) filename (enc : Obj -> text) (head : text) objs :
  forall (self : StreamingJSONWriter Obj) (w : World) ds,
    writer_on filename enc self -> delimeter self = txt "," -> ds <> [] ->
    fs_read filename (fs w) = Ok (head ++ log_lines ds ++ close_str) ->
    exists w' self',
      dump_all self objs w = (w', Ok self') /\
      writer_on filename enc self' /\
      fs_read filename (fs w')
      = Ok (head ++ log_lines (ds ++ map enc objs) ++ close_str).
Proof.
  induction objs as [|obj objs IH]; intros self w ds Hw Hd Hne Hc.
  - exists w, self. rewrite List.app_nil_r. repeat split; auto; apply Hw.
  - destruct Hw as (Hp & Hcl & Hpe & He).
    apply fs_read_lookup in Hc. rewrite <- Hp in Hc.
    destruct (dump_on_clean_file self obj w Hcl Hpe Hc) as (n' & _ & Rd & E).
    unfold dump_all. cbn [for_each]. rewrite (bind_ok _ _ _ E).
    rewrite Hd, He, lines_step in Rd by assumption.
    match type of E with _ = (?w1, Ok ?s1) =>
      destruct (IH s1 w1 (ds ++ [enc obj]))
        as (w' & self' & E' & Hw' & Hc')
    end.
    + repeat split; cbn; auto.
    + reflexivity.
    + destruct ds; discriminate.
    + cbn [fs set_fs]. rewrite <- Hp. exact Rd.
    + exists w', self'. rewrite <- List.app_assoc in Hc'. repeat split; auto;
        apply Hw'.
Qed.

(** X4: a file of three characters or fewer, an empty one above all, is never
    resumed to a JSON array: it exists, so the first record goes in after a
    comma, and at offset 0 since the file is no longer than the closing
    sequence.  After a session that appends the records [r :: rs] the file
    holds a comma where the opening bracket should be, then the records as
    in any log, and is no JSON document. *)
Theorem short_file_is_never_resumed_to_json (Obj : Type) (filename : path)
  (enc : Obj -> text) (d : text) (r : Obj) (rs : list Obj) (w : World) :
  fs_lookup filename (fs w) = Some (File d) ->
  List.length d <= 3 ->
  let c := txt "," ++ [nl] ++ txt "    " ++ log_lines (map enc (r :: rs)) ++ close_str in
  exists w',
    session filename enc (r :: rs) w = (w', Ok tt) /\
    fs_read filename (fs w') = Ok c /\
    json_loads c = None.
Proof.
  intros L Hlen c.
  destruct (init_on_path filename enc w) as [Hold _].
  specialize (Hold d L).
  set (self := {| file := {| f_path := filename; f_mode := ModeRPlus; f_pos := 0;
                             f_pending := []; f_closed := false |};
                  delimeter := txt ","; encoder := enc |}) in *.
  destruct (@dump_on_clean_file _ _ self r w d eq_refl eq_refl L) as (n' & _ & Rd & E).
  replace (Z.to_nat (Z.max (Z.of_nat (List.length d) - 3) 0)) with 0 in * by lia.
  cbn [firstn List.app delimeter encoder file f_path self] in Rd.
  match type of E with _ = (?w1, Ok ?s1) =>
    destruct (@dump_all_lines Obj filename enc (txt "," ++ [nl] ++ txt "    ") rs
                s1 w1 [enc r])
      as (w' & self' & E' & Hw' & Hc')
  end.
  - repeat split.
  - reflexivity.
  - discriminate.
  - cbn [fs set_fs]. rewrite Rd. reflexivity.
  - destruct (@close_clean _ Obj filename enc self' w' Hw') as (self'' & Ec).
    exists w'. split; [|split].
    + assert (Eo : open_session filename enc (r :: rs) w = (w', Ok self')).
      { unfold open_session. rewrite (bind_ok _ _ _ Hold).
        unfold dump_all. cbn [for_each]. rewrite (bind_ok _ _ _ E). exact E'. }
      unfold session. rewrite (bind_ok _ _ _ Eo). rewrite (bind_ok _ _ _ Ec).
      reflexivity.
    + rewrite Hc'. unfold c. rewrite <- !List.app_assoc. reflexivity.
    + apply json_loads_comma.
Qed.

End WriterResumes.

(** ** What the step functions leave alone *)

Section StepFrames.

Context {T : Torch} {R : Runtime}.

(** A batch of validation under a forward pass that keeps the weights
    leaves the whole world as it is. *)
Lemma validate_batch_pure lf std mean b (w : World) :
  (forall tr st g e n a, snd (forward tr false st g e n a) = st) ->
  exists l, validate_batch lf std mean b w = (w, Ok l).
Proof.
  intros Hfw. destruct b as [[g labels] attrs].
  unfold validate_batch, model_call, bind, ret.
  specialize (Hfw (training (model w)) (state (model w)) g
                (to_float (edata g "edge_attr")) (to_long (ndata g "node_type")) attrs).
  destruct (forward _ _ _ _ _ _ _) as [pred st]. simpl in Hfw. subst st.
  eexists. f_equal. destruct w as [[tr st] o s n k t]. reflexivity.
Qed.

(** X5: all that [train_one_step] lets out is the progress bar of [tqdm]:
    the bar is made over the length of the dataloader, is told of every
    batch that is done, and is closed after the last; no file of the working
    directory is read or written, nothing is saved, and the logger is told
    nothing.  The scheduler is left alone; the clock is read twice, before
    the bar is made and after it is closed, and the time answered is the
    second reading less the first; and with no batch to go through neither
    the weights nor the optimizer change. *)
Theorem train_one_step_shows_only_its_progress lf std mean (dl : DataLoader) (w : World) :
  let run := train_one_step lf std mean dl w in
  bars (fst run)
  = bars w ++ BarOpened (dl_len dl) :: repeat BarAdvanced (List.length (batches dl))
           ++ [BarClosed] /\
  fs (fst run) = fs w /\
  trace (fst run) = trace w /\
  scheduler (fst run) = scheduler w /\
  timer_reads (fst run) = S (S (timer_reads w)) /\
  (forall loss t,
      snd run = Ok (loss, t) ->
      t = PrimFloat.sub (clock (S (timer_reads w))) (clock (timer_reads w))) /\
  (batches dl = [] ->
   state (model (fst run)) = state (model w) /\ optimizer (fst run) = optimizer w).
Proof.
  destruct (train_one_step_run lf std mean dl w)
    as (w' & E & Hfs & Htr & Hsc & Htm & _ & Hbars & Hnil).
  intros run. subst run. rewrite E. cbn [fst snd].
  split; [exact Hbars|]. split; [exact Hfs|]. split; [exact Htr|].
  split; [exact Hsc|]. split; [exact Htm|]. split; [|exact Hnil].
  intros loss t Hr.
  destruct (py_truediv _ (dl_len dl)) as [avg|e]; [|discriminate Hr].
  inversion Hr. reflexivity.
Qed.

(** X6: [validate_one_step] changes neither the optimizer nor the scheduler,
    reads and writes no file and logs nothing; its time is the difference
    of two readings of the clock, taken around the loop; and when the
    forward pass without gradients keeps the weights, the model is after
    the call what it was before. *)
Theorem validation_leaves_the_trainer_alone lf std mean (dl : DataLoader) (w : World) :
  let run := validate_one_step lf std mean dl w in
  optimizer (fst run) = optimizer w /\
  scheduler (fst run) = scheduler w /\
  fs (fst run) = fs w /\
  trace (fst run) = trace w /\
  timer_reads (fst run) = S (S (timer_reads w)) /\
  (forall loss t,
      snd run = Ok (loss, t) ->
      t = PrimFloat.sub (clock (S (timer_reads w))) (clock (timer_reads w))) /\
  ((forall tr st g e n a, snd (forward tr false st g e n a) = st) ->
   model (fst run) = model w).
Proof.
  assert (Erun : exists w' r,
             validate_one_step lf std mean dl w = (w', r) /\
             optimizer w' = optimizer w /\ scheduler w' = scheduler w /\
             fs w' = fs w /\ trace w' = trace w /\
             timer_reads w' = S (S (timer_reads w)) /\
             (forall loss t,
                 r = Ok (loss, t) ->
                 t = PrimFloat.sub (clock (S (timer_reads w))) (clock (timer_reads w))) /\
             ((forall tr st g e n a, snd (forward tr false st g e n a) = st) ->
              model w' = model w)).
  { unfold validate_one_step.
    unfold bind at 1. unfold default_timer at 1.
    unfold bind at 1.
    match goal with |- context [for_each _ _ _ ?w0] => set (ws := w0) end.
    destruct (for_each_sum (validate_batch lf std mean) tadd
                (fun w w' => same_outside w w' /\ optimizer w' = optimizer w))
      with (bs := batches dl) (acc := zeros1) (w := ws)
      as (w' & E & (Hfs & Htm & Htr & Hsc & Hmode) & Hopt).
    { intros; split; [apply same_outside_refl | reflexivity]. }
    { intros w1 w2 w3 [S1 O1] [S2 O2]. split;
        [eapply same_outside_trans; eauto | congruence]. }
    { intros b w0.
      destruct (validate_batch_total lf std mean b w0) as (w1 & l & E1 & S1 & O1); eauto. }
    assert (Hpure : (forall tr st g e n a, snd (forward tr false st g e n a) = st) ->
                    w' = ws).
    { intros Hfw.
      destruct (for_each_sum (validate_batch lf std mean) tadd (fun w w' => w' = w))
        with (bs := batches dl) (acc := zeros1) (w := ws) as (w2 & E2 & Heq).
      - reflexivity.
      - intros; congruence.
      - intros b w0. destruct (validate_batch_pure lf std mean b w0 Hfw) as (l & El).
        eauto.
      - rewrite E in E2. inversion E2. congruence. }
    rewrite E.
    unfold bind at 1. unfold default_timer at 1.
    unfold bind at 1, lift at 1.
    subst ws. simpl in Hfs, Htm, Htr, Hsc, Hmode, Hopt.
    destruct (dl_len dl) as [|k]; simpl py_truediv; unfold ret;
      do 2 eexists; (split; [reflexivity|]); simpl;
      (repeat split; try assumption; try congruence;
       try (intros Hfw; rewrite (Hpure Hfw); reflexivity)). }
  destruct Erun as (w' & r & E & H). intros run. subst run. rewrite E. exact H.
Qed.

(** X7: the divisor of the average is [len(dataloader)], whatever the number
    of batches the iteration yields: as soon as the length is not zero,
    both step functions answer the sum of the losses of the batches that
    were met, none maybe, over the length. *)
Theorem step_average_divides_by_len lf std mean (dl : DataLoader) (w : World) :
  dl_len dl <> 0 ->
  (exists w1 t1,
      train_one_step lf std mean dl w
      = (w1, Ok (mean_loss (train_batch_losses lf std mean dl w) (dl_len dl), t1))) /\
  (exists w2 t2,
      validate_one_step lf std mean dl w
      = (w2, Ok (mean_loss (validate_batch_losses lf std mean dl w) (dl_len dl), t2))).
Proof.
  intros Hlen.
  destruct (dl_len dl) as [|k] eqn:HK; [congruence|].
  destruct (train_one_step_run lf std mean dl w) as (w1 & E1 & _).
  destruct (validate_one_step_run lf std mean dl w) as (w2 & t2 & E2).
  rewrite HK in E1, E2. cbn [py_truediv] in E1, E2.
  split; do 2 eexists; [exact E1 | exact E2].
Qed.

End StepFrames.

(** ** The trace of a run *)

Lemma last_other_default A (l : list A) d d' : l <> [] -> last l d = last l d'.
Proof.
  induction l as [|x l IH]; [congruence|]. intros _.
  destruct l as [|y l]; [reflexivity|]. cbn [last]. apply IH. discriminate.
Qed.

Lemma last_cons_default A (x : A) l d : last (x :: l) d = last l x.
Proof.
  destruct l as [|y l]; [reflexivity|].
  change (last (x :: y :: l) d) with (last (y :: l) d).
  apply last_other_default. discriminate.
Qed.

Section RunFacts.

Context {T : Torch} {R : Runtime}.

Lemma logger_msgs_app (a b : list event) :
  logger_msgs (a ++ b) = logger_msgs a ++ logger_msgs b.
Proof.
  induction a as [|e a IH]; simpl; [reflexivity|].
  destruct e; simpl; rewrite ?IH; reflexivity.
Qed.

Lemma checkpoint_states_app (a b : list event) :
  checkpoint_states (a ++ b) = checkpoint_states a ++ checkpoint_states b.
Proof.
  induction a as [|e a IH]; simpl; [reflexivity|].
  destruct e as [|[]|]; simpl; rewrite ?IH; reflexivity.
Qed.

Lemma best_models_app (a b : list event) :
  best_models (a ++ b) = best_models a ++ best_models b.
Proof.
  induction a as [|e a IH]; simpl; [reflexivity|].
  destruct e as [|[]|]; simpl; rewrite ?IH; reflexivity.
Qed.

Lemma keeps_objects_torch_save obj f : keeps trainer_objects (torch_save obj f).
Proof. unfold torch_save, emit. keeps_tac. Qed.

Lemma keeps_objects_file_flush f : keeps trainer_objects (file_flush f).
Proof. unfold file_flush. keeps_tac. Qed.

Lemma keeps_objects_dump Obj (self : StreamingJSONWriter Obj) obj :
  keeps trainer_objects (dump self obj).
Proof.
  unfold dump, file_seek_end, file_seek, file_write, emit.
  keeps_tac; try apply keeps_objects_file_flush.
Qed.

Lemma keeps_eq A B (proj : World -> B) (m : M A) (w w' : World) r :
  keeps proj m -> m w = (w', r) -> proj w' = proj w.
Proof.
  intros K E. specialize (K w). now rewrite E in K.
Qed.

(** The events of an epoch that ends well, with what the saved objects
    hold: the state of the trainer as the epoch leaves it. *)
Lemma train_epoch_events tlf vlf std mean tl vl jsonlog best epoch
  (w w' : World) jsonlog' best' :
  train_epoch tlf vlf std mean tl vl (jsonlog, best) epoch w
  = (w', Ok (jsonlog', best')) ->
  exists row,
    Epoch row = (epoch + 1)%Z /\
    best' = (if float_lt (val_loss row) best then val_loss row else best) /\
    trace w' = trace w ++
      LoggerInfo (summary_of row) ::
      (if float_lt (val_loss row) best then
         [TorchSave
            (Checkpoint (epoch + 1)
               (as_dict (training (model w')) (state (model w')))
               (optim_state_dict (optimizer w'))
               (sched_state_dict (scheduler w'))
               (val_loss row))
            (checkpath ++ [checkpoint_name epoch (val_loss row)]);
          FileWrite (f_path (file jsonlog))
            (dump_text (delimeter jsonlog) (encoder jsonlog row));
          TorchSave (BestModel (as_dict (training (model w')) (state (model w'))))
            (outpath ++ ["best-model.pt"%string])]
       else []) /\
    exists w1 w2 : World,
      train_one_step tlf std mean tl w = (w1, Ok (train_loss row, train_time row)) /\
      validate_one_step vlf std mean vl w1 = (w2, Ok (val_loss row, val_time row)) /\
      model w' = model w2 /\
      sched_step (scheduler w2) (optimizer w2) = (scheduler w', optimizer w').
Proof.
  unfold train_epoch. intros H.
  destruct (@train_one_step_spec _ _ tlf std mean tl w)
    as (w1 & r1 & E1 & _ & T1 & _).
  apply bind_inv_ok in H. destruct H as (w1' & [tloss ttime] & E1' & H).
  rewrite E1 in E1'. inversion E1'; subst w1' r1. clear E1'.
  destruct (@validate_one_step_spec _ _ vlf std mean vl w1)
    as (w2 & r2 & E2 & _ & T2 & _).
  apply bind_inv_ok in H. destruct H as (w2' & [vloss vtime] & E2' & H).
  rewrite E2 in E2'. inversion E2'; subst w2' r2. clear E2'.
  apply bind_inv_ok in H. destruct H as (w3 & [] & E3 & H).
  assert (T3 : trace w3 = trace w2 /\ model w3 = model w2 /\
               sched_step (scheduler w2) (optimizer w2) = (scheduler w3, optimizer w3)).
  { unfold scheduler_step, modify in E3. inversion E3.
    destruct (sched_step _ _). repeat split. }
  destruct T3 as (T3 & M3 & S3).
  apply bind_inv_ok in H. destruct H as (w4 & [] & E4 & H).
  unfold logger_info, emit, modify in E4. inversion E4; subst w4. clear E4.
  exists {| Epoch := epoch + 1; train_loss := tloss; val_loss := vloss;
            train_time := ttime; val_time := vtime |}.
  unfold summary_of. cbn [Epoch val_loss train_loss train_time val_time].
  destruct (float_lt vloss best) eqn:Hlt.
  - apply bind_inv_ok in H. destruct H as (w5 & x & E5 & H).
    unfold get in E5. inversion E5; subst w5 x. clear E5.
    apply bind_inv_ok in H. destruct H as (w6 & [] & E6 & H).
    pose proof (keeps_eq _ (keeps_objects_torch_save _ _) E6) as K6.
    apply torch_save_inv in E6.
    apply bind_inv_ok in H. destruct H as (w7 & jl & E7 & H).
    pose proof (keeps_eq _ (keeps_objects_dump _ _) E7) as K7.
    apply dump_inv in E7. destruct E7 as (T7 & P7 & N7).
    apply bind_inv_ok in H. destruct H as (w8 & x & E8 & H).
    unfold get in E8. inversion E8; subst w8 x. clear E8.
    apply bind_inv_ok in H. destruct H as (w9 & [] & E9 & H).
    pose proof (keeps_eq _ (keeps_objects_torch_save _ _) E9) as K9.
    apply torch_save_inv in E9.
    unfold ret in H. inversion H; subst w9 jsonlog' best'. clear H.
    split; [reflexivity|]. split; [reflexivity|].
    unfold trainer_objects in K6, K7, K9. cbn [model optimizer scheduler set_trace] in K6.
    assert (Km : model w' = model w3 /\ optimizer w' = optimizer w3 /\
                 scheduler w' = scheduler w3).
    { inversion K6. inversion K7. inversion K9. repeat split; congruence. }
    destruct Km as (Km & Ko & Ks).
    assert (Km7 : model w7 = model w3) by (inversion K6; inversion K7; congruence).
    split.
    { rewrite E9, T7, E6. cbn [trace set_trace model optimizer scheduler].
      rewrite T3, T2, T1, Km, Ko, Ks, Km7. rewrite <- !List.app_assoc. reflexivity. }
    exists w1, w2. split; [exact E1|]. split; [exact E2|].
    split; congruence.
  - unfold ret in H. inversion H; subst.
    split; [reflexivity|]. split; [reflexivity|].
    split; [cbn [trace set_trace]; rewrite T3, T2, T1; reflexivity|].
    exists w1, w2. split; [exact E1|]. split; [exact E2|].
    split; [exact M3 | exact S3].
Qed.


(** What an epoch loop that ends well adds to the trace, beyond the
    checkpoints and the records: the lines of the logger, the best models,
    and the best loss it ends with. *)
Lemma train_epochs_events tlf vlf std mean tl vl epochs :
  forall jsonlog best (w w' : World) jsonlog' best' prior,
    train_epochs tlf vlf std mean tl vl epochs (jsonlog, best) w
    = (w', Ok (jsonlog', best')) ->
    best_tracks prior best ->
    exists evs,
      trace w' = trace w ++ evs /\
      logger_msgs evs = map summary_of (epoch_rows evs) /\
      map fst (best_models evs) = map (fun c => fst (fst c)) (checkpoint_states evs) /\
      Forall (fun bm => snd bm = outpath ++ ["best-model.pt"%string]) (best_models evs) /\
      List.length (best_models evs) = List.length (improving prior (epoch_rows evs)) /\
      best' = last (map val_loss (improving prior (epoch_rows evs))) best.
Proof.
  unfold train_epochs.
  induction epochs as [|epoch epochs IH];
    intros jsonlog best w w' jsonlog' best' prior H Hbest.
  - simpl in H. unfold ret in H. inversion H; subst.
    exists []. rewrite !List.app_nil_r. simpl. repeat split; constructor.
  - cbn [for_each] in H.
    apply bind_inv_ok in H. destruct H as (w1 & [jl1 best1] & E1 & H).
    apply train_epoch_events in E1.
    destruct E1 as (row & Hep & Hb1 & Htr & _).
    assert (Hcond : float_lt (val_loss row) best = improves prior (val_loss row))
      by apply Hbest.
    specialize (IH jl1 best1 w1 w' jsonlog' best' (prior ++ [val_loss row]) H).
    destruct IH as (evs & Htr' & Hmsgs & Hmodels & Hfiles & Hlen & Hlast).
    { subst best1. now apply best_tracks_step. }
    eexists. split; [rewrite Htr', Htr, <- List.app_assoc; reflexivity|].
    change (?x :: ?l) with ([x] ++ l).
    rewrite !epoch_rows_app, !logger_msgs_app, !best_models_app, !checkpoint_states_app.
    assert (Hrow : epoch_rows [LoggerInfo (summary_of row)] = [row])
      by (destruct row; reflexivity).
    rewrite Hrow. clear Hrow.
    cbn [logger_msgs best_models checkpoint_states List.app].
    destruct (float_lt (val_loss row) best) eqn:Hlt;
      cbn [epoch_rows logger_msgs best_models checkpoint_states List.app map improving
           List.length fst snd];
      rewrite <- Hcond; cbn [List.app map List.length].
    + split; [now rewrite Hmsgs|]. split; [now rewrite Hmodels|].
      split; [constructor; [reflexivity | exact Hfiles]|].
      split; [now rewrite Hlen|].
      rewrite last_cons_default. subst best1. exact Hlast.
    + split; [now rewrite Hmsgs|]. split; [exact Hmodels|].
      split; [exact Hfiles|]. split; [exact Hlen|].
      subst best1. exact Hlast.
Qed.

(** A run of [train] that ends well, taken apart: the directories are
    reset and the log is opened, which adds nothing to the trace; the start
    is logged; the epochs run; the log is closed and the end is logged. *)
Lemma train_inv num_epochs tlf vlf std mean tl vl logger_name (w w' : World) :
  train num_epochs tlf vlf std mean tl vl logger_name w = (w', Ok tt) ->
  exists (w2 w4 : World) jsonlog jsonlog' best',
    trace w2 = trace w /\
    f_path (file jsonlog) = logger_name /\
    encoder jsonlog = dumps_log_dict /\
    train_epochs tlf vlf std mean tl vl (py_range num_epochs)
      (jsonlog, initial_best_val_loss)
      (set_trace (trace w2 ++ [LoggerInfo TrainingStarted]) w2)
    = (w4, Ok (jsonlog', best')) /\
    trace w' = trace w4 ++ [LoggerInfo TrainingFinished].
Proof.
  unfold train, train_session. intros H.
  apply bind_inv_ok in H. destruct H as (w1 & [] & E1 & H).
  pose proof (keeps_eq _ keeps_trace_reset_dirs E1) as T1.
  apply bind_inv_ok in H. destruct H as (w2 & jsonlog & E2 & H).
  apply init_inv in E2. destruct E2 as (T2 & P2 & N2).
  apply bind_inv_ok in H. destruct H as (w3 & [] & E3 & H).
  unfold logger_info, emit, modify in E3. inversion E3; subst w3. clear E3.
  apply bind_inv_ok in H. destruct H as (w4 & [jl best] & E4 & H).
  apply bind_inv_ok in H. destruct H as (w5 & jl' & E5 & H).
  pose proof (keeps_eq _ (keeps_trace_close jl) E5) as T5.
  unfold logger_info, emit, modify in H. inversion H; subst w'. clear H.
  exists w2, w4, jsonlog, jl, best.
  split; [congruence|]. split; [exact P2|]. split; [exact N2|].
  split; [exact E4|]. cbn [trace set_trace]. now rewrite T5.
Qed.

Lemma py_range_length n : List.length (py_range n) = Z.to_nat n.
Proof.
  unfold py_range. now rewrite length_map, length_seq.
Qed.

(** X8: every epoch of a run that ends well is reported to the logger, whether
    it improves or not: the logger is told the start, then one line for
    each of the epochs 1 to [num_epochs], in their order, then the end, and
    nothing else. *)
Theorem every_epoch_is_reported (num_epochs : Z) tlf vlf std mean tl vl
  (logger_name : path) (w w' : World) :
  train num_epochs tlf vlf std mean tl vl logger_name w = (w', Ok tt) ->
  exists evs,
    trace w' = trace w ++ evs /\
    logger_msgs evs
    = TrainingStarted :: map summary_of (epoch_rows evs) ++ [TrainingFinished] /\
    map Epoch (epoch_rows evs) = map Z.succ (py_range num_epochs) /\
    List.length (epoch_rows evs) = Z.to_nat num_epochs.
Proof.
  intros H. apply train_inv in H.
  destruct H as (w2 & w4 & jsonlog & jsonlog' & best' & T2 & P2 & N2 & E4 & T').
  pose proof E4 as E4'.
  apply train_epochs_inv with (prior := []) in E4;
    [| exact N2 | exact best_tracks_initial].
  destruct E4 as (evs & T4 & Hrows & _).
  apply train_epochs_events with (prior := []) in E4'; [| exact best_tracks_initial].
  destruct E4' as (evs' & T4' & Hmsgs & _).
  assert (evs' = evs) by (rewrite T4 in T4'; now apply app_inv_head in T4').
  subst evs'.
  exists ([LoggerInfo TrainingStarted] ++ evs ++ [LoggerInfo TrainingFinished]).
  rewrite !epoch_rows_app, !logger_msgs_app. cbn [epoch_rows logger_msgs List.app].
  rewrite List.app_nil_r.
  split.
  { rewrite T', T4. cbn [trace set_trace]. rewrite T2, <- !List.app_assoc. reflexivity. }
  split; [now rewrite Hmsgs|]. split; [exact Hrows|].
  rewrite <- (length_map Epoch), Hrows, length_map. apply py_range_length.
Qed.


(** X9: as many best models as checkpoints are saved in a run that ends well,
    each to [BestModel/best-model.pt] and each the model dict of the
    checkpoint saved just before: the best model saved last is the model
    of the last checkpoint. *)
Theorem best_model_follows_each_checkpoint (num_epochs : Z) tlf vlf std mean tl vl
  (logger_name : path) (w w' : World) :
  train num_epochs tlf vlf std mean tl vl logger_name w = (w', Ok tt) ->
  exists evs,
    trace w' = trace w ++ evs /\
    map fst (best_models evs) = map (fun c => fst (fst c)) (checkpoint_states evs) /\
    Forall (fun bm => snd bm = outpath ++ ["best-model.pt"%string]) (best_models evs) /\
    List.length (best_models evs) = List.length (saved_checkpoints evs).
Proof.
  intros H. apply train_inv in H.
  destruct H as (w2 & w4 & jsonlog & jsonlog' & best' & T2 & P2 & N2 & E4 & T').
  pose proof E4 as E4'.
  apply train_epochs_inv with (prior := []) in E4;
    [| exact N2 | exact best_tracks_initial].
  destruct E4 as (evs & T4 & _ & Hsaved & _).
  apply train_epochs_events with (prior := []) in E4'; [| exact best_tracks_initial].
  destruct E4' as (evs' & T4' & _ & Hmodels & Hfiles & Hlen & _).
  assert (evs' = evs) by (rewrite T4 in T4'; now apply app_inv_head in T4').
  subst evs'.
  exists ([LoggerInfo TrainingStarted] ++ evs ++ [LoggerInfo TrainingFinished]).
  rewrite !best_models_app, !checkpoint_states_app, !saved_checkpoints_app.
  cbn [best_models checkpoint_states saved_checkpoints List.app].
  rewrite !List.app_nil_r.
  split.
  { rewrite T', T4. cbn [trace set_trace]. rewrite T2, <- !List.app_assoc. reflexivity. }
  split; [exact Hmodels|]. split; [exact Hfiles|].
  now rewrite Hlen, Hsaved, length_map.
Qed.

(** X10: what a checkpoint holds.  In an epoch that ends well the scheduler is
    stepped once, after the validation, whether the epoch improves or not;
    and when it improves, the checkpoint holds the model, the optimizer and
    the scheduler as the epoch leaves them, the step of the scheduler
    included, and the best model saved with it is the same model dict. *)
Theorem checkpoint_holds_the_state_after_the_epoch tlf vlf std mean tl vl jsonlog best
  epoch (w w' : World) jsonlog' best' :
  train_epoch tlf vlf std mean tl vl (jsonlog, best) epoch w
  = (w', Ok (jsonlog', best')) ->
  exists (w1 w2 : World) row evs,
    train_one_step tlf std mean tl w = (w1, Ok (train_loss row, train_time row)) /\
    validate_one_step vlf std mean vl w1 = (w2, Ok (val_loss row, val_time row)) /\
    model w' = model w2 /\
    sched_step (scheduler w) (optimizer w2) = (scheduler w', optimizer w') /\
    trace w' = trace w ++ evs /\
    saves evs
    = if float_lt (val_loss row) best then
        [(checkpath ++ [checkpoint_name epoch (val_loss row)],
          Checkpoint (epoch + 1)
            (as_dict (training (model w')) (state (model w')))
            (optim_state_dict (optimizer w'))
            (sched_state_dict (scheduler w'))
            (val_loss row));
         (outpath ++ ["best-model.pt"%string],
          BestModel (as_dict (training (model w')) (state (model w'))))]
      else [].
Proof.
  intros H. apply train_epoch_events in H.
  destruct H as (row & _ & _ & Htr & w1 & w2 & E1 & E2 & Hm & Hs).
  destruct (train_one_step_spec tlf std mean tl w)
    as (w1' & r1 & E1' & _ & _ & S1 & _).
  rewrite E1 in E1'. inversion E1'; subst w1' r1. clear E1'.
  destruct (validate_one_step_spec vlf std mean vl w1)
    as (w2' & r2 & E2' & _ & _ & S2 & _).
  rewrite E2 in E2'. inversion E2'; subst w2' r2. clear E2'.
  exists w1, w2, row. eexists.
  split; [exact E1|]. split; [exact E2|]. split; [exact Hm|].
  split; [rewrite <- S1, <- S2; exact Hs|].
  split; [exact Htr|].
  destruct (float_lt (val_loss row) best); reflexivity.
Qed.

End RunFacts.

(** *** The order of the checkpoints *)

Lemma float_lt_irrefl x : float_lt x x = false.
Proof.
  destruct (float_lt x x) eqn:E; [|reflexivity].
  destruct (float_lt_not_nan E) as [Hn _].
  apply float_lt_spec in E. apply float_is_nan_spec in Hn.
  rewrite (SFcompare_refl Hn) in E. discriminate.
Qed.

Lemma improves_below_start prior v :
  improves prior v = true -> float_lt v initial_best_val_loss = true.
Proof.
  unfold improves. intros H. now apply andb_prop in H.
Qed.

(** A row that improves on the losses [prior] and on those of the rows
    before it improves on [prior]. *)
Lemma improving_improves rows :
  forall prior r, In r (improving prior rows) -> improves prior (val_loss r) = true.
Proof.
  induction rows as [|r0 rows IH]; intros prior r; simpl; [tauto|].
  rewrite in_app_iff. intros [H|H].
  - destruct (improves prior (val_loss r0)) eqn:E; simpl in H; [|tauto].
    destruct H as [<-|[]]. exact E.
  - apply IH in H. rewrite improves_snoc in H. now apply andb_prop in H.
Qed.

(** Among rows numbered from [base + 1] on, those that improve come with
    growing epochs and falling losses. *)
Lemma improving_descends rows :
  forall prior base,
    (forall k r, nth_error rows k = Some r -> Epoch r = (Z.of_nat (base + k) + 1)%Z) ->
    forall i j a b,
      i < j ->
      nth_error (improving prior rows) i = Some a ->
      nth_error (improving prior rows) j = Some b ->
      (Epoch a < Epoch b)%Z /\ float_lt (val_loss b) (val_loss a) = true.
Proof.
  induction rows as [|r0 rows IH]; intros prior base Hnum i j a b Hij Ha Hb.
  - destruct i; discriminate.
  - assert (Hnum' : forall k r, nth_error rows k = Some r ->
                                Epoch r = (Z.of_nat (S base + k) + 1)%Z).
    { intros k r Hk. rewrite (Hnum (S k) r Hk). f_equal. lia. }
    cbn [improving] in Ha, Hb.
    destruct (improves prior (val_loss r0)) eqn:Himp; cbn [List.app] in Ha, Hb.
    + destruct j as [|j]; [lia|]. cbn [nth_error] in Hb.
      destruct i as [|i].
      * cbn [nth_error] in Ha. inversion Ha; subst a. clear Ha.
        apply nth_error_In in Hb. split.
        -- pose proof (improving_incl _ _ _ Hb) as Hin.
           apply In_nth_error in Hin. destruct Hin as [k Hk].
           rewrite (Hnum 0 r0 eq_refl), (Hnum (S k) b Hk). lia.
        -- apply improving_improves in Hb. rewrite improves_snoc in Hb.
           apply andb_prop in Hb. destruct Hb as [_ Hb].
           apply improves_below_start, float_lt_not_nan in Himp.
           destruct Himp as [Hn _]. rewrite Hn, orb_false_r in Hb. exact Hb.
      * cbn [nth_error] in Ha.
        apply (IH (prior ++ [val_loss r0]) (S base) Hnum' i j a b); [lia | assumption..].
    + apply (IH (prior ++ [val_loss r0]) (S base) Hnum' i j a b); assumption.
Qed.

Section CheckpointOrder.

Context {T : Torch} {R : Runtime}.

(** X11: the checkpoints of a run that ends well come in the order of their
    epochs, every one with a validation loss below 1000.0 and strictly
    below the loss of each checkpoint before it. *)
Theorem checkpoints_descend (num_epochs : Z) tlf vlf std mean tl vl
  (logger_name : path) (w w' : World) :
  train num_epochs tlf vlf std mean tl vl logger_name w = (w', Ok tt) ->
  exists evs,
    trace w' = trace w ++ evs /\
    (forall e l f,
        In (e, l, f) (saved_checkpoints evs) ->
        float_lt l initial_best_val_loss = true) /\
    (forall i j e1 l1 f1 e2 l2 f2,
        i < j ->
        nth_error (saved_checkpoints evs) i = Some (e1, l1, f1) ->
        nth_error (saved_checkpoints evs) j = Some (e2, l2, f2) ->
        (e1 < e2)%Z /\ float_lt l2 l1 = true).
Proof.
  intros H. apply train_inv in H.
  destruct H as (w2 & w4 & jsonlog & jsonlog' & best' & T2 & P2 & N2 & E4 & T').
  apply train_epochs_inv with (prior := []) in E4;
    [| exact N2 | exact best_tracks_initial].
  destruct E4 as (evs & T4 & Hrows & Hsaved & _).
  exists ([LoggerInfo TrainingStarted] ++ evs ++ [LoggerInfo TrainingFinished]).
  rewrite !saved_checkpoints_app. cbn [saved_checkpoints List.app].
  rewrite !List.app_nil_r, Hsaved.
  split.
  { rewrite T', T4. cbn [trace set_trace]. rewrite T2, <- !List.app_assoc. reflexivity. }
  split.
  - intros e l f Hin. apply in_map_iff in Hin. destruct Hin as (r & Hc & Hin).
    unfold checkpoint_of in Hc. inversion Hc; subst.
    eapply improves_below_start, improving_improves, Hin.
  - intros i j e1 l1 f1 e2 l2 f2 Hij H1 H2.
    rewrite nth_error_map in H1, H2.
    destruct (nth_error (improving [] (epoch_rows evs)) i) as [a|] eqn:Ea;
      [|discriminate].
    destruct (nth_error (improving [] (epoch_rows evs)) j) as [b|] eqn:Eb;
      [|discriminate].
    cbn [option_map] in H1, H2. unfold checkpoint_of in H1, H2.
    inversion H1; inversion H2; subst.
    exact (@improving_descends (epoch_rows evs) [] 0
             (map_succ_range_nth _ _ Hrows) i j a b Hij Ea Eb).
Qed.

(** X12: no epoch of a run that ends well has a validation loss strictly below
    the loss of the last checkpoint, or below 1000.0 when no checkpoint was
    saved: the last checkpoint, and with it the best model, is of an epoch
    whose loss is the least of the run, the losses that are no numbers
    apart. *)
Theorem last_checkpoint_has_the_least_loss (num_epochs : Z) tlf vlf std mean tl vl
  (logger_name : path) (w w' : World) :
  train num_epochs tlf vlf std mean tl vl logger_name w = (w', Ok tt) ->
  exists evs,
    trace w' = trace w ++ evs /\
    let least :=
      last (map (fun c => snd (fst c)) (saved_checkpoints evs)) initial_best_val_loss in
    float_is_nan least = false /\
    forall r,
      In r (epoch_rows evs) ->
      float_lt (val_loss r) least = false /\
      (float_is_nan (val_loss r) = false -> float_le least (val_loss r) = true).
Proof.
  intros H. apply train_inv in H.
  destruct H as (w2 & w4 & jsonlog & jsonlog' & best' & T2 & P2 & N2 & E4 & T').
  pose proof E4 as E4'.
  apply train_epochs_inv with (prior := []) in E4;
    [| exact N2 | exact best_tracks_initial].
  destruct E4 as (evs & T4 & _ & Hsaved & _ & Hbest).
  apply train_epochs_events with (prior := []) in E4'; [| exact best_tracks_initial].
  destruct E4' as (evs' & T4' & _ & _ & _ & _ & Hlast).
  assert (evs' = evs) by (rewrite T4 in T4'; now apply app_inv_head in T4').
  subst evs'.
  exists ([LoggerInfo TrainingStarted] ++ evs ++ [LoggerInfo TrainingFinished]).
  rewrite !saved_checkpoints_app, !epoch_rows_app.
  cbn [saved_checkpoints epoch_rows List.app].
  rewrite !List.app_nil_r, Hsaved, map_map.
  cbn [checkpoint_of fst snd].
  change (map (fun x : log_dict => val_loss x)) with (map val_loss).
  rewrite <- Hlast. cbn [List.app] in Hbest. destruct Hbest as [Hnan Hb].
  split.
  { rewrite T', T4. cbn [trace set_trace]. rewrite T2, <- !List.app_assoc. reflexivity. }
  split; [exact Hnan|].
  intros r Hin.
  assert (Hlt : float_lt (val_loss r) best' = false).
  { destruct (float_lt (val_loss r) best') eqn:E; [|reflexivity].
    pose proof E as E'. rewrite Hb in E'. unfold improves in E'.
    apply andb_prop in E'. destruct E' as [_ E'].
    rewrite forallb_forall in E'.
    specialize (E' (val_loss r) (in_map val_loss _ _ Hin)).
    rewrite float_lt_irrefl in E'. cbn [orb] in E'.
    destruct (float_lt_not_nan E) as [Hn _]. congruence. }
  split; [exact Hlt|].
  intros Hn. now apply float_not_lt_le.
Qed.

End CheckpointOrder.

(** ** The names of the checkpoint files *)

Lemma txt_append (s1 s2 : string) : txt (s1 ++ s2) = txt s1 ++ txt s2.
Proof.
  unfold txt. induction s1 as [|c s1 IH]; simpl; [reflexivity | now rewrite IH].
Qed.

Lemma uint_chars_zeros k d :
  repeat "0"%char k ++ uint_chars d = uint_chars (Nat.iter k D0 d).
Proof.
  induction k as [|k IH]; simpl; [reflexivity | now rewrite IH].
Qed.

Lemma of_uint_zeros k d : N.of_uint (Nat.iter k D0 d) = N.of_uint d.
Proof.
  induction k as [|k IH]; simpl; [reflexivity | exact IH].
Qed.

(** The text of ["%05d" % n] for a natural number: zeros, then the digits
    of the number. *)
Lemma format_05d_digits n :
  (0 <= n)%Z ->
  exists k, txt (format_05d n) = uint_chars (Nat.iter k D0 (N.to_uint (Z.abs_N n))).
Proof.
  intros Hn. unfold format_05d, txt.
  destruct (Z.ltb_spec n 0) as [H|_]; [lia|].
  rewrite list_ascii_of_string_of_list_ascii. cbn [List.app List.length].
  unfold dumps_N. eexists. apply uint_chars_zeros.
Qed.

Section CheckpointNames.

Context {R : Runtime}.

Lemma checkpoint_name_inj e1 e2 l1 l2 :
  (0 <= e1)%Z -> (0 <= e2)%Z ->
  checkpoint_name e1 l1 = checkpoint_name e2 l2 -> e1 = e2.
Proof.
  intros H1 H2 E. apply (f_equal txt) in E. unfold checkpoint_name in E.
  rewrite !txt_append in E.
  destruct (@format_05d_digits (e1 + 1)) as [k1 F1]; [lia|].
  destruct (@format_05d_digits (e2 + 1)) as [k2 F2]; [lia|].
  rewrite F1, F2 in E. apply (f_equal scan_digits) in E.
  rewrite !scan_digits_uint in E by reflexivity.
  inversion E as [[Hd Hrest]]. apply (f_equal N.of_uint) in Hd.
  rewrite !of_uint_zeros, !DecimalN.Unsigned.of_to in Hd. lia.
Qed.

(** X13: the name of a checkpoint file tells its epoch, whatever the text of the
    loss: the checkpoints of two epochs never share a file. *)
Theorem checkpoint_name_tells_the_epoch (e1 e2 : Z) (l1 l2 : float) :
  (0 <= e1)%Z -> (0 <= e2)%Z -> e1 <> e2 ->
  checkpoint_name e1 l1 <> checkpoint_name e2 l2.
Proof.
  intros H1 H2 Hne E. apply Hne. exact (checkpoint_name_inj l1 l2 H1 H2 E).
Qed.

Lemma improving_files_nodup rows :
  forall prior base,
    (forall k r, nth_error rows k = Some r -> Epoch r = (Z.of_nat (base + k) + 1)%Z) ->
    NoDup (map (fun r => snd (checkpoint_of r)) (improving prior rows)).
Proof.
  induction rows as [|r0 rows IH]; intros prior base Hnum; [constructor|].
  assert (Hnum' : forall k r, nth_error rows k = Some r ->
                              Epoch r = (Z.of_nat (S base + k) + 1)%Z).
  { intros k r Hk. rewrite (Hnum (S k) r Hk). f_equal. lia. }
  cbn [improving].
  destruct (improves prior (val_loss r0)); cbn [List.app map];
    [|exact (IH _ _ Hnum')].
  constructor; [|exact (IH _ _ Hnum')].
  intros Hin. apply in_map_iff in Hin. destruct Hin as (b & Hf & Hin).
  apply improving_incl, In_nth_error in Hin. destruct Hin as [k Hk].
  unfold checkpoint_of in Hf. cbn [snd] in Hf.
  apply app_inv_head in Hf. inversion Hf as [Hname].
  apply checkpoint_name_inj in Hname;
    rewrite (Hnum 0 r0 eq_refl), (Hnum (S k) b Hk) in *; lia.
Qed.

End CheckpointNames.

Section CheckpointFiles.

Context {T : Torch} {R : Runtime}.

(** X14: in a run that ends well no checkpoint file is written twice: every
    checkpoint goes to a file of its own in [CheckPoints]. *)
Theorem no_checkpoint_is_overwritten (num_epochs : Z) tlf vlf std mean tl vl
  (logger_name : path) (w w' : World) :
  train num_epochs tlf vlf std mean tl vl logger_name w = (w', Ok tt) ->
  exists evs,
    trace w' = trace w ++ evs /\
    NoDup (map snd (saved_checkpoints evs)) /\
    forall e l f,
      In (e, l, f) (saved_checkpoints evs) ->
      f = checkpath ++ [checkpoint_name (e - 1) l].
Proof.
  intros H. apply train_inv in H.
  destruct H as (w2 & w4 & jsonlog & jsonlog' & best' & T2 & P2 & N2 & E4 & T').
  apply train_epochs_inv with (prior := []) in E4;
    [| exact N2 | exact best_tracks_initial].
  destruct E4 as (evs & T4 & Hrows & Hsaved & _).
  exists ([LoggerInfo TrainingStarted] ++ evs ++ [LoggerInfo TrainingFinished]).
  rewrite !saved_checkpoints_app. cbn [saved_checkpoints List.app].
  rewrite !List.app_nil_r, Hsaved.
  split.
  { rewrite T', T4. cbn [trace set_trace]. rewrite T2, <- !List.app_assoc. reflexivity. }
  split.
  - rewrite map_map.
    exact (@improving_files_nodup _ (epoch_rows evs) [] 0 (map_succ_range_nth _ _ Hrows)).
  - intros e l f Hin. apply in_map_iff in Hin. destruct Hin as (r & Hc & _).
    unfold checkpoint_of in Hc. inversion Hc; subst. reflexivity.
Qed.

End CheckpointFiles.

(** ** The directories of the trainer *)

Lemma fs_alter_top a p f es n' :
  fs_alter (a :: p) f (Dir es) = Ok n' ->
  exists es', n' = Dir es' /\
              forall b, b <> a -> assoc_get b es' = assoc_get b es.
Proof.
  cbn [fs_alter]. destruct p as [|x p].
  - destruct (f (assoc_get a es)) as [[c|]|e]; intros H; inversion H; subst;
      eexists; (split; [reflexivity|]); intros b Hb.
    + apply assoc_get_set_neq. congruence.
    + apply assoc_get_del_neq. congruence.
  - destruct (assoc_get a es) as [c|]; [|discriminate].
    destruct (fs_alter (x :: p) f c) as [c'|e]; intros H; inversion H; subst.
    eexists; split; [reflexivity|]. intros b Hb.
    apply assoc_get_set_neq. congruence.
Qed.

Lemma fs_lookup_top x q es es' :
  assoc_get x es' = assoc_get x es ->
  fs_lookup (x :: q) (Dir es') = fs_lookup (x :: q) (Dir es).
Proof.
  intros H. cbn [fs_lookup]. now rewrite H.
Qed.

Section TrainerDirectories.

Context {T : Torch} {R : Runtime}.

(** The two directories after the first lines of [train]. *)
Lemma reset_dirs_ok es (w : World) :
  fs w = Dir es ->
  (assoc_get "BestModel" es = None \/ exists c, assoc_get "BestModel" es = Some (Dir c)) ->
  (assoc_get "CheckPoints" es = None \/
   exists c, assoc_get "CheckPoints" es = Some (Dir c)) ->
  exists es',
    reset_dirs w = (set_fs (Dir es') w, Ok tt) /\
    assoc_get "BestModel" es' = Some (Dir []) /\
    assoc_get "CheckPoints" es' = Some (Dir []) /\
    (forall name,
        name <> "BestModel"%string -> name <> "CheckPoints"%string ->
        assoc_get name es' = assoc_get name es).
Proof.
  intros Hfs Hout Hcheck.
  destruct (reset_one_dir "BestModel" w Hfs Hout) as (es1 & E1 & G1 & F1).
  assert (Hcheck1 : assoc_get "CheckPoints" es1 = None \/
                    exists c, assoc_get "CheckPoints" es1 = Some (Dir c)).
  { rewrite F1 by discriminate. exact Hcheck. }
  destruct (reset_one_dir "CheckPoints" (set_fs (Dir es1) w) eq_refl Hcheck1)
    as (es2 & E2 & G2 & F2).
  exists es2. split.
  - unfold reset_dirs, outpath, checkpath.
    match type of E1 with ?m1 w = _ =>
      match type of E2 with ?m2 _ = _ =>
        transitivity (bind m1 (fun _ => m2) w);
          [ unfold bind, get;
            destruct ((if fs_exists ["BestModel"%string] (fs w)
                       then on_fs (fs_rmtree ["BestModel"%string]) else ret tt) w)
              as [wa [[]|e]]; [|reflexivity];
            destruct (on_fs (fs_mkdir ["BestModel"%string]) wa) as [wb [[]|e]];
            reflexivity
          | rewrite (bind_ok m1 (fun _ => m2) w E1); exact E2 ]
      end
    end.
  - split; [rewrite F2 by discriminate; exact G1|].
    split; [exact G2|].
    intros name N1 N2. rewrite F2, F1 by congruence. reflexivity.
Qed.

(** X15: a regular file in the place of one of the two directories stops
    [train] at once, with [NotADirectoryError] from [shutil.rmtree].  When
    the file is named [BestModel], nothing has been done.  When it is named
    [CheckPoints], the directory [BestModel] has been emptied already: the
    best model of an earlier run is lost to a run that does not start. *)
Theorem train_stops_at_a_file_in_the_way (num_epochs : Z) tlf vlf std mean tl vl
  (logger_name : path) (es : list (string * node)) (w : World) :
  fs w = Dir es ->
  (forall d,
      assoc_get "BestModel" es = Some (File d) ->
      train num_epochs tlf vlf std mean tl vl logger_name w
      = (w, Raise NotADirectoryError)) /\
  (forall d,
      (assoc_get "BestModel" es = None \/
       exists c, assoc_get "BestModel" es = Some (Dir c)) ->
      assoc_get "CheckPoints" es = Some (File d) ->
      exists es',
        train num_epochs tlf vlf std mean tl vl logger_name w
        = (set_fs (Dir es') w, Raise NotADirectoryError) /\
        assoc_get "BestModel" es' = Some (Dir []) /\
        (forall name, name <> "BestModel"%string -> assoc_get name es' = assoc_get name es)).
Proof.
  intros Hfs. split.
  - intros d Hb. unfold train, reset_dirs.
    unfold bind at 1. unfold bind at 1. unfold get at 1.
    unfold fs_exists, outpath. rewrite Hfs, fs_lookup_single, Hb.
    unfold bind at 1. unfold on_fs, fs_rmtree. rewrite Hfs. cbn [fs_alter].
    rewrite Hb. reflexivity.
  - intros d Hb Hc.
    destruct (reset_one_dir "BestModel" w Hfs Hb) as (es1 & E1 & G1 & F1).
    exists es1. split; [|split; [exact G1 | exact F1]].
    unfold train, reset_dirs, outpath.
    unfold bind at 1.
    match type of E1 with ?m1 w = _ =>
      match goal with |- context [bind get ?k] =>
        transitivity
          (match (bind m1 (fun _ =>
                    w0 <- get ;;
                    (if fs_exists checkpath (fs w0)
                     then on_fs (fs_rmtree checkpath) else ret tt) ;;
                    on_fs (fs_mkdir checkpath)) w) with
           | (w', Ok a) =>
               train_session num_epochs tlf vlf std mean tl vl logger_name w'
           | (w', Raise e) => (w', Raise e)
           end)
      end
    end.
    + unfold bind, get.
      destruct ((if fs_exists ["BestModel"%string] (fs w)
                 then on_fs (fs_rmtree ["BestModel"%string]) else ret tt) w)
        as [wa [[]|e]]; [|reflexivity].
      destruct (on_fs (fs_mkdir ["BestModel"%string]) wa) as [wb [[]|e]];
        reflexivity.
    + rewrite (bind_ok _ _ _ E1).
      unfold bind at 1. unfold get at 1. cbn [fs set_fs].
      unfold fs_exists, checkpath. rewrite fs_lookup_single.
      rewrite F1 by discriminate. rewrite Hc.
      unfold bind at 1. unfold on_fs, fs_rmtree. cbn [fs set_fs fs_alter].
      rewrite F1 by discriminate. rewrite Hc. reflexivity.
Qed.

End TrainerDirectories.

(** ** What a run leaves on the disk *)

Section SavedFiles.

Context {T : Torch}.

Lemma saves_app (a b : list event) : saves (a ++ b) = saves a ++ saves b.
Proof.
  induction a as [|e a IH]; simpl; [reflexivity|].
  destruct e; simpl; rewrite ?IH; reflexivity.
Qed.

Lemma last_saved_snoc_save f t obj g :
  last_saved f (t ++ [TorchSave obj g])
  = if list_eq_dec string_dec g f then Some obj else last_saved f t.
Proof.
  unfold last_saved. rewrite saves_app. cbn [saves].
  rewrite rev_app_distr. cbn [List.rev List.app List.find fst snd].
  destruct (list_eq_dec string_dec g f); reflexivity.
Qed.

Lemma last_saved_snoc_other f t e :
  saves [e] = [] -> last_saved f (t ++ [e]) = last_saved f t.
Proof.
  intros H. unfold last_saved. now rewrite saves_app, H, List.app_nil_r.
Qed.

Lemma dir_holds_other_event d t e es :
  saves [e] = [] -> dir_holds d t es -> dir_holds d (t ++ [e]) es.
Proof.
  intros He (c & G & H). exists c. split; [exact G|].
  intros name. now rewrite last_saved_snoc_other.
Qed.

Lemma dir_holds_frame d t es es' :
  assoc_get d es' = assoc_get d es -> dir_holds d t es -> dir_holds d t es'.
Proof.
  intros E (c & G & H). exists c. split; [congruence | exact H].
Qed.

Lemma dir_holds_save_elsewhere d d' file obj t es :
  d <> d' -> dir_holds d t es ->
  dir_holds d (t ++ [TorchSave obj [d'; file]]) es.
Proof.
  intros Hne (c & G & H). exists c. split; [exact G|].
  intros name. rewrite last_saved_snoc_save.
  destruct (list_eq_dec string_dec [d'; file] [d; name]) as [E|_]; [|apply H].
  inversion E. congruence.
Qed.

(** Saving to a file of a directory that holds saved files only. *)
Lemma dir_holds_save d file obj t es :
  dir_holds d t es ->
  exists es',
    fs_alter [d; file]
      (fun o => match o with
                | Some (Dir _) => Raise IsADirectoryError
                | _ => Ok (Some (File (pickle obj)))
                end) (Dir es) = Ok (Dir es') /\
    dir_holds d (t ++ [TorchSave obj [d; file]]) es' /\
    forall b, b <> d -> assoc_get b es' = assoc_get b es.
Proof.
  intros (c & G & H).
  exists (assoc_set d (Dir (assoc_set file (File (pickle obj)) c)) es).
  split; [|split].
  - cbn [fs_alter]. rewrite G.
    assert (Hf : match assoc_get file c with
                 | Some (Dir _) => Raise IsADirectoryError
                 | _ => Ok (Some (File (pickle obj)))
                 end = Ok (Some (File (pickle obj)))).
    { rewrite (H file). destruct (last_saved [d; file] t); reflexivity. }
    rewrite Hf. reflexivity.
  - exists (assoc_set file (File (pickle obj)) c).
    split; [apply assoc_get_set_eq|].
    intros name. rewrite last_saved_snoc_save.
    destruct (list_eq_dec string_dec [d; file] [d; name]) as [E|N].
    + inversion E; subst. apply assoc_get_set_eq.
    + rewrite assoc_get_set_neq by congruence. apply H.
  - intros b Hb. apply assoc_get_set_neq. congruence.
Qed.

End SavedFiles.

(** One record more in a log whose first separator is [head]. *)
Lemma log_state_from_step head ds c delim d :
  log_state_from head ds c delim ->
  log_state_from head (ds ++ [d])
    (firstn (Z.to_nat (Z.max (Z.of_nat (List.length c) - 3) 0)) c ++
     delim ++ [nl] ++ txt "    " ++ d ++ [nl; "]"%char; nl])
    (txt ",").
Proof.
  intros [(-> & -> & ->) | (Hne & -> & ->)]; right.
  - split; [discriminate|]. split; reflexivity.
  - split; [destruct ds; discriminate|]. split; [|reflexivity].
    pose proof (@lines_step (head ++ [nl] ++ txt "    ") ds d Hne) as L.
    rewrite <- !List.app_assoc in L. exact L.
Qed.

Lemma log_file_text_from_bracket recs :
  log_file_text_from (txt "[") recs = log_file_text recs.
Proof.
  destruct recs; reflexivity.
Qed.

Section RunSteps.

Context {T : Torch} {R : Runtime}.

Variables (lname : string) (rest : path) (head : text).

Hypothesis not_outpath : lname <> "BestModel"%string.
Hypothesis not_checkpath : lname <> "CheckPoints"%string.

Let logger_name : path := lname :: rest.

(** A step that touches neither the disk nor the trace. *)
Lemma run_state_frame t0 evs ds jsonlog (w w' : World) :
  fs w' = fs w -> trace w' = trace w ->
  run_state head logger_name t0 evs ds jsonlog w ->
  run_state head logger_name t0 evs ds jsonlog w'.
Proof.
  intros Hf Ht (Tr & Hd & Hw & Hc). unfold run_state. rewrite Hf, Ht. auto.
Qed.

Lemma run_state_logger_info t0 evs ds jsonlog (w : World) msg :
  run_state head logger_name t0 evs ds jsonlog w ->
  run_state head logger_name t0 (evs ++ [LoggerInfo msg]) ds jsonlog
    (set_trace (trace w ++ [LoggerInfo msg]) w).
Proof.
  intros (Tr & (es & Hfs & Hb & Hc) & Hw & Hl). split; [|split; [|split]].
  - cbn [trace set_trace]. now rewrite Tr, List.app_assoc.
  - exists es. cbn [fs set_trace].
    split; [exact Hfs|]. split; apply dir_holds_other_event; auto.
  - exact Hw.
  - exact Hl.
Qed.

(** [torch.save] to a file of one of the two directories. *)
Lemma run_state_torch_save t0 evs ds jsonlog (w : World) obj d d' file :
  (d = "BestModel"%string /\ d' = "CheckPoints"%string) \/
  (d = "CheckPoints"%string /\ d' = "BestModel"%string) ->
  run_state head logger_name t0 evs ds jsonlog w ->
  exists w',
    torch_save obj [d; file] w = (w', Ok tt) /\
    trainer_objects w' = trainer_objects w /\
    run_state head logger_name t0 (evs ++ [TorchSave obj [d; file]]) ds jsonlog w'.
Proof.
  intros Hd (Tr & (es & Hfs & Hb & Hc) & Hw & (c & Hr & Hl)).
  assert (Hdd : d <> d' /\ lname <> d /\ dir_holds d evs es /\ dir_holds d' evs es).
  { destruct Hd as [[-> ->] | [-> ->]]; repeat split; auto; discriminate. }
  destruct Hdd as (Hne & Hln & Hdir & Hdir').
  destruct (dir_holds_save file obj Hdir) as (es' & E & Hdir1 & Hframe).
  eexists. split; [|split].
  - unfold torch_save, bind, on_fs. rewrite Hfs, E. unfold emit, modify. reflexivity.
  - reflexivity.
  - assert (Hdir1' : dir_holds d' (evs ++ [TorchSave obj [d; file]]) es').
    { apply dir_holds_save_elsewhere; [congruence|].
      apply dir_holds_frame with (es := es); [apply Hframe; congruence | exact Hdir']. }
    split; [|split; [|split]].
    + cbn [trace set_trace set_fs]. now rewrite Tr, List.app_assoc.
    + exists es'. cbn [fs set_trace set_fs]. split; [reflexivity|].
      destruct Hd as [[-> ->] | [-> ->]]; auto.
    + exact Hw.
    + exists c. cbn [fs set_trace set_fs]. split; [|exact Hl].
      rewrite <- Hr, Hfs. unfold fs_read, logger_name.
      rewrite (@fs_lookup_top lname rest es es'); [reflexivity|].
      apply Hframe. exact Hln.
Qed.

(** [dump] of a row. *)
Lemma run_state_dump t0 evs ds jsonlog (w : World) (row : log_dict) :
  run_state head logger_name t0 evs ds jsonlog w ->
  exists w' jsonlog',
    dump jsonlog row w = (w', Ok jsonlog') /\
    trainer_objects w' = trainer_objects w /\
    run_state head logger_name t0
      (evs ++ [FileWrite logger_name
                 (dump_text (delimeter jsonlog) (dumps_log_dict row))])
      (ds ++ [dumps_log_dict row]) jsonlog' w'.
Proof.
  intros (Tr & (es & Hfs & Hb & Hc) & (Hp & Hcl & Hpe & He) & (c & Hr & Hl)).
  apply fs_read_lookup in Hr. rewrite <- Hp in Hr.
  destruct (dump_on_clean_file jsonlog row w Hcl Hpe Hr) as (n' & Es & Rd & E).
  rewrite Hfs, Hp in Es. unfold fs_store, logger_name in Es.
  apply fs_alter_top in Es. destruct Es as (es' & -> & Hframe).
  do 2 eexists. split; [exact E|]. split; [reflexivity|].
  split; [|split; [|split]].
  - cbn [trace set_trace set_fs]. rewrite Tr, <- List.app_assoc, Hp, He. reflexivity.
  - exists es'. cbn [fs set_trace set_fs]. split; [reflexivity|].
    split; apply dir_holds_other_event; try reflexivity;
      (eapply dir_holds_frame; [apply Hframe; congruence | eassumption]).
  - repeat split; cbn; auto.
  - eexists. cbn [fs set_trace set_fs delimeter]. split.
    + rewrite <- Hp. exact Rd.
    + rewrite He. apply log_state_from_step. exact Hl.
Qed.


Lemma improving_app prior (a b : list log_dict) :
  improving prior (a ++ b) = improving prior a ++ improving (prior ++ map val_loss a) b.
Proof.
  revert prior. induction a as [|r a IH]; intros prior; simpl.
  - now rewrite List.app_nil_r.
  - rewrite IH, <- !List.app_assoc. reflexivity.
Qed.

(** An epoch over dataloaders that are not empty ends well, and leaves the
    state of the run in order. *)
Lemma train_epoch_run tlf vlf std mean (tl vl : DataLoader) t0 evs ds jsonlog best epoch
  (w : World) :
  dl_len tl <> 0 -> dl_len vl <> 0 ->
  run_state head logger_name t0 evs ds jsonlog w ->
  exists w' jsonlog' row evs1,
    train_epoch tlf vlf std mean tl vl (jsonlog, best) epoch w
    = (w', Ok (jsonlog', if float_lt (val_loss row) best then val_loss row else best)) /\
    epoch_rows evs1 = [row] /\
    run_state head logger_name t0 (evs ++ evs1)
      (ds ++ if float_lt (val_loss row) best then [dumps_log_dict row] else [])
      jsonlog' w'.
Proof.
  intros Htl Hvl Hs.
  destruct (@train_one_step_spec _ _ tlf std mean tl w)
    as (w1 & r1 & E1 & F1 & T1 & _ & _ & _ & _ & N1).
  destruct (N1 Htl) as [[tloss ttime] ->].
  destruct (@validate_one_step_spec _ _ vlf std mean vl w1)
    as (w2 & r2 & E2 & F2 & T2 & _ & _ & _ & _ & _ & N2).
  destruct (N2 Hvl) as [[vloss vtime] ->].
  assert (E3 : exists w3, scheduler_step w2 = (w3, Ok tt) /\
                          fs w3 = fs w2 /\ trace w3 = trace w2).
  { unfold scheduler_step, modify. destruct (sched_step _ _) eqn:S.
    eexists. split; [reflexivity|]. split; reflexivity. }
  destruct E3 as (w3 & E3 & F3 & T3).
  set (row := {| Epoch := epoch + 1; train_loss := tloss; val_loss := vloss;
                 train_time := ttime; val_time := vtime |}).
  set (msg := EpochSummary (epoch + 1) tloss vloss ttime vtime).
  assert (Hs3 : run_state head logger_name t0 evs ds jsonlog w3).
  { apply run_state_frame with (w := w); [congruence | congruence | exact Hs]. }
  pose proof (run_state_logger_info msg Hs3) as Hs4.
  set (w4 := set_trace (trace w3 ++ [LoggerInfo msg]) w3) in *.
  assert (Hhead :
             train_epoch tlf vlf std mean tl vl (jsonlog, best) epoch w
             = (if float_lt vloss best then
                  w0 <- get ;;
                  torch_save
                    (Checkpoint (epoch + 1)
                       (as_dict (training (model w0)) (state (model w0)))
                       (optim_state_dict (optimizer w0))
                       (sched_state_dict (scheduler w0)) vloss)
                    (checkpath ++ [checkpoint_name epoch vloss]) ;;
                  jl <- dump jsonlog row ;;
                  w0 <- get ;;
                  torch_save (BestModel (as_dict (training (model w0)) (state (model w0))))
                    (outpath ++ ["best-model.pt"%string]) ;;
                  ret (jl, vloss)
                else ret (jsonlog, best)) w4).
  { unfold train_epoch.
    rewrite (bind_ok _ _ _ E1). cbv beta iota.
    rewrite (bind_ok _ _ _ E2). cbv beta iota.
    rewrite (bind_ok _ _ _ E3).
    unfold logger_info, emit. unfold bind at 1. unfold modify at 1. reflexivity. }
  rewrite Hhead. clear Hhead.
  destruct (float_lt vloss best) eqn:Hlt.
  - destruct (@run_state_torch_save t0 _ ds jsonlog w4
                (Checkpoint (epoch + 1)
                   (as_dict (training (model w4)) (state (model w4)))
                   (optim_state_dict (optimizer w4))
                   (sched_state_dict (scheduler w4)) vloss)
                "CheckPoints" "BestModel" (checkpoint_name epoch vloss)
                (or_intror (conj eq_refl eq_refl)) Hs4) as (w5 & E5 & O5 & Hs5).
    destruct (run_state_dump row Hs5) as (w6 & jl & E6 & O6 & Hs6).
    destruct (@run_state_torch_save t0 _ _ jl w6
                (BestModel (as_dict (training (model w6)) (state (model w6))))
                "BestModel" "CheckPoints" "best-model.pt"
                (or_introl (conj eq_refl eq_refl)) Hs6) as (w7 & E7 & O7 & Hs7).
    exists w7, jl, row. eexists. split; [|split].
    + rewrite (bind_ok _ _ _ (eq_refl : get w4 = (w4, Ok w4))).
      change (checkpath ++ [checkpoint_name epoch vloss])
        with ["CheckPoints"%string; checkpoint_name epoch vloss].
      rewrite (bind_ok _ _ _ E5). rewrite (bind_ok _ _ _ E6).
      rewrite (bind_ok _ _ _ (eq_refl : get w6 = (w6, Ok w6))).
      change (outpath ++ ["best-model.pt"%string])
        with ["BestModel"%string; "best-model.pt"%string].
      rewrite (bind_ok _ _ _ E7). cbn [val_loss row]. rewrite Hlt. reflexivity.
    + shelve.
    + cbn [val_loss row]. rewrite Hlt.
      rewrite <- !List.app_assoc in Hs7. exact Hs7.
  - exists w4, jsonlog, row, [LoggerInfo msg]. split; [|split].
    + cbn [val_loss row]. rewrite Hlt. reflexivity.
    + reflexivity.
    + cbn [val_loss row]. rewrite Hlt. rewrite List.app_nil_r. exact Hs4.
  Unshelve.
  reflexivity.
Qed.

(** The epoch loop over dataloaders that are not empty ends well; the
    records it appends are those of the rows that improve. *)
Lemma train_epochs_run tlf vlf std mean (tl vl : DataLoader) t0 epochs :
  dl_len tl <> 0 -> dl_len vl <> 0 ->
  forall evs ds jsonlog best prior (w : World),
    run_state head logger_name t0 evs ds jsonlog w ->
    best_tracks prior best ->
    exists w' jsonlog' best' evs1,
      train_epochs tlf vlf std mean tl vl epochs (jsonlog, best) w
      = (w', Ok (jsonlog', best')) /\
      run_state head logger_name t0 (evs ++ evs1)
        (ds ++ map dumps_log_dict (improving prior (epoch_rows evs1))) jsonlog' w'.
Proof.
  intros Htl Hvl. unfold train_epochs.
  induction epochs as [|epoch epochs IH]; intros evs ds jsonlog best prior w Hs Hbest.
  - exists w, jsonlog, best, []. split; [reflexivity|].
    cbn. now rewrite !List.app_nil_r.
  - destruct (@train_epoch_run tlf vlf std mean tl vl t0 evs ds jsonlog best epoch w
                Htl Hvl Hs) as (w1 & jl1 & row & evsA & E1 & Hrow & Hs1).
    assert (Hcond : float_lt (val_loss row) best = improves prior (val_loss row))
      by apply Hbest.
    destruct (IH _ _ jl1 _ (prior ++ [val_loss row]) w1 Hs1
                (best_tracks_step (val_loss row) Hbest))
      as (w' & jl' & best' & evsB & E2 & Hs2).
    exists w', jl', best', (evsA ++ evsB). split.
    + cbn [for_each]. rewrite (bind_ok _ _ _ E1). exact E2.
    + rewrite epoch_rows_app, Hrow. cbn [List.app improving].
      rewrite <- Hcond, map_app, !List.app_assoc.
      rewrite <- !List.app_assoc in Hs2. rewrite !List.app_assoc in Hs2.
      destruct (float_lt (val_loss row) best); exact Hs2.
Qed.

(** The path of the log is not touched by what changes the two
    directories only. *)
Lemma log_on_disk_frame ds es es' :
  assoc_get lname es' = assoc_get lname es ->
  log_on_disk logger_name ds (Dir es) -> log_on_disk logger_name ds (Dir es').
Proof.
  intros Hf [(-> & dir & name & es0 & Hp & Hd & Hn) | (Hne & Hc)].
  - left. split; [reflexivity|]. exists dir, name.
    destruct dir as [|x q].
    + cbn [fs_lookup] in Hd. inversion Hd; subst es0.
      exists es'. split; [exact Hp|]. split; [reflexivity|].
      unfold logger_name in Hp. cbn [List.app] in Hp. inversion Hp; subst.
      congruence.
    + exists es0. split; [exact Hp|]. split; [|exact Hn].
      unfold logger_name in Hp. cbn [List.app] in Hp. inversion Hp; subst x.
      rewrite <- Hd. now apply fs_lookup_top.
  - right. split; [exact Hne|]. rewrite <- Hc. unfold fs_read, logger_name.
    now rewrite (@fs_lookup_top lname rest es es').
Qed.

Lemma log_on_disk_from_frame ds es es' :
  assoc_get lname es' = assoc_get lname es ->
  log_on_disk_from head logger_name ds (Dir es) ->
  log_on_disk_from head logger_name ds (Dir es').
Proof.
  intros Hf [(Hh & Hl) | (Hh & Hds & Hc)].
  - left. split; [exact Hh|]. now apply log_on_disk_frame with (es := es).
  - right. split; [exact Hh|]. split; [exact Hds|].
    rewrite <- Hc. unfold fs_read, logger_name.
    now rewrite (@fs_lookup_top lname rest es es').
Qed.

(** The making of the writer, at the start of a run. *)
Lemma init_run ds es (w : World) :
  fs w = Dir es ->
  dir_holds "BestModel" [] es -> dir_holds "CheckPoints" [] es ->
  log_on_disk_from head logger_name ds (fs w) ->
  exists w' jsonlog,
    StreamingJSONWriter_init logger_name dumps_log_dict w = (w', Ok jsonlog) /\
    trainer_objects w' = trainer_objects w /\
    timer_reads w' = timer_reads w /\
    run_state head logger_name (trace w) [] ds jsonlog w'.
Proof.
  intros Hfs Hb Hc Hl.
  destruct (init_on_path logger_name dumps_log_dict w) as [Hold Hnew].
  destruct Hl as [(Hh & [(-> & dir & name & es0 & Hp & Hd & Hn) | (Hne & Hr)])
                 | (Hh & -> & Hr)].
  - destruct (Hnew dir name es0 Hp Hd Hn) as (Hex & n' & E & L).
    assert (Hcreate : fs_create logger_name (fs w) = Ok n').
    { revert E. unfold StreamingJSONWriter_init, bind, get. rewrite Hex.
      unfold py_open, bind, on_fs.
      destruct (fs_create logger_name (fs w)) as [n''|e]; [|discriminate].
      unfold ret. intros E. inversion E as [[En]]. reflexivity. }
    rewrite Hfs in Hcreate. unfold fs_create, logger_name in Hcreate.
    apply fs_alter_top in Hcreate. destruct Hcreate as (es' & -> & Hframe).
    do 2 eexists. split; [exact E|]. split; [reflexivity|]. split; [reflexivity|].
    split; [|split; [|split]].
    + cbn [trace set_fs]. now rewrite List.app_nil_r.
    + exists es'. cbn [fs set_fs]. split; [reflexivity|].
      split; (eapply dir_holds_frame; [apply Hframe; congruence | eassumption]).
    + repeat split.
    + exists []. cbn [fs set_fs delimeter]. split.
      * now apply fs_read_lookup.
      * left. repeat split. now rewrite Hh.
  - pose proof Hr as Hr'. apply fs_read_lookup in Hr'.
    do 2 eexists. split; [exact (Hold _ Hr')|].
    split; [reflexivity|]. split; [reflexivity|].
    split; [|split; [|split]].
    + now rewrite List.app_nil_r.
    + exists es. auto.
    + repeat split.
    + exists (log_text ds). cbn [delimeter]. split; [exact Hr|].
      right. rewrite Hh. repeat split. exact Hne.
  - pose proof Hr as Hr'. apply fs_read_lookup in Hr'.
    do 2 eexists. split; [exact (Hold _ Hr')|].
    split; [reflexivity|]. split; [reflexivity|].
    split; [|split; [|split]].
    + now rewrite List.app_nil_r.
    + exists es. auto.
    + repeat split.
    + exists []. cbn [delimeter]. split; [exact Hr|].
      left. repeat split. now rewrite Hh.
Qed.

Lemma dir_holds_empty d es : assoc_get d es = Some (Dir []) -> dir_holds d [] es.
Proof.
  intros H. exists []. split; [exact H|]. intros name. reflexivity.
Qed.

Lemma dir_holds_saves d t es :
  dir_holds d t es -> holds_saves [d] t (Dir es).
Proof.
  intros (c & G & H) name. cbn [List.app fs_lookup]. rewrite G.
  rewrite <- (H name). destruct (assoc_get name c); reflexivity.
Qed.

Lemma log_state_text ds c delim :
  log_state_from head ds c delim -> c = log_file_text_from head ds.
Proof.
  intros [(-> & -> & _) | (Hne & -> & _)]; [reflexivity|].
  destruct ds; [congruence | reflexivity].
Qed.

(** A run of [train] over dataloaders that are not empty, from a working
    directory in order: it ends well, and leaves the log and the two
    directories as its trace tells; the working directory is in order for
    another run. *)
Lemma train_run (num_epochs : Z) tlf vlf std mean (tl vl : DataLoader) ds es
  (w : World) :
  fs w = Dir es ->
  (assoc_get "BestModel" es = None \/ exists c, assoc_get "BestModel" es = Some (Dir c)) ->
  (assoc_get "CheckPoints" es = None \/
   exists c, assoc_get "CheckPoints" es = Some (Dir c)) ->
  log_on_disk_from head logger_name ds (fs w) ->
  dl_len tl <> 0 -> dl_len vl <> 0 ->
  exists w' evs,
    train num_epochs tlf vlf std mean tl vl logger_name w = (w', Ok tt) /\
    trace w' = trace w ++ evs /\
    fs_read logger_name (fs w')
    = Ok (log_file_text_from head
            (ds ++ map dumps_log_dict (improving [] (epoch_rows evs)))) /\
    holds_saves outpath evs (fs w') /\
    holds_saves checkpath evs (fs w') /\
    exists es',
      fs w' = Dir es' /\
      (exists c, assoc_get "BestModel" es' = Some (Dir c)) /\
      (exists c, assoc_get "CheckPoints" es' = Some (Dir c)).
Proof.
  intros Hfs Hb Hc Hl Htl Hvl.
  destruct (reset_dirs_ok w Hfs Hb Hc) as (es1 & E1 & G1 & G2 & F1).
  assert (Hl1 : log_on_disk_from head logger_name ds (fs (set_fs (Dir es1) w))).
  { cbn [fs set_fs]. rewrite Hfs in Hl.
    apply log_on_disk_from_frame with (es := es); [|exact Hl].
    apply F1; assumption. }
  destruct (@init_run ds es1 (set_fs (Dir es1) w) eq_refl
              (dir_holds_empty _ _ G1) (dir_holds_empty _ _ G2) Hl1)
    as (w2 & jsonlog & E2 & _ & _ & Hs2).
  cbn [trace set_fs] in Hs2.
  pose proof (run_state_logger_info TrainingStarted Hs2) as Hs3.
  destruct (@train_epochs_run tlf vlf std mean tl vl (trace w) (py_range num_epochs)
              Htl Hvl _ _ _ _ [] _ Hs3 best_tracks_initial)
    as (w4 & jl & best & evs & E4 & Hs4).
  destruct Hs4 as (T4 & (es4 & Hfs4 & Hb4 & Hc4) & Hw4 & (c & Hr4 & Hl4)).
  destruct (@close_clean _ _ logger_name dumps_log_dict jl w4 Hw4) as (jl' & E5).
  exists (set_trace (trace w4 ++ [LoggerInfo TrainingFinished]) w4).
  exists (([] ++ [LoggerInfo TrainingStarted]) ++ evs ++ [LoggerInfo TrainingFinished]).
  split; [|split; [|split; [|split; [|split]]]].
  - unfold train. rewrite (bind_ok _ _ _ E1). unfold train_session.
    rewrite (bind_ok _ _ _ E2).
    unfold logger_info at 1, emit at 1. unfold bind at 1. unfold modify at 1.
    rewrite (bind_ok _ _ _ E4). cbv beta iota.
    rewrite (bind_ok _ _ _ E5). reflexivity.
  - cbn [trace set_trace]. rewrite T4, <- !List.app_assoc. reflexivity.
  - cbn [fs set_trace]. rewrite Hr4. f_equal.
    rewrite !epoch_rows_app. cbn [epoch_rows List.app]. rewrite List.app_nil_r.
    exact (log_state_text Hl4).
  - cbn [fs set_trace]. rewrite Hfs4. apply dir_holds_saves.
    rewrite List.app_assoc. apply dir_holds_other_event; [reflexivity | exact Hb4].
  - cbn [fs set_trace]. rewrite Hfs4. apply dir_holds_saves.
    rewrite List.app_assoc. apply dir_holds_other_event; [reflexivity | exact Hc4].
  - exists es4. cbn [fs set_trace]. split; [exact Hfs4|].
    destruct Hb4 as (cb & Gb & _). destruct Hc4 as (cc & Gc & _). eauto.
Qed.

Lemma bind_raise A B (m : M A) (k : A -> M B) (w w' : World) e :
  m w = (w', Raise e) -> bind m k w = (w', Raise e).
Proof. intros E. unfold bind. now rewrite E. Qed.

Lemma dir_holds_nothing d t es :
  saves t = [] -> dir_holds d t es -> assoc_get d es = Some (Dir []).
Proof.
  intros Ht (c & G & H). rewrite G. do 2 f_equal.
  destruct c as [|[k v] c]; [reflexivity|].
  specialize (H k). unfold last_saved in H. rewrite Ht in H.
  cbn in H. rewrite String.eqb_refl in H. discriminate.
Qed.

(** The start of a run, up to the epoch loop. *)
Lemma train_start ds es (w : World) :
  fs w = Dir es ->
  (assoc_get "BestModel" es = None \/ exists c, assoc_get "BestModel" es = Some (Dir c)) ->
  (assoc_get "CheckPoints" es = None \/
   exists c, assoc_get "CheckPoints" es = Some (Dir c)) ->
  log_on_disk_from head logger_name ds (fs w) ->
  exists (w2 : World) jsonlog,
    (forall num_epochs tlf vlf std mean tl vl,
        train num_epochs tlf vlf std mean tl vl logger_name w
        = (x <- train_epochs tlf vlf std mean tl vl (py_range num_epochs)
                  (jsonlog, initial_best_val_loss) ;;
           (let '(jsonlog, _) := x in
            close jsonlog ;; logger_info TrainingFinished))
            (set_trace (trace w2 ++ [LoggerInfo TrainingStarted]) w2)) /\
    trainer_objects w2 = trainer_objects w /\
    timer_reads w2 = timer_reads w /\
    run_state head logger_name (trace w) [] ds jsonlog w2.
Proof.
  intros Hfs Hb Hc Hl.
  destruct (reset_dirs_ok w Hfs Hb Hc) as (es1 & E1 & G1 & G2 & F1).
  assert (Hl1 : log_on_disk_from head logger_name ds (fs (set_fs (Dir es1) w))).
  { cbn [fs set_fs]. rewrite Hfs in Hl.
    apply log_on_disk_from_frame with (es := es); [|exact Hl].
    apply F1; assumption. }
  destruct (@init_run ds es1 (set_fs (Dir es1) w) eq_refl
              (dir_holds_empty _ _ G1) (dir_holds_empty _ _ G2) Hl1)
    as (w2 & jsonlog & E2 & O2 & C2 & Hs2).
  exists w2, jsonlog. split; [|split; [|split]].
  - intros. unfold train. rewrite (bind_ok _ _ _ E1). unfold train_session.
    rewrite (bind_ok _ _ _ E2).
    unfold logger_info at 1, emit at 1. unfold bind at 1. unfold modify at 1.
    reflexivity.
  - exact O2.
  - exact C2.
  - exact Hs2.
Qed.

End RunSteps.

Section RunTheorems.

Context {T : Torch} {R : Runtime}.

(** X16: the log after a run.  Take a working directory in which [BestModel]
    and [CheckPoints] are directories or absent, a log outside of them
    that is either a path where nothing is, or the log of the records
    [ds], and dataloaders whose length is not zero.  Then [train] ends well,
    and it leaves in the log the records [ds], those of an earlier run, followed
    by the records of the epochs that improve: the log is resumed, not
    started over.  With no record at all the file is left empty. *)
Theorem log_file_after_a_run (lname : string) (rest : path) (num_epochs : Z)
  tlf vlf std mean (tl vl : DataLoader) (ds : list text) (es : list (string * node))
  (w : World) :
  lname <> "BestModel"%string -> lname <> "CheckPoints"%string ->
  fs w = Dir es ->
  (assoc_get "BestModel" es = None \/ exists c, assoc_get "BestModel" es = Some (Dir c)) ->
  (assoc_get "CheckPoints" es = None \/
   exists c, assoc_get "CheckPoints" es = Some (Dir c)) ->
  log_on_disk (lname :: rest) ds (fs w) ->
  dl_len tl <> 0 -> dl_len vl <> 0 ->
  exists w' evs,
    train num_epochs tlf vlf std mean tl vl (lname :: rest) w = (w', Ok tt) /\
    trace w' = trace w ++ evs /\
    fs_read (lname :: rest) (fs w')
    = Ok (log_file_text
            (ds ++ map dumps_log_dict (improving [] (epoch_rows evs)))).
Proof.
  intros N1 N2 Hfs Hb Hc Hl Htl Hvl.
  destruct (@train_run _ _ lname rest (txt "[") N1 N2 num_epochs tlf vlf std mean tl vl
              ds es w Hfs Hb Hc (or_introl (conj eq_refl Hl)) Htl Hvl)
    as (w' & evs & E & Tr & Hlog & _).
  exists w', evs. rewrite log_file_text_from_bracket in Hlog. auto.
Qed.

(** X17: a run asked for no epoch still resets the two directories and opens
    the log: it ends well, tells the logger the start and the end, leaves
    the model, the optimizer, the scheduler and the clock alone, leaves
    [BestModel] and [CheckPoints] empty, and leaves the log as it was, or
    empty if there was none. *)
Theorem train_without_epochs (lname : string) (rest : path) (num_epochs : Z)
  tlf vlf std mean (tl vl : DataLoader) (ds : list text) (es : list (string * node))
  (w : World) :
  (num_epochs <= 0)%Z ->
  lname <> "BestModel"%string -> lname <> "CheckPoints"%string ->
  fs w = Dir es ->
  (assoc_get "BestModel" es = None \/ exists c, assoc_get "BestModel" es = Some (Dir c)) ->
  (assoc_get "CheckPoints" es = None \/
   exists c, assoc_get "CheckPoints" es = Some (Dir c)) ->
  log_on_disk (lname :: rest) ds (fs w) ->
  exists w',
    train num_epochs tlf vlf std mean tl vl (lname :: rest) w = (w', Ok tt) /\
    trace w' = trace w ++ [LoggerInfo TrainingStarted; LoggerInfo TrainingFinished] /\
    model w' = model w /\ optimizer w' = optimizer w /\ scheduler w' = scheduler w /\
    timer_reads w' = timer_reads w /\
    fs_lookup outpath (fs w') = Some (Dir []) /\
    fs_lookup checkpath (fs w') = Some (Dir []) /\
    fs_read (lname :: rest) (fs w') = Ok (log_file_text ds).
Proof.
  intros Hn N1 N2 Hfs Hb Hc Hl.
  destruct (@train_start _ _ lname rest (txt "[") N1 N2 ds es w Hfs Hb Hc
              (or_introl (conj eq_refl Hl)))
    as (w2 & jsonlog & E & O2 & C2 & Hs2).
  pose proof (run_state_logger_info TrainingStarted Hs2) as Hs3.
  destruct Hs3 as (T3 & (es3 & Hfs3 & Hb3 & Hc3) & Hw3 & (c & Hr3 & Hl3)).
  destruct (@close_clean _ _ (lname :: rest) dumps_log_dict jsonlog
              (set_trace (trace w2 ++ [LoggerInfo TrainingStarted]) w2) Hw3) as (jl' & E5).
  exists (set_trace ((trace w2 ++ [LoggerInfo TrainingStarted]) ++
                     [LoggerInfo TrainingFinished]) w2).
  assert (Hr : py_range num_epochs = []).
  { unfold py_range. replace (Z.to_nat num_epochs) with 0 by lia. reflexivity. }
  unfold trainer_objects in O2. inversion O2 as [[Om Oo Os]].
  cbn [fs trace set_trace model optimizer scheduler timer_reads] in *.
  split; [|repeat split; try assumption].
  - rewrite E, Hr. unfold train_epochs. cbn [for_each].
    rewrite (bind_ok _ _ _ (eq_refl : ret _ _ = (_, Ok _))). cbv beta iota.
    rewrite (bind_ok _ _ _ E5). reflexivity.
  - rewrite T3. cbn [List.app]. now rewrite <- List.app_assoc.
  - rewrite Hfs3. unfold outpath. rewrite fs_lookup_single.
    eapply dir_holds_nothing; [|exact Hb3]. reflexivity.
  - rewrite Hfs3. unfold checkpath. rewrite fs_lookup_single.
    eapply dir_holds_nothing; [|exact Hc3]. reflexivity.
  - rewrite Hr3. f_equal. rewrite <- log_file_text_from_bracket.
    exact (log_state_text Hl3).
Qed.

(** X18: a run over a training dataloader of length zero stops in its first
    epoch, but not before it has emptied [BestModel] and [CheckPoints] and
    opened the log: the logger was told the start and never the end, the
    log is as it was, or empty if there was none, the scheduler was not
    stepped, and the model is left in training mode. *)
Theorem failed_run_has_reset_the_directories (lname : string) (rest : path)
  (num_epochs : Z) tlf vlf std mean (tl vl : DataLoader) (ds : list text)
  (es : list (string * node)) (w : World) :
  (0 < num_epochs)%Z ->
  dl_len tl = 0 ->
  lname <> "BestModel"%string -> lname <> "CheckPoints"%string ->
  fs w = Dir es ->
  (assoc_get "BestModel" es = None \/ exists c, assoc_get "BestModel" es = Some (Dir c)) ->
  (assoc_get "CheckPoints" es = None \/
   exists c, assoc_get "CheckPoints" es = Some (Dir c)) ->
  log_on_disk (lname :: rest) ds (fs w) ->
  exists w',
    train num_epochs tlf vlf std mean tl vl (lname :: rest) w
    = (w', Raise ZeroDivisionError) /\
    trace w' = trace w ++ [LoggerInfo TrainingStarted] /\
    training (model w') = true /\
    scheduler w' = scheduler w /\
    fs_lookup outpath (fs w') = Some (Dir []) /\
    fs_lookup checkpath (fs w') = Some (Dir []) /\
    fs_read (lname :: rest) (fs w') = Ok (log_file_text ds).
Proof.
  intros Hn Hz N1 N2 Hfs Hb Hc Hl.
  destruct (@train_start _ _ lname rest (txt "[") N1 N2 ds es w Hfs Hb Hc
              (or_introl (conj eq_refl Hl)))
    as (w2 & jsonlog & E & O2 & C2 & Hs2).
  pose proof (run_state_logger_info TrainingStarted Hs2) as Hs3.
  destruct Hs3 as (T3 & (es3 & Hfs3 & Hb3 & Hc3) & Hw3 & (c & Hr3 & Hl3)).
  destruct (py_range_pos Hn) as [more Hr].
  destruct (@train_one_step_spec _ _ tlf std mean tl
              (set_trace (trace w2 ++ [LoggerInfo TrainingStarted]) w2))
    as (w3 & r3 & E3 & F3 & Tr3 & S3 & _ & M3 & Z3 & _).
  rewrite (Z3 Hz) in E3.
  unfold trainer_objects in O2. inversion O2 as [[Om Oo Os]].
  cbn [fs trace set_trace model optimizer scheduler timer_reads] in *.
  exists w3. split; [|repeat split; try assumption].
  - rewrite E, Hr. apply bind_raise. unfold train_epochs. cbn [for_each].
    apply bind_raise. unfold train_epoch. apply bind_raise. exact E3.
  - rewrite Tr3, T3. reflexivity.
  - rewrite F3, Hfs3. unfold outpath. rewrite fs_lookup_single.
    eapply dir_holds_nothing; [|exact Hb3]. reflexivity.
  - rewrite F3, Hfs3. unfold checkpath. rewrite fs_lookup_single.
    eapply dir_holds_nothing; [|exact Hc3]. reflexivity.
  - rewrite F3, Hr3. f_equal. rewrite <- log_file_text_from_bracket.
    exact (log_state_text Hl3).
Qed.

(** X19: a run on a log file that is there and empty, as a run without an
    epoch that improves leaves it.  Take a working directory in which
    [BestModel] and [CheckPoints] are directories or absent, an empty file
    outside of them for the log, and dataloaders whose length is not zero.
    Then [train] ends well and the first record goes in after a comma: with
    a record at least, the log begins with a comma and is no JSON
    document. *)
Theorem run_on_an_empty_log_file (lname : string) (rest : path) (num_epochs : Z)
  tlf vlf std mean (tl vl : DataLoader) (es : list (string * node)) (w : World) :
  lname <> "BestModel"%string -> lname <> "CheckPoints"%string ->
  fs w = Dir es ->
  (assoc_get "BestModel" es = None \/ exists c, assoc_get "BestModel" es = Some (Dir c)) ->
  (assoc_get "CheckPoints" es = None \/
   exists c, assoc_get "CheckPoints" es = Some (Dir c)) ->
  fs_read (lname :: rest) (fs w) = Ok [] ->
  dl_len tl <> 0 -> dl_len vl <> 0 ->
  exists w' evs,
    train num_epochs tlf vlf std mean tl vl (lname :: rest) w = (w', Ok tt) /\
    trace w' = trace w ++ evs /\
    let recs := map dumps_log_dict (improving [] (epoch_rows evs)) in
    fs_read (lname :: rest) (fs w') = Ok (log_file_text_from (txt ",") recs) /\
    (recs <> [] -> json_loads (log_file_text_from (txt ",") recs) = None).
Proof.
  intros N1 N2 Hfs Hb Hc Hl Htl Hvl.
  destruct (@train_run _ _ lname rest (txt ",") N1 N2 num_epochs tlf vlf std mean tl vl
              [] es w Hfs Hb Hc (or_intror (conj eq_refl (conj eq_refl Hl))) Htl Hvl)
    as (w' & evs & E & Tr & Hlog & _).
  exists w', evs. split; [exact E|]. split; [exact Tr|].
  cbn [List.app] in Hlog. split; [exact Hlog|].
  intros Hne. destruct (map dumps_log_dict (improving [] (epoch_rows evs)));
    [congruence|]. apply json_loads_comma.
Qed.

(** X20: two runs in a row on the same log.  Take a working directory in
    which [BestModel] and [CheckPoints] are directories or absent, a log
    outside of them that is a path where nothing is or the log of the
    records [ds], and dataloaders whose length is not zero.  Then [train]
    ends well, and so does a second call of it.  The second call empties
    the two directories again, so that they hold what the second run saved
    and nothing of the first; but it resumes the log: when the first run
    left a record in it, the log holds the records of both runs, those of
    the first before those of the second; and when it left none, the log
    was an empty file, and the records of the second run go in after a
    comma. *)
Theorem two_runs_in_a_row (lname : string) (rest : path) (n1 n2 : Z)
  tlf vlf std mean (tl vl : DataLoader) (ds : list text) (es : list (string * node))
  (w : World) :
  lname <> "BestModel"%string -> lname <> "CheckPoints"%string ->
  fs w = Dir es ->
  (assoc_get "BestModel" es = None \/ exists c, assoc_get "BestModel" es = Some (Dir c)) ->
  (assoc_get "CheckPoints" es = None \/
   exists c, assoc_get "CheckPoints" es = Some (Dir c)) ->
  log_on_disk (lname :: rest) ds (fs w) ->
  dl_len tl <> 0 -> dl_len vl <> 0 ->
  exists w1 w2 evs1 evs2,
    train n1 tlf vlf std mean tl vl (lname :: rest) w = (w1, Ok tt) /\
    train n2 tlf vlf std mean tl vl (lname :: rest) w1 = (w2, Ok tt) /\
    trace w1 = trace w ++ evs1 /\
    trace w2 = trace w1 ++ evs2 /\
    holds_saves outpath evs2 (fs w2) /\
    holds_saves checkpath evs2 (fs w2) /\
    let recs1 := ds ++ map dumps_log_dict (improving [] (epoch_rows evs1)) in
    let recs2 := map dumps_log_dict (improving [] (epoch_rows evs2)) in
    (recs1 <> [] -> fs_read (lname :: rest) (fs w2) = Ok (log_text (recs1 ++ recs2))) /\
    (recs1 = [] ->
     fs_read (lname :: rest) (fs w2) = Ok (log_file_text_from (txt ",") recs2)).
Proof.
  intros N1 N2 Hfs Hb Hc Hl Htl Hvl.
  destruct (@train_run _ _ lname rest (txt "[") N1 N2 n1 tlf vlf std mean tl vl
              ds es w Hfs Hb Hc (or_introl (conj eq_refl Hl)) Htl Hvl)
    as (w1 & evs1 & E1 & Tr1 & Hlog1 & _ & _ & es1 & Hfs1 & Hb1 & Hc1).
  remember (ds ++ map dumps_log_dict (improving [] (epoch_rows evs1))) as recs1 eqn:Er.
  destruct recs1 as [|r1 recs1'].
  - destruct (@train_run _ _ lname rest (txt ",") N1 N2 n2 tlf vlf std mean tl vl
                [] es1 w1 Hfs1 (or_intror Hb1) (or_intror Hc1)
                (or_intror (conj eq_refl (conj eq_refl Hlog1))) Htl Hvl)
      as (w2 & evs2 & E2 & Tr2 & Hlog2 & Hout & Hck & _).
    exists w1, w2, evs1, evs2. repeat (split; [assumption|]).
    cbv zeta. rewrite <- Er.
    split; [intros H; exfalso; apply H; reflexivity|].
    intros _. exact Hlog2.
  - assert (Hl1 : log_on_disk (lname :: rest) (r1 :: recs1') (fs w1)).
    { right. split; [discriminate | exact Hlog1]. }
    destruct (@train_run _ _ lname rest (txt "[") N1 N2 n2 tlf vlf std mean tl vl
                (r1 :: recs1') es1 w1 Hfs1 (or_intror Hb1) (or_intror Hc1)
                (or_introl (conj eq_refl Hl1)) Htl Hvl)
      as (w2 & evs2 & E2 & Tr2 & Hlog2 & Hout & Hck & _).
    exists w1, w2, evs1, evs2. repeat (split; [assumption|]).
    cbv zeta. rewrite <- Er.
    split; [|discriminate]. intros _. exact Hlog2.
Qed.

(** X21: the log of a run is read back.  Take a working directory in which
    [BestModel] and [CheckPoints] are directories or absent, a log outside
    of them that is a path where nothing is or the log of earlier records
    of the trainer, and dataloaders whose length is not zero.  Then [train]
    ends well; and when the log holds a record after it, and [repr] writes
    the floats of the records as texts that are read back, [json.loads]
    reads the file as the list of the records, the earlier ones first, each
    the dict of its epoch, its two losses and its two times.  With no
    record at all the file is empty, and no JSON text. *)
Theorem log_of_a_run_is_read_back (lname : string) (rest : path) (num_epochs : Z)
  tlf vlf std mean (tl vl : DataLoader) (prior : list log_dict)
  (es : list (string * node)) (w : World) :
  lname <> "BestModel"%string -> lname <> "CheckPoints"%string ->
  fs w = Dir es ->
  (assoc_get "BestModel" es = None \/ exists c, assoc_get "BestModel" es = Some (Dir c)) ->
  (assoc_get "CheckPoints" es = None \/
   exists c, assoc_get "CheckPoints" es = Some (Dir c)) ->
  log_on_disk (lname :: rest) (map dumps_log_dict prior) (fs w) ->
  dl_len tl <> 0 -> dl_len vl <> 0 ->
  exists w' evs,
    train num_epochs tlf vlf std mean tl vl (lname :: rest) w = (w', Ok tt) /\
    trace w' = trace w ++ evs /\
    let recs := prior ++ improving [] (epoch_rows evs) in
    (recs <> [] ->
     Forall float_reads_back (flat_map (fun d => floats_of (json_of_log_dict d)) recs) ->
     exists c,
       fs_read (lname :: rest) (fs w') = Ok c /\
       json_loads c = Some (JList (map json_of_log_dict recs))) /\
    (recs = [] -> fs_read (lname :: rest) (fs w') = Ok [] /\ json_loads [] = None).
Proof.
  intros N1 N2 Hfs Hb Hc Hl Htl Hvl.
  destruct (@train_run _ _ lname rest (txt "[") N1 N2 num_epochs tlf vlf std mean tl vl
              (map dumps_log_dict prior) es w Hfs Hb Hc (or_introl (conj eq_refl Hl))
              Htl Hvl)
    as (w' & evs & E & Tr & Hlog & _).
  exists w', evs. split; [exact E|]. split; [exact Tr|].
  rewrite <- map_app in Hlog. cbv zeta.
  destruct (prior ++ improving [] (epoch_rows evs)) as [|d recs] eqn:Er.
  - split; [intros H; exfalso; apply H; reflexivity|].
    intros _. split; [exact Hlog | reflexivity].
  - split; [|discriminate]. intros _ Hfl.
    eexists. split; [exact Hlog|].
    change (log_file_text_from (txt "[") (map dumps_log_dict (d :: recs)))
      with (log_text (map dumps_log_dict (d :: recs))).
    rewrite (map_ext _ _ dumps_log_dict_json), <- map_map.
    apply json_loads_log_text; [discriminate|].
    apply Forall_flat_map in Hfl. rewrite Forall_forall in Hfl.
    rewrite Forall_forall.
    intros v Hv. apply in_map_iff in Hv. destruct Hv as (o & <- & Ho).
    apply json_reads_back. exact (Hfl o Ho).
Qed.

End RunTheorems.

(** ** The saved files of a run *)

Section SavedObjects.

Context {T : Torch}.

Lemma saves_checkpoint f e m o s l (t : list event) :
  In (f, Checkpoint e m o s l) (saves t) -> In (e, l, f) (saved_checkpoints t).
Proof.
  induction t as [|ev t IH]; simpl; [tauto|].
  destruct ev as [msg|obj g|g x]; simpl; auto.
  destruct obj as [e0 m0 o0 s0 l0|m0]; simpl.
  - intros [H|H]; [left; inversion H; reflexivity | right; auto].
  - intros [H|H]; [inversion H | auto].
Qed.

Lemma saves_best_model f m (t : list event) :
  In (f, BestModel m) (saves t) -> In (m, f) (best_models t).
Proof.
  induction t as [|ev t IH]; simpl; [tauto|].
  destruct ev as [msg|obj g|g x]; simpl; auto.
  destruct obj as [e0 m0 o0 s0 l0|m0]; simpl.
  - intros [H|H]; [inversion H | auto].
  - intros [H|H]; [left; inversion H; reflexivity | right; auto].
Qed.

(** Checkpoints that go to files of their own are told by their file. *)
Lemma saves_checkpoint_unique (t : list event) :
  NoDup (map snd (saved_checkpoints t)) ->
  forall f e m o s l e' m' o' s' l',
    In (f, Checkpoint e m o s l) (saves t) ->
    In (f, Checkpoint e' m' o' s' l') (saves t) ->
    Checkpoint e' m' o' s' l' = Checkpoint e m o s l.
Proof.
  induction t as [|ev t IH]; simpl; [tauto|].
  destruct ev as [msg|obj g|g x]; simpl; auto.
  destruct obj as [e0 m0 o0 s0 l0|m0]; simpl.
  - intros Hnd f e m o s l e' m' o' s' l' H1 H2.
    inversion Hnd as [|x xs Hnot Hnd']; subst.
    destruct H1 as [H1|H1]; destruct H2 as [H2|H2].
    + congruence.
    + exfalso. inversion H1; subst. apply Hnot.
      apply saves_checkpoint in H2.
      change f with (snd (e', l', f)). now apply in_map.
    + exfalso. inversion H2; subst. apply Hnot.
      apply saves_checkpoint in H1.
      change f with (snd (e, l, f)). now apply in_map.
    + eapply IH; eauto.
  - intros Hnd f e m o s l e' m' o' s' l' H1 H2.
    destruct H1 as [H1|H1]; [inversion H1|].
    destruct H2 as [H2|H2]; [inversion H2|].
    eapply IH; eauto.
Qed.

(** The only object saved to a file is the last one saved to it. *)
Lemma last_saved_only (t : list event) f obj :
  In (f, obj) (saves t) ->
  (forall obj', In (f, obj') (saves t) -> obj' = obj) ->
  last_saved f t = Some obj.
Proof.
  intros Hin Huniq. unfold last_saved.
  destruct (List.find _ _) as [[g o]|] eqn:E.
  - apply find_some in E. destruct E as [Hin' Hg]. cbn [fst snd] in *.
    destruct (list_eq_dec string_dec g f) as [->|]; [|discriminate].
    apply in_rev in Hin'. f_equal. now apply Huniq.
  - exfalso. apply in_rev in Hin.
    pose proof (find_none _ _ E (f, obj) Hin) as H. cbn [fst] in H.
    destruct (list_eq_dec string_dec f f); [discriminate | congruence].
Qed.

(** When the best models, and nothing else, go to the file [f], the last
    object saved to [f] is the last of the best models. *)
Lemma last_saved_best_model f (t : list event) :
  Forall (fun bm => snd bm = f) (best_models t) ->
  (forall e l g, In (e, l, g) (saved_checkpoints t) -> g <> f) ->
  last_saved f t
  = match List.rev (best_models t) with
    | [] => None
    | bm :: _ => Some (BestModel (fst bm))
    end.
Proof.
  induction t as [|ev t IH] using rev_ind; intros Hb Hc; [reflexivity|].
  rewrite best_models_app in Hb. apply Forall_app in Hb. destruct Hb as [Hb' Hb].
  assert (Hc' : forall e l g, In (e, l, g) (saved_checkpoints t) -> g <> f).
  { intros e l g Hin. apply Hc with (e := e) (l := l).
    rewrite saved_checkpoints_app. apply in_or_app. now left. }
  specialize (IH Hb' Hc'). rewrite best_models_app.
  destruct ev as [msg|obj g|g x].
  - rewrite last_saved_snoc_other by reflexivity.
    cbn [best_models]. now rewrite List.app_nil_r.
  - rewrite last_saved_snoc_save.
    destruct obj as [e0 m0 o0 s0 l0|m0].
    + cbn [best_models]. rewrite List.app_nil_r.
      destruct (list_eq_dec string_dec g f) as [->|_]; [|exact IH].
      exfalso. apply (Hc e0 l0 f); [|reflexivity].
      rewrite saved_checkpoints_app. apply in_or_app. right. left. reflexivity.
    + cbn [best_models]. rewrite rev_app_distr. cbn [List.rev List.app fst].
      cbn [best_models] in Hb. apply Forall_inv in Hb. cbn [snd] in Hb.
      destruct (list_eq_dec string_dec g f); [reflexivity | congruence].
  - rewrite last_saved_snoc_other by reflexivity.
    cbn [best_models]. now rewrite List.app_nil_r.
Qed.

End SavedObjects.

Section SavedFilesOfARun.

Context {T : Torch} {R : Runtime}.

(** What a run that ends well saved: checkpoints, each to a file of its
    own in [CheckPoints], and best models, all to the one file. *)
Lemma train_saves_inv (num_epochs : Z) tlf vlf std mean tl vl
  (logger_name : path) (w w' : World) :
  train num_epochs tlf vlf std mean tl vl logger_name w = (w', Ok tt) ->
  exists evs,
    trace w' = trace w ++ evs /\
    NoDup (map snd (saved_checkpoints evs)) /\
    (forall e l f,
        In (e, l, f) (saved_checkpoints evs) ->
        exists name, f = ["CheckPoints"%string; name]) /\
    Forall (fun bm => snd bm = ["BestModel"%string; "best-model.pt"%string])
      (best_models evs).
Proof.
  intros H. apply train_inv in H.
  destruct H as (w2 & w4 & jsonlog & jsonlog' & best' & T2 & P2 & N2 & E4 & T').
  pose proof E4 as E4'.
  apply train_epochs_inv with (prior := []) in E4;
    [| exact N2 | exact best_tracks_initial].
  destruct E4 as (evs & T4 & Hrows & Hsaved & _).
  apply train_epochs_events with (prior := []) in E4'; [| exact best_tracks_initial].
  destruct E4' as (evs' & T4' & _ & _ & Hfiles & _).
  assert (evs' = evs) by (rewrite T4 in T4'; now apply app_inv_head in T4').
  subst evs'.
  exists ([LoggerInfo TrainingStarted] ++ evs ++ [LoggerInfo TrainingFinished]).
  rewrite !saved_checkpoints_app, !best_models_app.
  cbn [saved_checkpoints best_models List.app].
  rewrite !List.app_nil_r, Hsaved.
  split.
  { rewrite T', T4. cbn [trace set_trace]. rewrite T2, <- !List.app_assoc. reflexivity. }
  split; [|split; [|exact Hfiles]].
  - rewrite map_map.
    exact (@improving_files_nodup _ (epoch_rows evs) [] 0 (map_succ_range_nth _ _ Hrows)).
  - intros e l f Hin. apply in_map_iff in Hin. destruct Hin as (r & Hc & _).
    unfold checkpoint_of in Hc. inversion Hc; subst. eexists. reflexivity.
Qed.

(** X22: the saved files after a run.  Take a working directory in which
    [BestModel] and [CheckPoints] are directories or absent, a log outside
    of them that is a path where nothing is or the log of the records
    [ds], and dataloaders whose length is not zero.  Then [train] ends well,
    and the two directories hold what the run saved and nothing else, each file
    the last object saved under its name; every checkpoint the trace tells
    of is in its file; and [best-model.pt] holds the best model saved last,
    or is not there when no epoch improved. *)
Theorem saved_files_after_a_run (lname : string) (rest : path) (num_epochs : Z)
  tlf vlf std mean (tl vl : DataLoader) (ds : list text) (es : list (string * node))
  (w : World) :
  lname <> "BestModel"%string -> lname <> "CheckPoints"%string ->
  fs w = Dir es ->
  (assoc_get "BestModel" es = None \/ exists c, assoc_get "BestModel" es = Some (Dir c)) ->
  (assoc_get "CheckPoints" es = None \/
   exists c, assoc_get "CheckPoints" es = Some (Dir c)) ->
  log_on_disk (lname :: rest) ds (fs w) ->
  dl_len tl <> 0 -> dl_len vl <> 0 ->
  exists w' evs,
    train num_epochs tlf vlf std mean tl vl (lname :: rest) w = (w', Ok tt) /\
    trace w' = trace w ++ evs /\
    holds_saves outpath evs (fs w') /\
    holds_saves checkpath evs (fs w') /\
    (forall f e m o s l,
        In (f, Checkpoint e m o s l) (saves evs) ->
        fs_read f (fs w') = Ok (pickle (Checkpoint e m o s l))) /\
    match List.rev (best_models evs) with
    | [] => fs_lookup (outpath ++ ["best-model.pt"%string]) (fs w') = None
    | bm :: _ =>
        fs_read (outpath ++ ["best-model.pt"%string]) (fs w')
        = Ok (pickle (BestModel (fst bm)))
    end.
Proof.
  intros N1 N2 Hfs Hb Hc Hl Htl Hvl.
  destruct (@train_run _ _ lname rest (txt "[") N1 N2 num_epochs tlf vlf std mean tl vl
              ds es w Hfs Hb Hc (or_introl (conj eq_refl Hl)) Htl Hvl)
    as (w' & evs & E & Tr & _ & Hout & Hck & _).
  destruct (train_saves_inv _ _ _ _ _ _ _ _ _ E) as (evs' & Tr' & Hnd & Hpaths & Hbest).
  assert (evs' = evs) by (rewrite Tr in Tr'; now apply app_inv_head in Tr').
  subst evs'.
  exists w', evs. split; [exact E|]. split; [exact Tr|].
  split; [exact Hout|]. split; [exact Hck|]. split.
  - intros f e m o s l Hin.
    destruct (Hpaths e l f (saves_checkpoint _ _ _ _ _ _ _ Hin)) as [name ->].
    assert (Hlast : last_saved ["CheckPoints"%string; name] evs
                    = Some (Checkpoint e m o s l)).
    { apply last_saved_only; [exact Hin|].
      intros [e' m' o' s' l'|m'] Hin'.
      - exact (saves_checkpoint_unique _ Hnd _ _ _ _ _ _ _ _ _ _ _ Hin Hin').
      - exfalso. apply saves_best_model in Hin'.
        rewrite Forall_forall in Hbest. specialize (Hbest _ Hin').
        discriminate. }
    specialize (Hck name). unfold checkpath in Hck. cbn [List.app] in Hck.
    rewrite Hlast in Hck. unfold fs_read. now rewrite Hck.
  - assert (Hlast : last_saved ["BestModel"%string; "best-model.pt"%string] evs
                    = match List.rev (best_models evs) with
                      | [] => None
                      | bm :: _ => Some (BestModel (fst bm))
                      end).
    { apply last_saved_best_model; [exact Hbest|].
      intros e l g Hin. destruct (Hpaths e l g Hin) as [name ->]. discriminate. }
    specialize (Hout "best-model.pt"%string). unfold outpath in *.
    cbn [List.app] in *. rewrite Hlast in Hout.
    destruct (List.rev (best_models evs)) as [|bm bms]; [exact Hout|].
    unfold fs_read. now rewrite Hout.
Qed.

End SavedFilesOfARun.

(** ** The further theorems at work on the framework of scalars *)

Lemma writer_on_a_directory_raises_witness :
  let w := scalar_world (Dir [("logs"%string, Dir [])]) in
  fs_lookup ["logs"%string] (fs w) = Some (Dir []) /\
  @StreamingJSONWriter_init scalar_torch json ["logs"%string] (@json_dumps ticking_runtime) w
  = (w, Raise IsADirectoryError).
Proof.
  intros w. split; [reflexivity|].
  apply (@writer_on_a_directory_raises scalar_torch json ["logs"%string] (@json_dumps ticking_runtime) [] w).
  reflexivity.
Defined.

Lemma writer_without_its_directory_raises_witness :
  let w := scalar_world (Dir [("notes.txt"%string, File (txt "keep"))]) in
  fs_lookup ["logs"%string] (fs w) = None /\
  fs_lookup ["notes.txt"%string] (fs w) = Some (File (txt "keep")) /\
  (exists e,
      @StreamingJSONWriter_init scalar_torch json (["logs"%string] ++ ["log.json"%string])
        (@json_dumps ticking_runtime) w = (w, Raise e) /\
      (e = FileNotFoundError \/ e = NotADirectoryError)) /\
  @StreamingJSONWriter_init scalar_torch json (["notes.txt"%string] ++ ["log.json"%string])
    (@json_dumps ticking_runtime) w = (w, Raise NotADirectoryError).
Proof.
  intros w. split; [reflexivity|]. split; [reflexivity|]. split.
  - apply (proj1 (@writer_without_its_directory_raises scalar_torch json
                    ["logs"%string] "log.json" (@json_dumps ticking_runtime) w)).
    reflexivity.
  - apply (proj2 (@writer_without_its_directory_raises scalar_torch json
                    ["notes.txt"%string] "log.json" (@json_dumps ticking_runtime) w) (txt "keep")).
    reflexivity.
Defined.

Lemma dump_after_close_raises_witness :
  let d := log_text [(@json_dumps ticking_runtime) (JInt 1)] in
  let w := scalar_world (Dir [("log.json"%string, File d)]) in
  let f closed :=
    {| f_path := ["log.json"%string]; f_mode := ModeRPlus; f_pos := 0;
       f_pending := []; f_closed := closed |} in
  let self closed := {| file := f closed; delimeter := txt ","; encoder := (@json_dumps ticking_runtime) |} in
  @close scalar_torch json (self false) w = (w, Ok (self true)) /\
  @dump scalar_torch json (self true) (JInt 2) w = (w, Raise ValueError) /\
  @close scalar_torch json (self true) w = (w, Ok (self true)).
Proof.
  intros d w f self.
  assert (H : @close scalar_torch json (self false) w = (w, Ok (self true)))
    by reflexivity.
  split; [exact H|].
  exact (@dump_after_close_raises scalar_torch json (self false) (self true)
           (JInt 2) w w H).
Defined.

Lemma short_file_is_never_resumed_to_json_witness :
  let w := scalar_world (Dir [("log.json"%string, File [])]) in
  fs_lookup ["log.json"%string] (fs w) = Some (File []) /\
  List.length (@nil ascii) <= 3 /\
  exists w',
    @session scalar_torch json ["log.json"%string] (@json_dumps ticking_runtime) [JInt 1; JInt 2] w
    = (w', Ok tt) /\
    fs_read ["log.json"%string] (fs w')
    = Ok (txt "," ++ [nl] ++ txt "    1," ++ [nl] ++ txt "    2" ++ [nl] ++ txt "]" ++ [nl]) /\
    json_loads
      (txt "," ++ [nl] ++ txt "    1," ++ [nl] ++ txt "    2" ++ [nl] ++ txt "]" ++ [nl])
    = None.
Proof.
  intros w.
  assert (H1 : fs_lookup ["log.json"%string] (fs w) = Some (File [])) by reflexivity.
  assert (H2 : List.length (@nil ascii) <= 3) by (simpl; lia).
  split; [exact H1|]. split; [exact H2|].
  destruct (@short_file_is_never_resumed_to_json scalar_torch json ["log.json"%string]
              (@json_dumps ticking_runtime) [] (JInt 1) [JInt 2] w H1 H2) as (w' & E & Hr & Hj).
  exists w'. split; [exact E|]. split; [exact Hr | exact Hj].
Defined.

Lemma train_one_step_shows_only_its_progress_witness :
  let w := scalar_world (Dir []) in
  let run :=
    @train_one_step scalar_torch ticking_runtime l1_loss 2%float 0%float
      (scalar_loader [(1, 3); (2, 5)]%float) w in
  let idle :=
    @train_one_step scalar_torch ticking_runtime l1_loss 2%float 0%float
      (scalar_loader []) w in
  bars (fst run) = [BarOpened 2; BarAdvanced; BarAdvanced; BarClosed] /\
  snd run = Ok (0.75, 1)%float /\
  1%float = PrimFloat.sub (@clock ticking_runtime 1) (@clock ticking_runtime 0) /\
  batches (scalar_loader []) = [] /\
  bars (fst idle) = [BarOpened 0; BarClosed] /\
  state (model (fst idle)) = state (model w) /\
  optimizer (fst idle) = optimizer w.
Proof.
  intros w run idle.
  assert (H : snd run = Ok (0.75, 1)%float) by (vm_compute; reflexivity).
  destruct (@train_one_step_shows_only_its_progress scalar_torch ticking_runtime
              l1_loss 2%float 0%float (scalar_loader [(1, 3); (2, 5)]%float) w)
    as (Hb & _ & _ & _ & _ & Ht & _).
  split; [exact Hb|]. split; [exact H|].
  split; [exact (Ht _ _ H)|].
  destruct (@train_one_step_shows_only_its_progress scalar_torch ticking_runtime
              l1_loss 2%float 0%float (scalar_loader []) w)
    as (Hb0 & _ & _ & _ & _ & _ & Hnil).
  split; [reflexivity|]. split; [exact Hb0|]. exact (Hnil eq_refl).
Defined.

Lemma validation_leaves_the_trainer_alone_witness :
  let w := scalar_world (Dir []) in
  let run :=
    @validate_one_step scalar_torch ticking_runtime l1_loss 2%float 0%float
      (scalar_loader [(1, 3); (2, 5)]%float) w in
  (forall tr st g e n a, snd (@forward scalar_torch tr false st g e n a) = st) /\
  snd run = Ok (1, 1)%float /\
  1%float = PrimFloat.sub (@clock ticking_runtime 1) (@clock ticking_runtime 0) /\
  model (fst run) = model w /\
  optimizer (fst run) = optimizer w.
Proof.
  intros w run.
  assert (Hfw : forall tr st g e n a, snd (@forward scalar_torch tr false st g e n a) = st)
    by (intros; reflexivity).
  assert (H : snd run = Ok (1, 1)%float) by (vm_compute; reflexivity).
  split; [exact Hfw|]. split; [exact H|].
  destruct (@validation_leaves_the_trainer_alone scalar_torch ticking_runtime l1_loss
              2%float 0%float (scalar_loader [(1, 3); (2, 5)]%float) w)
    as (Ho & _ & _ & _ & _ & Ht & Hm).
  split; [exact (Ht _ _ H)|]. split; [exact (Hm Hfw) | exact Ho].
Defined.

Lemma every_epoch_is_reported_witness :
  let run :=
    @train scalar_torch ticking_runtime 4 l1_loss l1_loss 2%float 0%float
      (scalar_loader [(1, 2)]%float) (scalar_loader [(1, 4)]%float)
      ["log.json"%string] (scalar_world_at 4 0.5 (Dir [])) in
  run = (fst run, Ok tt) /\
  exists evs,
    trace (fst run) = evs /\
    logger_msgs evs
    = TrainingStarted :: map summary_of (epoch_rows evs) ++ [TrainingFinished] /\
    map Epoch (epoch_rows evs) = [1; 2; 3; 4]%Z /\
    List.length (epoch_rows evs) = 4.
Proof.
  intros run.
  assert (H : run = (fst run, Ok tt)) by (vm_compute; reflexivity).
  split; [exact H|].
  destruct (@every_epoch_is_reported scalar_torch ticking_runtime
              4 l1_loss l1_loss 2%float 0%float
              (scalar_loader [(1, 2)]%float) (scalar_loader [(1, 4)]%float)
              ["log.json"%string] (scalar_world_at 4 0.5 (Dir [])) (fst run) H)
    as (evs & Htr & Hmsgs & Hep & Hlen).
  exists evs. cbn [trace scalar_world_at List.app] in Htr.
  split; [exact Htr|]. split; [exact Hmsgs|]. split; [exact Hep | exact Hlen].
Defined.

Lemma best_model_follows_each_checkpoint_witness :
  let run :=
    @train scalar_torch ticking_runtime 4 l1_loss l1_loss 2%float 0%float
      (scalar_loader [(1, 2)]%float) (scalar_loader [(1, 4)]%float)
      ["log.json"%string] (scalar_world_at 4 0.5 (Dir [])) in
  run = (fst run, Ok tt) /\
  exists evs,
    trace (fst run) = evs /\
    map fst (best_models evs) = map (fun c => fst (fst c)) (checkpoint_states evs) /\
    List.length (best_models evs) = List.length (saved_checkpoints evs) /\
    List.length (saved_checkpoints evs) = 2.
Proof.
  intros run.
  assert (H : run = (fst run, Ok tt)) by (vm_compute; reflexivity).
  split; [exact H|].
  destruct (@best_model_follows_each_checkpoint scalar_torch ticking_runtime
              4 l1_loss l1_loss 2%float 0%float
              (scalar_loader [(1, 2)]%float) (scalar_loader [(1, 4)]%float)
              ["log.json"%string] (scalar_world_at 4 0.5 (Dir [])) (fst run) H)
    as (evs & Htr & Hm & _ & Hlen).
  exists evs. cbn [trace scalar_world_at List.app] in Htr.
  split; [exact Htr|]. split; [exact Hm|]. split; [exact Hlen|].
  rewrite <- Htr. vm_compute. reflexivity.
Defined.

Lemma checkpoint_holds_the_state_after_the_epoch_witness :
  let jsonlog :=
    {| file := {| f_path := ["log.json"%string]; f_mode := ModeW; f_pos := 0;
                  f_pending := []; f_closed := false |};
       delimeter := txt "["; encoder := fun _ : log_dict => txt "{}" |} in
  let w :=
    scalar_world_at 4 0.5
      (Dir [("BestModel"%string, Dir []); ("CheckPoints"%string, Dir []);
            ("log.json"%string, File [])]) in
  let run :=
    @train_epoch scalar_torch ticking_runtime l1_loss l1_loss 2%float 0%float
      (scalar_loader [(1, 2)]%float) (scalar_loader [(1, 4)]%float)
      (jsonlog, initial_best_val_loss) 0%Z w in
  let jsonlog' := match snd run with Ok x => fst x | Raise _ => jsonlog end in
  run = (fst run, Ok (jsonlog', 1%float)) /\
  scheduler (fst run) = 1 /\
  exists evs,
    trace (fst run) = evs /\
    map fst (saves evs)
    = [["CheckPoints"; "00001-0.00000.pt"]; ["BestModel"; "best-model.pt"]]%string.
Proof.
  intros jsonlog w run jsonlog'.
  assert (H : run = (fst run, Ok (jsonlog', 1%float))) by (vm_compute; reflexivity).
  split; [exact H|]. split; [vm_compute; reflexivity|].
  destruct (@checkpoint_holds_the_state_after_the_epoch scalar_torch ticking_runtime
              l1_loss l1_loss 2%float 0%float
              (scalar_loader [(1, 2)]%float) (scalar_loader [(1, 4)]%float)
              jsonlog initial_best_val_loss 0%Z w (fst run) jsonlog' 1%float H)
    as (w1 & w2 & row & evs & _ & _ & _ & _ & Htr & _).
  exists evs. cbn [trace scalar_world_at List.app w] in Htr.
  split; [exact Htr|]. rewrite <- Htr. vm_compute. reflexivity.
Defined.

Lemma checkpoints_descend_witness :
  let run :=
    @train scalar_torch ticking_runtime 4 l1_loss l1_loss 2%float 0%float
      (scalar_loader [(1, 2)]%float) (scalar_loader [(1, 4)]%float)
      ["log.json"%string] (scalar_world_at 4 0.5 (Dir [])) in
  run = (fst run, Ok tt) /\
  exists evs,
    trace (fst run) = evs /\
    map fst (saved_checkpoints evs) = [(1%Z, 1%float); (2%Z, 0.5%float)] /\
    (1 < 2)%Z /\ float_lt 0.5 1 = true.
Proof.
  intros run.
  assert (H : run = (fst run, Ok tt)) by (vm_compute; reflexivity).
  split; [exact H|].
  destruct (@checkpoints_descend scalar_torch ticking_runtime
              4 l1_loss l1_loss 2%float 0%float
              (scalar_loader [(1, 2)]%float) (scalar_loader [(1, 4)]%float)
              ["log.json"%string] (scalar_world_at 4 0.5 (Dir [])) (fst run) H)
    as (evs & Htr & _ & Hord).
  exists evs. cbn [trace scalar_world_at List.app] in Htr.
  split; [exact Htr|].
  assert (Hs : saved_checkpoints evs
               = [(1%Z, 1%float, ["CheckPoints"; "00001-0.00000.pt"]%string);
                  (2%Z, 0.5%float, ["CheckPoints"; "00002-0.00000.pt"]%string)])
    by (rewrite <- Htr; vm_compute; reflexivity).
  split; [rewrite Hs; reflexivity|].
  apply (Hord 0 1 1%Z 1%float ["CheckPoints"; "00001-0.00000.pt"]%string
           2%Z 0.5%float ["CheckPoints"; "00002-0.00000.pt"]%string).
  - lia.
  - rewrite Hs. reflexivity.
  - rewrite Hs. reflexivity.
Defined.

Lemma last_checkpoint_has_the_least_loss_witness :
  let run :=
    @train scalar_torch ticking_runtime 4 l1_loss l1_loss 2%float 0%float
      (scalar_loader [(1, 2)]%float) (scalar_loader [(1, 4)]%float)
      ["log.json"%string] (scalar_world_at 4 0.5 (Dir [])) in
  run = (fst run, Ok tt) /\
  exists evs,
    trace (fst run) = evs /\
    map val_loss (epoch_rows evs) = [1; 0.5; 1.25; 1.625]%float /\
    last (map (fun c => snd (fst c)) (saved_checkpoints evs)) initial_best_val_loss
    = 0.5%float /\
    forall r, In r (epoch_rows evs) -> float_lt (val_loss r) 0.5 = false.
Proof.
  intros run.
  assert (H : run = (fst run, Ok tt)) by (vm_compute; reflexivity).
  split; [exact H|].
  destruct (@last_checkpoint_has_the_least_loss scalar_torch ticking_runtime
              4 l1_loss l1_loss 2%float 0%float
              (scalar_loader [(1, 2)]%float) (scalar_loader [(1, 4)]%float)
              ["log.json"%string] (scalar_world_at 4 0.5 (Dir [])) (fst run) H)
    as (evs & Htr & _ & Hleast).
  exists evs. cbn [trace scalar_world_at List.app] in Htr.
  assert (Hl : last (map (fun c => snd (fst c)) (saved_checkpoints evs))
                 initial_best_val_loss = 0.5%float)
    by (rewrite <- Htr; vm_compute; reflexivity).
  split; [exact Htr|]. split; [rewrite <- Htr; vm_compute; reflexivity|].
  split; [exact Hl|].
  intros r Hin. rewrite <- Hl. exact (proj1 (Hleast r Hin)).
Defined.

Lemma checkpoint_name_tells_the_epoch_witness :
  (0 <= 0)%Z /\ (0 <= 1)%Z /\ 0%Z <> 1%Z /\
  @checkpoint_name ticking_runtime 0 1%float = "00001-0.00000.pt"%string /\
  @checkpoint_name ticking_runtime 1 0.5%float = "00002-0.00000.pt"%string /\
  @checkpoint_name ticking_runtime 0 1%float <> @checkpoint_name ticking_runtime 1 0.5%float.
Proof.
  assert (H1 : (0 <= 0)%Z) by lia.
  assert (H2 : (0 <= 1)%Z) by lia.
  assert (H3 : 0%Z <> 1%Z) by lia.
  split; [exact H1|]. split; [exact H2|]. split; [exact H3|].
  split; [reflexivity|]. split; [reflexivity|].
  exact (@checkpoint_name_tells_the_epoch ticking_runtime 0 1 1%float 0.5%float H1 H2 H3).
Defined.

Lemma no_checkpoint_is_overwritten_witness :
  let run :=
    @train scalar_torch ticking_runtime 4 l1_loss l1_loss 2%float 0%float
      (scalar_loader [(1, 2)]%float) (scalar_loader [(1, 4)]%float)
      ["log.json"%string] (scalar_world_at 4 0.5 (Dir [])) in
  run = (fst run, Ok tt) /\
  exists evs,
    trace (fst run) = evs /\
    map snd (saved_checkpoints evs)
    = [["CheckPoints"; "00001-0.00000.pt"]; ["CheckPoints"; "00002-0.00000.pt"]]%string /\
    NoDup (map snd (saved_checkpoints evs)).
Proof.
  intros run.
  assert (H : run = (fst run, Ok tt)) by (vm_compute; reflexivity).
  split; [exact H|].
  destruct (@no_checkpoint_is_overwritten scalar_torch ticking_runtime
              4 l1_loss l1_loss 2%float 0%float
              (scalar_loader [(1, 2)]%float) (scalar_loader [(1, 4)]%float)
              ["log.json"%string] (scalar_world_at 4 0.5 (Dir [])) (fst run) H)
    as (evs & Htr & Hnd & _).
  exists evs. cbn [trace scalar_world_at List.app] in Htr.
  split; [exact Htr|]. split; [rewrite <- Htr; vm_compute; reflexivity | exact Hnd].
Defined.

Lemma train_stops_at_a_file_in_the_way_witness :
  let es1 := [("BestModel"%string, File (txt "x"))] in
  let es2 := [("BestModel"%string, Dir [("best-model.pt"%string, File (txt "old"))]);
              ("CheckPoints"%string, File (txt "x"))] in
  let run es :=
    @train scalar_torch ticking_runtime 4 l1_loss l1_loss 2%float 0%float
      (scalar_loader [(1, 2)]%float) (scalar_loader [(1, 4)]%float)
      ["log.json"%string] (scalar_world (Dir es)) in
  run es1 = (scalar_world (Dir es1), Raise NotADirectoryError) /\
  exists es',
    run es2 = (set_fs (Dir es') (scalar_world (Dir es2)), Raise NotADirectoryError) /\
    assoc_get "BestModel" es' = Some (Dir []).
Proof.
  intros es1 es2 run. split.
  - apply (proj1 (@train_stops_at_a_file_in_the_way scalar_torch ticking_runtime
                    4 l1_loss l1_loss 2%float 0%float
                    (scalar_loader [(1, 2)]%float) (scalar_loader [(1, 4)]%float)
                    ["log.json"%string] es1 (scalar_world (Dir es1)) eq_refl)
             (txt "x")).
    reflexivity.
  - destruct (proj2 (@train_stops_at_a_file_in_the_way scalar_torch ticking_runtime
                       4 l1_loss l1_loss 2%float 0%float
                       (scalar_loader [(1, 2)]%float) (scalar_loader [(1, 4)]%float)
                       ["log.json"%string] es2 (scalar_world (Dir es2)) eq_refl)
                (txt "x")) as (es' & E & G & _).
    + right. eexists. reflexivity.
    + reflexivity.
    + exists es'. split; [exact E | exact G].
Defined.

Lemma log_file_after_a_run_witness :
  let w := scalar_world_at 4 0.5 (Dir [("notes.txt"%string, File (txt "keep"))]) in
  exists w' evs,
    @train scalar_torch ticking_runtime 4 l1_loss l1_loss 2%float 0%float
      (scalar_loader [(1, 2)]%float) (scalar_loader [(1, 4)]%float)
      ["log.json"%string] w = (w', Ok tt) /\
    trace w' = evs /\
    fs_read ["log.json"%string] (fs w')
    = Ok (log_file_text
            (map (@dumps_log_dict ticking_runtime) (improving [] (epoch_rows evs)))) /\
    fs_read ["notes.txt"%string] (fs w') = Ok (txt "keep").
Proof.
  intros w.
  assert (N1 : "log.json"%string <> "BestModel"%string) by discriminate.
  assert (N2 : "log.json"%string <> "CheckPoints"%string) by discriminate.
  assert (Hl : log_on_disk ["log.json"%string] [] (fs w)).
  { left. split; [reflexivity|].
    exists [], "log.json"%string, [("notes.txt"%string, File (txt "keep"))].
    repeat split. }
  assert (Htl : dl_len (scalar_loader [(1, 2)]%float) <> 0) by discriminate.
  assert (Hvl : dl_len (scalar_loader [(1, 4)]%float) <> 0) by discriminate.
  destruct (@log_file_after_a_run scalar_torch ticking_runtime "log.json" [] 4
              l1_loss l1_loss 2%float 0%float
              (scalar_loader [(1, 2)]%float) (scalar_loader [(1, 4)]%float)
              [] [("notes.txt"%string, File (txt "keep"))] w
              N1 N2 eq_refl (or_introl eq_refl) (or_introl eq_refl) Hl Htl Hvl)
    as (w' & evs & E & Htr & Hlog).
  exists w', evs. cbn [trace scalar_world_at List.app w] in Htr.
  split; [exact E|]. split; [exact Htr|]. split; [exact Hlog|].
  assert (Hw : w' = fst (@train scalar_torch ticking_runtime 4 l1_loss l1_loss
                           2%float 0%float
                           (scalar_loader [(1, 2)]%float) (scalar_loader [(1, 4)]%float)
                           ["log.json"%string] w)) by (rewrite E; reflexivity).
  rewrite Hw. vm_compute. reflexivity.
Defined.

Lemma train_without_epochs_witness :
  let es := [("BestModel"%string, Dir [("best-model.pt"%string, File (txt "old"))])] in
  let w := scalar_world (Dir es) in
  exists w',
    @train scalar_torch ticking_runtime 0 l1_loss l1_loss 2%float 0%float
      (scalar_loader [(1, 2)]%float) (scalar_loader [(1, 4)]%float)
      ["log.json"%string] w = (w', Ok tt) /\
    trace w' = [LoggerInfo TrainingStarted; LoggerInfo TrainingFinished] /\
    model w' = model w /\
    fs_lookup outpath (fs w') = Some (Dir []) /\
    fs_read ["log.json"%string] (fs w') = Ok [] /\
    json_loads [] = None.
Proof.
  intros es w.
  assert (Hn : (0 <= 0)%Z) by lia.
  assert (N1 : "log.json"%string <> "BestModel"%string) by discriminate.
  assert (N2 : "log.json"%string <> "CheckPoints"%string) by discriminate.
  assert (Hl : log_on_disk ["log.json"%string] [] (fs w)).
  { left. split; [reflexivity|]. exists [], "log.json"%string, es. repeat split. }
  destruct (@train_without_epochs scalar_torch ticking_runtime "log.json" [] 0
              l1_loss l1_loss 2%float 0%float
              (scalar_loader [(1, 2)]%float) (scalar_loader [(1, 4)]%float)
              [] es w Hn N1 N2 eq_refl
              (or_intror (ex_intro _ _ eq_refl)) (or_introl eq_refl) Hl)
    as (w' & E & Htr & Hm & _ & _ & _ & Hout & _ & Hlog).
  exists w'. cbn [trace scalar_world scalar_world_at List.app w] in Htr.
  split; [exact E|]. split; [exact Htr|]. split; [exact Hm|].
  split; [exact Hout|]. split; [exact Hlog | reflexivity].
Defined.

Lemma failed_run_has_reset_the_directories_witness :
  let es := [("BestModel"%string, Dir [("best-model.pt"%string, File (txt "old"))])] in
  let w := scalar_world (Dir es) in
  exists w',
    @train scalar_torch ticking_runtime 4 l1_loss l1_loss 2%float 0%float
      (scalar_loader []) (scalar_loader [(1, 4)]%float)
      ["log.json"%string] w = (w', Raise ZeroDivisionError) /\
    trace w' = [LoggerInfo TrainingStarted] /\
    fs_lookup outpath (fs w') = Some (Dir []) /\
    fs_lookup checkpath (fs w') = Some (Dir []) /\
    fs_read ["log.json"%string] (fs w') = Ok [].
Proof.
  intros es w.
  assert (Hn : (0 < 4)%Z) by lia.
  assert (Hz : dl_len (scalar_loader []) = 0) by reflexivity.
  assert (N1 : "log.json"%string <> "BestModel"%string) by discriminate.
  assert (N2 : "log.json"%string <> "CheckPoints"%string) by discriminate.
  assert (Hl : log_on_disk ["log.json"%string] [] (fs w)).
  { left. split; [reflexivity|]. exists [], "log.json"%string, es. repeat split. }
  destruct (@failed_run_has_reset_the_directories scalar_torch ticking_runtime
              "log.json" [] 4 l1_loss l1_loss 2%float 0%float
              (scalar_loader []) (scalar_loader [(1, 4)]%float)
              [] es w Hn Hz N1 N2 eq_refl
              (or_intror (ex_intro _ _ eq_refl)) (or_introl eq_refl) Hl)
    as (w' & E & Htr & _ & _ & Hout & Hck & Hlog).
  exists w'. cbn [trace scalar_world scalar_world_at List.app w] in Htr.
  split; [exact E|]. split; [exact Htr|]. split; [exact Hout|].
  split; [exact Hck | exact Hlog].
Defined.

Lemma saved_files_after_a_run_witness :
  let w := scalar_world_at 4 0.5 (Dir []) in
  exists w' evs,
    @train scalar_torch ticking_runtime 4 l1_loss l1_loss 2%float 0%float
      (scalar_loader [(1, 2)]%float) (scalar_loader [(1, 4)]%float)
      ["log.json"%string] w = (w', Ok tt) /\
    trace w' = evs /\
    holds_saves outpath evs (fs w') /\
    holds_saves checkpath evs (fs w') /\
    fs_lookup checkpath (fs w')
    = Some (Dir [("00001-0.00000.pt"%string, File (txt "pt"));
                 ("00002-0.00000.pt"%string, File (txt "pt"))]) /\
    fs_lookup outpath (fs w') = Some (Dir [("best-model.pt"%string, File (txt "pt"))]).
Proof.
  intros w.
  assert (N1 : "log.json"%string <> "BestModel"%string) by discriminate.
  assert (N2 : "log.json"%string <> "CheckPoints"%string) by discriminate.
  assert (Hl : log_on_disk ["log.json"%string] [] (fs w)).
  { left. split; [reflexivity|]. exists [], "log.json"%string, []. repeat split. }
  assert (Htl : dl_len (scalar_loader [(1, 2)]%float) <> 0) by discriminate.
  assert (Hvl : dl_len (scalar_loader [(1, 4)]%float) <> 0) by discriminate.
  destruct (@saved_files_after_a_run scalar_torch ticking_runtime "log.json" [] 4
              l1_loss l1_loss 2%float 0%float
              (scalar_loader [(1, 2)]%float) (scalar_loader [(1, 4)]%float)
              [] [] w
              N1 N2 eq_refl (or_introl eq_refl) (or_introl eq_refl) Hl Htl Hvl)
    as (w' & evs & E & Htr & Hout & Hck & _).
  exists w', evs. cbn [trace scalar_world_at List.app w] in Htr.
  split; [exact E|]. split; [exact Htr|]. split; [exact Hout|]. split; [exact Hck|].
  assert (Hw : w' = fst (@train scalar_torch ticking_runtime 4 l1_loss l1_loss
                           2%float 0%float
                           (scalar_loader [(1, 2)]%float) (scalar_loader [(1, 4)]%float)
                           ["log.json"%string] w)) by (rewrite E; reflexivity).
  rewrite Hw. vm_compute. split; reflexivity.
Defined.

Lemma run_on_an_empty_log_file_witness :
  let w := scalar_world_at 4 0.5 (Dir [("log.json"%string, File [])]) in
  exists w' evs,
    @train scalar_torch ticking_runtime 4 l1_loss l1_loss 2%float 0%float
      (scalar_loader [(1, 2)]%float) (scalar_loader [(1, 4)]%float)
      ["log.json"%string] w = (w', Ok tt) /\
    trace w' = evs /\
    fs_read ["log.json"%string] (fs w')
    = Ok (log_file_text_from (txt ",")
            (map (@dumps_log_dict ticking_runtime) (improving [] (epoch_rows evs)))) /\
    List.length (improving [] (epoch_rows evs)) = 2 /\
    match fs_read ["log.json"%string] (fs w') with
    | Ok t => firstn 1 t = txt ","
    | Raise _ => False
    end.
Proof.
  intros w.
  assert (N1 : "log.json"%string <> "BestModel"%string) by discriminate.
  assert (N2 : "log.json"%string <> "CheckPoints"%string) by discriminate.
  assert (Hl : fs_read ["log.json"%string] (fs w) = Ok []) by reflexivity.
  assert (Htl : dl_len (scalar_loader [(1, 2)]%float) <> 0) by discriminate.
  assert (Hvl : dl_len (scalar_loader [(1, 4)]%float) <> 0) by discriminate.
  destruct (@run_on_an_empty_log_file scalar_torch ticking_runtime "log.json" [] 4
              l1_loss l1_loss 2%float 0%float
              (scalar_loader [(1, 2)]%float) (scalar_loader [(1, 4)]%float)
              [("log.json"%string, File [])] w
              N1 N2 eq_refl (or_introl eq_refl) (or_introl eq_refl) Hl Htl Hvl)
    as (w' & evs & E & Htr & Hlog & _).
  exists w', evs. cbn [trace scalar_world_at List.app w] in Htr.
  split; [exact E|]. split; [exact Htr|]. split; [exact Hlog|].
  assert (Hw : w' = fst (@train scalar_torch ticking_runtime 4 l1_loss l1_loss
                           2%float 0%float
                           (scalar_loader [(1, 2)]%float) (scalar_loader [(1, 4)]%float)
                           ["log.json"%string] w)) by (rewrite E; reflexivity).
  rewrite <- Htr, Hw. vm_compute. split; reflexivity.
Defined.

Lemma two_runs_in_a_row_witness :
  let w := scalar_world_at 4 0.5 (Dir []) in
  exists w1 w2 evs1 evs2,
    @train scalar_torch ticking_runtime 4 l1_loss l1_loss 2%float 0%float
      (scalar_loader [(1, 2)]%float) (scalar_loader [(1, 4)]%float)
      ["log.json"%string] w = (w1, Ok tt) /\
    @train scalar_torch ticking_runtime 2 l1_loss l1_loss 2%float 0%float
      (scalar_loader [(1, 2)]%float) (scalar_loader [(1, 4)]%float)
      ["log.json"%string] w1 = (w2, Ok tt) /\
    trace w1 = evs1 /\
    trace w2 = evs1 ++ evs2 /\
    holds_saves outpath evs2 (fs w2) /\
    holds_saves checkpath evs2 (fs w2) /\
    List.length (improving [] (epoch_rows evs1)) = 2 /\
    fs_read ["log.json"%string] (fs w2)
    = Ok (log_text
            (map (@dumps_log_dict ticking_runtime) (improving [] (epoch_rows evs1)) ++
             map (@dumps_log_dict ticking_runtime) (improving [] (epoch_rows evs2)))).
Proof.
  intros w.
  assert (N1 : "log.json"%string <> "BestModel"%string) by discriminate.
  assert (N2 : "log.json"%string <> "CheckPoints"%string) by discriminate.
  assert (Hl : log_on_disk ["log.json"%string] [] (fs w)).
  { left. split; [reflexivity|]. exists [], "log.json"%string, []. repeat split. }
  assert (Htl : dl_len (scalar_loader [(1, 2)]%float) <> 0) by discriminate.
  assert (Hvl : dl_len (scalar_loader [(1, 4)]%float) <> 0) by discriminate.
  destruct (@two_runs_in_a_row scalar_torch ticking_runtime "log.json" [] 4 2
              l1_loss l1_loss 2%float 0%float
              (scalar_loader [(1, 2)]%float) (scalar_loader [(1, 4)]%float)
              [] [] w
              N1 N2 eq_refl (or_introl eq_refl) (or_introl eq_refl) Hl Htl Hvl)
    as (w1 & w2 & evs1 & evs2 & E1 & E2 & Tr1 & Tr2 & Hout & Hck & Hlog & _).
  exists w1, w2, evs1, evs2.
  cbn [trace scalar_world_at List.app w] in Tr1. rewrite Tr1 in Tr2.
  split; [exact E1|]. split; [exact E2|]. split; [exact Tr1|]. split; [exact Tr2|].
  split; [exact Hout|]. split; [exact Hck|].
  assert (Hw : w1 = fst (@train scalar_torch ticking_runtime 4 l1_loss l1_loss
                           2%float 0%float
                           (scalar_loader [(1, 2)]%float) (scalar_loader [(1, 4)]%float)
                           ["log.json"%string] w)) by (rewrite E1; reflexivity).
  assert (Hn : List.length (improving [] (epoch_rows evs1)) = 2).
  { rewrite <- Tr1, Hw. vm_compute. reflexivity. }
  split; [exact Hn|].
  cbn [List.app] in Hlog. apply Hlog.
  destruct (improving [] (epoch_rows evs1)); [discriminate Hn | discriminate].
Defined.

Lemma step_average_divides_by_len_witness :
  let dl := @Build_DataLoader scalar_torch [] 2 in
  let w := scalar_world (Dir []) in
  dl_len dl <> 0 /\
  (exists w1 t1,
      @train_one_step scalar_torch ticking_runtime l1_loss 2%float 0%float dl w
      = (w1, Ok (mean_loss (@train_batch_losses scalar_torch ticking_runtime
                              l1_loss 2%float 0%float dl w) 2, t1))) /\
  mean_loss (@train_batch_losses scalar_torch ticking_runtime
               l1_loss 2%float 0%float dl w) 2 = 0%float.
Proof.
  intros dl w.
  assert (H : dl_len dl <> 0) by discriminate.
  split; [exact H|]. split.
  - exact (proj1 (@step_average_divides_by_len scalar_torch ticking_runtime
                    l1_loss 2%float 0%float dl w H)).
  - vm_compute. reflexivity.
Defined.

Lemma log_of_a_run_is_read_back_witness :
  let w := scalar_world_at 4 0.5 (Dir []) in
  let recs :=
    [{| Epoch := 1; train_loss := 3; val_loss := 1; train_time := 1; val_time := 1 |};
     {| Epoch := 2; train_loss := 1.5; val_loss := 0.5;
        train_time := 1; val_time := 1 |}]%float in
  exists w' evs c,
    @train scalar_torch decimal_runtime 4 l1_loss l1_loss 2%float 0%float
      (scalar_loader [(1, 2)]%float) (scalar_loader [(1, 4)]%float)
      ["log.json"%string] w = (w', Ok tt) /\
    trace w' = evs /\
    improving [] (epoch_rows evs) = recs /\
    fs_read ["log.json"%string] (fs w') = Ok c /\
    json_loads c = Some (JList (map json_of_log_dict recs)).
Proof.
  intros w recs.
  assert (N1 : "log.json"%string <> "BestModel"%string) by discriminate.
  assert (N2 : "log.json"%string <> "CheckPoints"%string) by discriminate.
  assert (Hl : log_on_disk ["log.json"%string]
                 (map (@dumps_log_dict decimal_runtime) []) (fs w)).
  { left. split; [reflexivity|]. exists [], "log.json"%string, []. repeat split. }
  assert (Htl : dl_len (scalar_loader [(1, 2)]%float) <> 0) by discriminate.
  assert (Hvl : dl_len (scalar_loader [(1, 4)]%float) <> 0) by discriminate.
  destruct (@log_of_a_run_is_read_back scalar_torch decimal_runtime "log.json" [] 4
              l1_loss l1_loss 2%float 0%float
              (scalar_loader [(1, 2)]%float) (scalar_loader [(1, 4)]%float)
              [] [] w
              N1 N2 eq_refl (or_introl eq_refl) (or_introl eq_refl) Hl Htl Hvl)
    as (w' & evs & E & Htr & Hjson & _).
  cbn [trace scalar_world_at List.app w] in Htr.
  assert (Hw : w' = fst (@train scalar_torch decimal_runtime 4 l1_loss l1_loss
                           2%float 0%float
                           (scalar_loader [(1, 2)]%float) (scalar_loader [(1, 4)]%float)
                           ["log.json"%string] w)) by (rewrite E; reflexivity).
  assert (Hrecs : improving [] (epoch_rows evs) = recs)
    by (rewrite <- Htr, Hw; vm_compute; reflexivity).
  cbn [List.app] in Hjson. rewrite Hrecs in Hjson.
  destruct Hjson as (c & Hc & Hj).
  - discriminate.
  - repeat constructor; intros _ _ _; vm_compute; reflexivity.
  - exists w', evs, c. split; [exact E|]. split; [exact Htr|].
    split; [exact Hrecs|]. split; [exact Hc | exact Hj].
Defined.
